(** * sthereo.py: spatial candidate sets and online hard-negative mining

    A shallow embedding of [sthereo.py] (the STHEREO data sets of
    pytorch-NetVlad): the manifest handler [JsonHandler], the evaluation
    data set [WholeDatasetFromJson] with its memoised [getPositives], and
    the training data set [QueryDatasetFromJson] whose [__getitem__] mines
    hard negatives against a cached table of embeddings.

    Conventions of the embedding:
    - Python exceptions are the [Err] branch of [result];
    - integers are [Z]; [astype(np.int32)] is written out for the two
      element types it meets, and what is proved of the indices it
      returns is proved where they fit [np.int32];
    - floating-point numbers are an abstract scalar type with the four
      operations the file uses ([<], [<=], [+], [** 0.5]); theorems that
      need an order law say so, and the laws are given for an instance;
    - the libraries the file calls (scikit-learn's [NearestNeighbors],
      numpy, h5py, json, PIL) are modelled by the part of their contract
      the file relies on, each next to its first use;
    - [np.random.choice] reads an explicit stream of draws. *)

From Stdlib Require Import String Ascii ZArith List Bool Lia Sorted Permutation.
Import ListNotations.
Local Open Scope Z_scope.

Set Implicit Arguments.
Local Set Warnings "-register-all".

(** ** Exceptions and the error monad *)

Inductive exn : Type :=
| IndexError
| ValueError
| TypeError
| AttributeError
| OSError.

Inductive result (A : Type) : Type :=
| OK (a : A)
| Err (e : exn).

Arguments OK {A} a.
Arguments Err {A} e.

Definition bind {A B : Type} (r : result A) (k : A -> result B) : result B :=
  match r with
  | OK a => k a
  | Err e => Err e
  end.

Declare Scope result_scope.
Delimit Scope result_scope with result.
Notation "x <- c ;; k" := (bind c (fun x => k))
  (at level 100, c at next level, right associativity) : result_scope.
Notation "' p <- c ;; k" := (bind c (fun x => let p := x in k))
  (at level 100, p pattern, c at next level, right associativity) : result_scope.
Local Open Scope result_scope.

Definition raises {A : Type} (r : result A) : Prop := exists e, r = Err e.

Definition of_option {A : Type} (e : exn) (o : option A) : result A :=
  match o with
  | Some a => OK a
  | None => Err e
  end.

Fixpoint mapM {A B : Type} (f : A -> result B) (l : list A) : result (list B) :=
  match l with
  | [] => OK []
  | a :: t => b <- f a ;; bs <- mapM f t ;; OK (b :: bs)
  end.

(** ** Scalars

    The floats of the program.  [f_pow_half x] is [x ** 0.5], a float as
    long as [x] is not negative; the margin and the squared threshold it
    is applied to are such in every caller. *)

Class Scalar (F : Type) : Type := {
  f_ltb : F -> F -> bool;
  f_leb : F -> F -> bool;
  f_add : F -> F -> F;
  f_pow_half : F -> F
}.

(** The order laws used by the sortedness and monotonicity results.  They
    hold of IEEE doubles away from NaN: [<] and [<=] are those of a total
    order, rounded addition is monotone in each argument, and so is the
    square root. *)
Class ScalarLaws (F : Type) `{Scalar F} : Prop := {
  f_ltb_leb : forall a b, f_ltb a b = negb (f_leb b a);
  f_leb_trans : forall a b c, f_leb a b = true -> f_leb b c = true -> f_leb a c = true;
  f_leb_total : forall a b, f_leb a b = true \/ f_leb b a = true;
  f_add_mono_r : forall p a b, f_leb a b = true -> f_leb (f_add p a) (f_add p b) = true;
  f_pow_half_mono : forall a b, f_leb a b = true -> f_leb (f_pow_half a) (f_pow_half b) = true
}.

Arguments ScalarLaws F {_}.

(** Integer scalars, for running the model: [** 0.5] is the integer
    square root. *)
#[export] Instance Scalar_Z : Scalar Z := {
  f_ltb := Z.ltb;
  f_leb := Z.leb;
  f_add := Z.add;
  f_pow_half := Z.sqrt
}.

(** ** Python sequences *)

(** The position an index [i] denotes in a sequence of length [n]: a
    negative index counts from the end, anything out of range is refused. *)
Definition py_pos (n : nat) (i : Z) : option nat :=
  if (0 <=? i) && (i <? Z.of_nat n) then Some (Z.to_nat i)
  else if (- Z.of_nat n <=? i) && (i <? 0) then Some (Z.to_nat (Z.of_nat n + i))
  else None.

(** [l[i]] for a list, tuple or one-dimensional array. *)
Definition py_index {A : Type} (l : list A) (i : Z) : result A :=
  match py_pos (length l) i with
  | Some k => of_option IndexError (nth_error l k)
  | None => Err IndexError
  end.

Fixpoint list_set {A : Type} (l : list A) (n : nat) (x : A) : list A :=
  match l, n with
  | [], _ => []
  | _ :: t, O => x :: t
  | a :: t, S m => a :: list_set t m x
  end.

(** [l[i] = x]. *)
Definition py_setitem {A : Type} (l : list A) (i : Z) (x : A) : result (list A) :=
  match py_pos (length l) i with
  | Some k => OK (list_set l k x)
  | None => Err IndexError
  end.

(** [l[:n]]. *)
Definition py_take {A : Type} (l : list A) (n : Z) : list A :=
  if 0 <=? n then firstn (Z.to_nat n) l
  else firstn (length l - Z.to_nat (- n)) l.

(** [np.arange(n)] and [range(n)]. *)
Definition arange (n : Z) : list Z := map Z.of_nat (seq 0 (Z.to_nat n)).

(** The element types of the arrays of indices. *)
Inductive dtype : Type := int64 | float64.

(** [a.astype(np.int32)] on one element of an array of type [from] that
    holds the integer [z].  An integer wraps around.  A float that fits
    [np.int32] is cast exactly; for one that does not, C leaves the
    conversion undefined and numpy returns what the processor's
    instruction gives, the least [np.int32] on x86-64. *)
Definition astype_int32 (from : dtype) (z : Z) : Z :=
  match from with
  | int64 => (z + 2 ^ 31) mod 2 ^ 32 - 2 ^ 31
  | float64 => if (- 2 ^ 31 <=? z) && (z <? 2 ^ 31) then z else - 2 ^ 31
  end.

(** Insertion of one value in an ascending list without duplicates. *)
Fixpoint insert_unique (x : Z) (l : list Z) : list Z :=
  match l with
  | [] => [x]
  | y :: t =>
      if x <? y then x :: l
      else if x =? y then l
      else y :: insert_unique x t
  end.

(** [np.unique(a)]: the sorted distinct values. *)
Definition np_unique (l : list Z) : list Z := fold_right insert_unique [] l.

Fixpoint insert_sorted (x : Z) (l : list Z) : list Z :=
  match l with
  | [] => [x]
  | y :: t => if x <=? y then x :: l else y :: insert_sorted x t
  end.

(** [np.sort(a)]. *)
Definition np_sort (l : list Z) : list Z := fold_right insert_sorted [] l.

(** [np.setdiff1d(ar1, ar2, assume_unique=True)]: with [assume_unique] the
    first array is neither sorted nor deduplicated, the result is
    [ar1[~isin(ar1, ar2)]]. *)
Definition setdiff1d (ar1 ar2 : list Z) : list Z :=
  filter (fun x => negb (existsb (Z.eqb x) ar2)) ar1.

(** [np.where(mask)[0]]. *)
Definition np_where (mask : list bool) : list Z :=
  map fst (filter snd (combine (arange (Z.of_nat (length mask))) mask)).

(** [np.sum(mask)] on a boolean array. *)
Definition np_sum (mask : list bool) : Z := Z.of_nat (count_occ bool_dec mask true).

(** [a[mask]], boolean-mask indexing; the lengths must agree. *)
Definition mask_index {A : Type} (a : list A) (mask : list bool) : result (list A) :=
  if Nat.eqb (length a) (length mask)
  then OK (map fst (filter snd (combine a mask)))
  else Err IndexError.

(** [a[idx]], indexing by an integer array. *)
Definition take_indices {A : Type} (a : list A) (idx : list Z) : result (list A) :=
  mapM (py_index a) idx.

(** ** Collaborators *)

(** The Euclidean distance of scikit-learn, on coordinates and on
    embeddings alike. *)
Class Metric (V F : Type) : Type := { dist : V -> V -> F }.

(** [Image.open(path)] followed by [input_transform]. *)
Class ImageLoader (Img : Type) : Type := { load_image : string -> result Img }.

(** One-dimensional integer points, for running the model. *)
#[export] Instance Metric_Z : Metric Z Z := { dist := fun a b => Z.abs (a - b) }.

#[export] Instance ImageLoader_path : ImageLoader string := { load_image := fun p => OK p }.

(** ** Paths of the images *)

Definition root_dir : string := "/mydata/dataset/STHEREO".
Definition img_folder : string := "rgb_left".

Definition starts_with_slash (s : string) : bool :=
  match s with
  | String c _ => Ascii.eqb c "/"
  | EmptyString => false
  end.

Fixpoint ends_with_slash (s : string) : bool :=
  match s with
  | EmptyString => false
  | String c EmptyString => Ascii.eqb c "/"
  | String _ t => ends_with_slash t
  end.

(** [os.path.join] of two components (posixpath). *)
Definition join2 (path b : string) : string :=
  if starts_with_slash b then b
  else if orb (String.eqb path "") (ends_with_slash path) then (path ++ b)%string
  else (path ++ "/" ++ b)%string.

Definition join (a : string) (p : list string) : string := fold_left join2 p a.

(** [s.split(':')]. *)
Fixpoint split_colon (s : string) : list string :=
  match s with
  | EmptyString => [EmptyString]
  | String c t =>
      if Ascii.eqb c ":" then EmptyString :: split_colon t
      else match split_colon t with
           | [] => [String c EmptyString]
           | h :: r => String c h :: r
           end
  end.

(** [join(root_dir, img.split(':')[0], img_folder, img.split(':')[1]+'.png')]. *)
Definition image_path (img : string) : result string :=
  seqId <- py_index (split_colon img) 0 ;;
  frame <- py_index (split_colon img) 1 ;;
  OK (join root_dir [seqId; img_folder; (frame ++ ".png")%string]).

Section Datasets.

Context {F : Type} {SF : Scalar F}.
Context {V : Type} {MV : Metric V F}.
Context {Img : Type} {IL : ImageLoader Img}.

(** ** scikit-learn's [NearestNeighbors]

    A fitted estimator is the list of its training points.  The points
    are of a type [V] that stands for well-formed rows: finite numbers,
    all rows of one length.  On such rows input validation can refuse one
    thing only, an empty array of samples, on [fit] and on the queries,
    and this is the check the model keeps; what validation does with
    other data (a NaN or an infinity, ragged or one-dimensional rows,
    queries of another length than the training points) is outside the
    model, so that the model raises only where the library raises, and
    nothing below says that a library call on other data returns.
    [kneighbors] refuses [n_neighbors <= 0] and more neighbours than there
    are training points.  Neighbours at equal distance come here in the
    order of the training points; scikit-learn leaves that order open,
    and the results below use lengths, membership and the ascending order
    only. *)

Definition fit (X : list V) : result (list V) :=
  match X with
  | [] => Err ValueError
  | _ :: _ => OK X
  end.

(** Insertion in a list ranked by ascending distance, before the first
    entry that is not strictly nearer. *)
Fixpoint insert_ranked (p : F * Z) (l : list (F * Z)) : list (F * Z) :=
  match l with
  | [] => [p]
  | q :: t => if f_ltb (fst q) (fst p) then q :: insert_ranked p t else p :: l
  end.

(** The training points (distance, index) by ascending distance. *)
Definition rank_by_distance (ds : list F) : list (F * Z) :=
  fold_right insert_ranked [] (combine ds (arange (Z.of_nat (length ds)))).

(** [knn.kneighbors(q.reshape(1,-1), k)], reshaped to one row. *)
Definition kneighbors (knn : list V) (q : V) (k : Z) : result (list F * list Z) :=
  if k <=? 0 then Err ValueError
  else if Z.of_nat (length knn) <? k then Err ValueError
  else
    let ranked := firstn (Z.to_nat k) (rank_by_distance (map (dist q) knn)) in
    OK (map fst ranked, map snd ranked).

(** The neighbours of one query within [radius], as (distance, index). *)
Definition within_radius (knn : list V) (radius : F) (q : V) : list (F * Z) :=
  filter (fun p => f_leb (fst p) radius)
         (combine (map (dist q) knn) (arange (Z.of_nat (length knn)))).

(** [knn.radius_neighbors(Q, radius=radius)]: (distances, indices), one
    row per query. *)
Definition radius_neighbors (knn : list V) (Q : list V) (radius : F)
  : result (list (list F) * list (list Z)) :=
  match Q with
  | [] => Err ValueError
  | _ :: _ =>
      let rows := map (within_radius knn radius) Q in
      OK (map (map fst) rows, map (map snd) rows)
  end.

(** ** The manifest, as the data sets read it from [dbStruct] *)

Record Manifest : Type := {
  whichSet : string;
  dataset : string;
  dbImage : list string;
  qImage : list string;
  utmDb : list V;
  utmQ : list V;
  numDb : Z;
  numQ : Z;
  posDistThr : F;
  nonTrivPosDistSqThr : F
}.

(** The database indices within [posDistThr] of a coordinate. *)
Definition positive_neighborhood (m : Manifest) (coord : V) (i : Z) : Prop :=
  0 <= i /\
  exists p, nth_error (utmDb m) (Z.to_nat i) = Some p /\
            f_leb (dist coord p) (posDistThr m) = true.

(** ** [WholeDatasetFromJson] *)

Record WholeDataset : Type := {
  w_dbStruct : Manifest;
  images : list string;
  positives : option (list (list Z));
  distances : option (list (list F))
}.

Definition whole_init (m : Manifest) (onlyDB : bool) : result WholeDataset :=
  dbPaths <- mapM image_path (dbImage m) ;;
  qPaths <- (if onlyDB then OK [] else mapM image_path (qImage m)) ;;
  OK {| w_dbStruct := m;
        images := dbPaths ++ qPaths;
        positives := None;
        distances := None |}.

(** [getPositives]: the result, the data set afterwards, and the number
    of radius searches the call made. *)
Definition getPositives (self : WholeDataset)
  : result (list (list Z)) * WholeDataset * nat :=
  match positives self with
  | None =>
      match fit (utmDb (w_dbStruct self)) with
      | Err e => (Err e, self, 0%nat)
      | OK knn =>
          match radius_neighbors knn (utmQ (w_dbStruct self)) (posDistThr (w_dbStruct self)) with
          | Err e => (Err e, self, 1%nat)
          | OK (ds, ps) =>
              (OK ps,
               {| w_dbStruct := w_dbStruct self;
                  images := images self;
                  positives := Some ps;
                  distances := Some ds |},
               1%nat)
          end
      end
  | Some ps => (OK ps, self, 0%nat)
  end.

(** ** [QueryDatasetFromJson] *)

Record QueryDataset : Type := {
  margin : F;
  dbStruct : Manifest;
  nNegSample : Z;
  nNeg : Z;
  nontrivial_positives : list (list Z);
  queries : list Z;
  potential_negatives : list (list Z);
  cache : option (list V);
  negCache : list (list Z)
}.

Definition query_init (m : Manifest) (nNegSample nNeg : Z) (margin : F)
  : result QueryDataset :=
  knn <- fit (utmDb m) ;;
  ' (_, ntp) <- radius_neighbors knn (utmQ m) (f_pow_half (nonTrivPosDistSqThr m)) ;;
  let ntp := map np_sort ntp in
  let queries := np_where (map (fun x => (0 <? length x)%nat) ntp) in
  ' (_, potential_positives) <- radius_neighbors knn (utmQ m) (posDistThr m) ;;
  let potential_negatives :=
    map (fun pos => setdiff1d (arange (numDb m)) pos) potential_positives in
  OK {| margin := margin;
        dbStruct := m;
        nNegSample := nNegSample;
        nNeg := nNeg;
        nontrivial_positives := ntp;
        queries := queries;
        potential_negatives := potential_negatives;
        cache := None;
        negCache := map (fun _ => []) (arange (numQ m)) |}.


(** *** The feature cache

    The ["features"] table of the HDF5 file: one embedding per row,
    database rows first, then query rows. *)

(** [h5feat[i]]. *)
Definition h5_row (h5feat : list V) (i : Z) : result V := py_index h5feat i.

Fixpoint increasing (l : list Z) : bool :=
  match l with
  | [] => true
  | x :: t =>
      match t with
      | [] => true
      | y :: _ => (x <? y) && increasing t
      end
  end.

(** [h5feat[idx]] for a list of row numbers, which h5py wants in
    increasing order. *)
Definition h5_rows (h5feat : list V) (idx : list Z) : result (list V) :=
  if increasing idx then mapM (h5_row h5feat) idx else Err TypeError.

(** [np.random.choice(a, size)]: [size] draws with replacement, the
    [i]-th one picked by the [i]-th number of the stream. *)
Definition random_choice (a : list Z) (size : Z) (rnd : nat -> nat) : result (list Z) :=
  if size <? 0 then Err ValueError
  else match a with
       | [] => if size =? 0 then OK [] else Err ValueError
       | x :: _ =>
           OK (map (fun i => nth (Nat.modulo (rnd i) (length a)) a x)
                   (seq 0 (Z.to_nat size)))
       end.

(** [__getitem__] up to the ranking of the candidates (lines 199-223). *)
Record Ranking : Type := {
  rk_index : Z;
  rk_dPos : F;
  rk_posIndex : Z;
  rk_negSample : list Z;
  rk_dNeg : list F;
  rk_negNN : list Z
}.

Definition rank_candidates (self : QueryDataset) (index : Z) (rnd : nat -> nat)
  : result Ranking :=
  index <- py_index (queries self) index ;;
  h5feat <- of_option OSError (cache self) ;;
  let qOffset := numDb (dbStruct self) in
  qFeat <- h5_row h5feat (index + qOffset) ;;
  ntp <- py_index (nontrivial_positives self) index ;;
  posFeat <- h5_rows h5feat ntp ;;
  knn <- fit posFeat ;;
  ' (dPos, posNN) <- kneighbors knn qFeat 1 ;;
  dPos <- py_index dPos 0 ;;
  posNN0 <- py_index posNN 0 ;;
  posIndex <- py_index ntp posNN0 ;;
  pn <- py_index (potential_negatives self) index ;;
  negSample <- random_choice pn (nNegSample self) rnd ;;
  prev <- py_index (negCache self) index ;;
  let negSample := np_unique (prev ++ negSample) in
  negFeat <- h5_rows h5feat negSample ;;
  knn <- fit negFeat ;;
  ' (dNeg, negNN) <- kneighbors knn qFeat (nNeg self * 10) ;;
  OK {| rk_index := index;
        rk_dPos := dPos;
        rk_posIndex := posIndex;
        rk_negSample := negSample;
        rk_dNeg := dNeg;
        rk_negNN := negNN |}.

(** [dNeg < dPos + self.margin**0.5] (line 226). *)
Definition violatingNeg (self : QueryDataset) (rk : Ranking) : list bool :=
  map (fun d => f_ltb d (f_add (rk_dPos rk) (f_pow_half (margin self)))) (rk_dNeg rk).

(** [self.cache = ...], set by the training loop once the embeddings
    are written. *)
Definition set_cache (self : QueryDataset) (c : option (list V)) : QueryDataset :=
  {| margin := margin self;
     dbStruct := dbStruct self;
     nNegSample := nNegSample self;
     nNeg := nNeg self;
     nontrivial_positives := nontrivial_positives self;
     queries := queries self;
     potential_negatives := potential_negatives self;
     cache := c;
     negCache := negCache self |}.

(** The same data set built with another margin. *)
Definition set_margin (self : QueryDataset) (m : F) : QueryDataset :=
  {| margin := m;
     dbStruct := dbStruct self;
     nNegSample := nNegSample self;
     nNeg := nNeg self;
     nontrivial_positives := nontrivial_positives self;
     queries := queries self;
     potential_negatives := potential_negatives self;
     cache := cache self;
     negCache := negCache self |}.

(** The element type of [negSample] (line 214).  [negCache[index]] is the
    empty float array of [__init__] until a selection is stored there, an
    int32 array that is never empty; [np.concatenate] with the draws, which
    are int64, gives float64 in the first case and int64 in the second.
    Either type holds the indices below [2^53] as they are. *)
Definition negSample_dtype (self : QueryDataset) (rk : Ranking) : dtype :=
  match py_index (negCache self) (rk_index rk) with
  | OK (_ :: _) => int64
  | _ => float64
  end.

(** Lines 232-233: the rows of the ranking that violate, then their
    database indices. *)
Definition select_negatives (self : QueryDataset) (rk : Ranking) : result (list Z) :=
  negNN <- mask_index (rk_negNN rk) (violatingNeg self rk) ;;
  let negNN := py_take negNN (nNeg self) in
  negIndices <- take_indices (rk_negSample rk) negNN ;;
  OK (map (astype_int32 (negSample_dtype self rk)) negIndices).

Definition set_negCache (self : QueryDataset) (nc : list (list Z)) : QueryDataset :=
  {| margin := margin self;
     dbStruct := dbStruct self;
     nNegSample := nNegSample self;
     nNeg := nNeg self;
     nontrivial_positives := nontrivial_positives self;
     queries := queries self;
     potential_negatives := potential_negatives self;
     cache := cache self;
     negCache := nc |}.

(** [Image.open(join(root_dir, ...))] and the transform, for one image
    identifier. *)
Definition open_image (img : string) : result Img :=
  path <- image_path img ;;
  load_image path.

(** [torch.stack(negatives, 0)] wants at least one tensor. *)
Definition torch_stack (negatives : list Img) : result (list Img) :=
  match negatives with
  | [] => Err ValueError
  | _ :: _ => OK negatives
  end.

Definition MinedTuple : Type := (Img * Img * list Img * list Z)%type.

(** Lines 236-255. *)
Definition load_example (self : QueryDataset) (index posIndex : Z) (negIndices : list Z)
  : result MinedTuple :=
  query_img <- py_index (qImage (dbStruct self)) index ;;
  query <- open_image query_img ;;
  pos_img <- py_index (dbImage (dbStruct self)) posIndex ;;
  positive <- open_image pos_img ;;
  negatives <- mapM (fun negIndex =>
                       neg_img <- py_index (dbImage (dbStruct self)) negIndex ;;
                       open_image neg_img) negIndices ;;
  negatives <- torch_stack negatives ;;
  OK (query, positive, negatives, index :: posIndex :: negIndices).

(** [QueryDatasetFromJson.__getitem__]: what the call returns ([None] is
    the skip) or raises, and the data set afterwards. *)
Definition getitem (self : QueryDataset) (index : Z) (rnd : nat -> nat)
  : result (option MinedTuple) * QueryDataset :=
  match rank_candidates self index rnd with
  | Err e => (Err e, self)
  | OK rk =>
      if np_sum (violatingNeg self rk) <? 1 then (OK None, self)
      else
        match select_negatives self rk with
        | Err e => (Err e, self)
        | OK negIndices =>
            match py_setitem (negCache self) (rk_index rk) negIndices with
            | Err e => (Err e, self)
            | OK nc =>
                let self' := set_negCache self nc in
                (x <- load_example self' (rk_index rk) (rk_posIndex rk) negIndices ;;
                 OK (Some x), self')
            end
        end
  end.

(** [__len__]. *)
Definition query_len (self : QueryDataset) : Z := Z.of_nat (length (queries self)).

End Datasets.

(** ** [JsonHandler] *)

Section Json.

Context {F : Type}.

(** A JSON document, as it stands in a file. *)
Inductive json : Type :=
| JNull
| JBool (b : bool)
| JInt (z : Z)
| JFloat (x : F)
| JStr (s : string)
| JArr (l : list json)
| JObj (members : list (string * json)).

(** The Python objects that go through the handler.  A named tuple
    carries its type name, field names and values; an array carries what
    its [tolist()] returns. *)
Inductive pyobj : Type :=
| PNone
| PBool (b : bool)
| PInt (z : Z)
| PFloat (x : F)
| PStr (s : string)
| PList (l : list pyobj)
| PDict (items : list (string * pyobj))
| PNamedTuple (typename : string) (fields : list string) (values : list pyobj)
| PNdarray (tolist : pyobj).

(** [d[k] = v] on a dict, which remembers the order of first insertion. *)
Fixpoint dict_set (d : list (string * pyobj)) (k : string) (v : pyobj)
  : list (string * pyobj) :=
  match d with
  | [] => [(k, v)]
  | (k', v') :: t =>
      if String.eqb k k' then (k, v) :: t else (k', v') :: dict_set t k v
  end.

Definition dict_of_items (items : list (string * pyobj)) : list (string * pyobj) :=
  fold_left (fun d kv => dict_set d (fst kv) (snd kv)) items [].

(** [json.load]: objects become dicts, arrays become lists. *)
Fixpoint json_load (j : json) : pyobj :=
  match j with
  | JNull => PNone
  | JBool b => PBool b
  | JInt z => PInt z
  | JFloat x => PFloat x
  | JStr s => PStr s
  | JArr l => PList (map json_load l)
  | JObj ms => PDict (dict_of_items (map (fun kv => (fst kv, json_load (snd kv))) ms))
  end.

(** [json.dump(obj, f, cls=NumpyArrayEncoder)]: lists and tuples (named
    ones too) are written as arrays, dicts as objects, and an
    [np.ndarray] goes through [default], which returns [obj.tolist()]. *)
Fixpoint json_dump (o : pyobj) : result json :=
  match o with
  | PNone => OK JNull
  | PBool b => OK (JBool b)
  | PInt z => OK (JInt z)
  | PFloat x => OK (JFloat x)
  | PStr s => OK (JStr s)
  | PList l => l' <- mapM json_dump l ;; OK (JArr l')
  | PNamedTuple _ _ values => l' <- mapM json_dump values ;; OK (JArr l')
  | PDict items =>
      ms <- mapM (fun kv => v <- json_dump (snd kv) ;; OK (fst kv, v)) items ;;
      OK (JObj ms)
  | PNdarray tolist => json_dump tolist
  end.

(** The files: a path holds a JSON document or nothing readable. *)
Definition filesystem : Type := string -> option json.

Definition write_file (fs : filesystem) (path : string) (doc : json) : filesystem :=
  fun p => if String.eqb p path then Some doc else fs p.

(** [JsonHandler.serialize(input, dst_path)]. *)
Definition serialize (input : pyobj) (dst_path : string) (fs : filesystem)
  : result filesystem :=
  doc <- json_dump input ;;
  OK (write_file fs dst_path doc).

Definition is_letter (c : ascii) : bool :=
  let n := nat_of_ascii c in
  (Nat.leb 65 n && Nat.leb n 90) || (Nat.leb 97 n && Nat.leb n 122).

Definition is_digit (c : ascii) : bool :=
  let n := nat_of_ascii c in Nat.leb 48 n && Nat.leb n 57.

Definition is_underscore (c : ascii) : bool := Ascii.eqb c "_".

Fixpoint all_chars (p : ascii -> bool) (s : string) : bool :=
  match s with
  | EmptyString => true
  | String c t => p c && all_chars p t
  end.

(** The names written in ASCII, on which [isidentifier] below is
    Python's. *)
Definition ascii_name (s : string) : bool :=
  all_chars (fun c => Nat.ltb (nat_of_ascii c) 128) s.

(** [s.isidentifier()], on ASCII names. *)
Definition isidentifier (s : string) : bool :=
  match s with
  | EmptyString => false
  | String c t =>
      (is_letter c || is_underscore c)
      && all_chars (fun c => is_letter c || is_digit c || is_underscore c) t
  end.

Definition kwlist : list string :=
  ["False"; "None"; "True"; "and"; "as"; "assert"; "async"; "await"; "break";
   "class"; "continue"; "def"; "del"; "elif"; "else"; "except"; "finally";
   "for"; "from"; "global"; "if"; "import"; "in"; "is"; "lambda"; "nonlocal";
   "not"; "or"; "pass"; "raise"; "return"; "try"; "while"; "with"; "yield"]%string.

Definition iskeyword (s : string) : bool := existsb (String.eqb s) kwlist.

Definition starts_with_underscore (s : string) : bool :=
  match s with
  | String c _ => is_underscore c
  | EmptyString => false
  end.

Fixpoint has_duplicate (l : list string) : bool :=
  match l with
  | [] => false
  | x :: t => existsb (String.eqb x) t || has_duplicate t
  end.

(** [namedtuple(typename, field_names)] applied to the values: the names must be
    identifiers and no keywords, the field names distinct and not
    starting with an underscore; the constructor wants one value per
    field. *)
Definition namedtuple (typename : string) (field_names : list string)
  (values : list pyobj) : result pyobj :=
  if negb (forallb (fun n => isidentifier n && negb (iskeyword n)) (typename :: field_names))
  then Err ValueError
  else if existsb starts_with_underscore field_names || has_duplicate field_names
  then Err ValueError
  else if Nat.eqb (length values) (length field_names)
  then OK (PNamedTuple typename field_names values)
  else Err TypeError.

(** [JsonHandler.deserialize(json_file, name)]. *)
Definition deserialize (fs : filesystem) (json_file : string) (name : string)
  : result pyobj :=
  doc <- of_option OSError (fs json_file) ;;
  match json_load doc with
  | PDict data => namedtuple name (map fst data) (map snd data)
  | _ => Err AttributeError
  end.

Fixpoint assoc {A : Type} (k : string) (l : list (string * A)) : option A :=
  match l with
  | [] => None
  | (k', v) :: t => if String.eqb k k' then Some v else assoc k t
  end.

(** What reading an attribute gives: the value of a field, or one of the
    two methods every tuple has. *)
Inductive attribute : Type :=
| Field (value : pyobj)
| TupleMethod (name : string).

(** [count] and [index], the attributes of a tuple whose names do not
    start with an underscore. *)
Definition tuple_method (name : string) : bool :=
  String.eqb name "count" || String.eqb name "index".

(** [record.name] on the record a manifest is loaded into, for a name
    written in ASCII without a leading underscore: a field first, as the
    class puts its fields before what it inherits from [tuple]; then
    [count] and [index]; any other name raises.  The names with a leading
    underscore are those of the machinery of [namedtuple] and [object]
    ([_fields], [_asdict], [__class__], ...): none is a field, the module
    reads none of them, and they are left out here ([None]), as are the
    names beyond ASCII and the attributes of the other objects. *)
Definition getattr (o : pyobj) (name : string) : option (result attribute) :=
  match o with
  | PNamedTuple _ fields values =>
      if starts_with_underscore name || negb (ascii_name name) then None
      else match assoc name (combine fields values) with
           | Some v => Some (OK (Field v))
           | None =>
               if tuple_method name then Some (OK (TupleMethod name))
               else Some (Err AttributeError)
           end
  | _ => None
  end.

(** [record._asdict()]. *)
Definition asdict (o : pyobj) : result pyobj :=
  match o with
  | PNamedTuple _ fields values => OK (PDict (combine fields values))
  | _ => Err AttributeError
  end.

(** The member of a JSON object under a key. *)
Definition json_member (doc : json) (k : string) : option json :=
  match doc with
  | JObj ms => assoc k ms
  | _ => None
  end.

(** Every object of the document has distinct keys. *)
Fixpoint unique_keys (j : json) : bool :=
  match j with
  | JArr l => forallb unique_keys l
  | JObj ms => negb (has_duplicate (map fst ms)) && forallb (fun kv => unique_keys (snd kv)) ms
  | _ => true
  end.

(** The fields the data sets read from a manifest. *)
Definition required_fields : list string :=
  ["whichSet"; "dataset"; "dbImage"; "qImage"; "utmDb"; "utmQ"; "numDb"; "numQ";
   "posDistThr"; "nonTrivPosDistSqThr"]%string.

(** The coordinate arrays and the distance thresholds. *)
Definition coordinate_fields : list string :=
  ["utmDb"; "utmQ"; "posDistThr"; "nonTrivPosDistSqThr"]%string.

End Json.

(** ** A small data set to run the model on

    Twelve database images and two queries on a line; the first query has
    one nontrivial positive, the second none. *)

Module Demo.

Local Open Scope string_scope.

Definition manifest : @Manifest Z Z := {|
  whichSet := "train";
  dataset := "sthereo";
  dbImage := ["s1:000"; "s1:001"; "s1:002"; "s1:003"; "s1:004"; "s1:005";
              "s1:006"; "s1:007"; "s1:008"; "s1:009"; "s1:010"; "s1:011"];
  qImage := ["s2:000"; "s2:001"];
  utmDb := [5; 200; 300; 400; 500; 600; 700; 800; 900; 1000; 1100; 1200];
  utmQ := [0; 5000];
  numDb := 12;
  numQ := 2;
  posDistThr := 100;
  nonTrivPosDistSqThr := 100
|}.

(** The embeddings: database rows 0-11, then the two query rows. *)
Definition features : list Z :=
  [10; 12; 13; 50; 60; 70; 80; 90; 100; 110; 120; 130; 0; 7].

Definition empty_dataset (margin : Z) : @QueryDataset Z Z :=
  {| margin := margin;
     dbStruct := manifest;
     nNegSample := 11;
     nNeg := 1;
     nontrivial_positives := [];
     queries := [];
     potential_negatives := [];
     cache := None;
     negCache := [] |}.

(** [QueryDatasetFromJson(..., nNegSample=11, nNeg=1, margin=margin)]. *)
Definition built (margin : Z) : @QueryDataset Z Z :=
  match query_init manifest 11 1 margin with
  | OK d => d
  | Err _ => empty_dataset margin
  end.

(** The same with its cache set. *)
Definition dataset_with (margin : Z) : @QueryDataset Z Z :=
  set_cache (built margin) (Some features).

(** Draws 0, 1, 2, ... *)
Definition draws : nat -> nat := fun i => i.

(** The ranking of the first query against these embeddings. *)
Definition ranking : @Ranking Z :=
  {| rk_index := 0;
     rk_dPos := 10;
     rk_posIndex := 0;
     rk_negSample := [1; 2; 3; 4; 5; 6; 7; 8; 9; 10; 11];
     rk_dNeg := [12; 13; 50; 60; 70; 80; 90; 100; 110; 120];
     rk_negNN := [0; 1; 2; 3; 4; 5; 6; 7; 8; 9] |}.

(** What mining the first query returns with margin 16, and the data set
    afterwards. *)
Definition mined : @MinedTuple string :=
  ("/mydata/dataset/STHEREO/s2/rgb_left/000.png",
   "/mydata/dataset/STHEREO/s1/rgb_left/000.png",
   ["/mydata/dataset/STHEREO/s1/rgb_left/001.png"],
   [0; 0; 1]).

Definition after_mining : @QueryDataset Z Z :=
  set_negCache (dataset_with 16) [[1]; []].

(** The scenario of three database images at distances 5, 200 and 500
    of the one query, with thresholds 100 and 100 (squared). *)
Definition scenario : @Manifest Z Z := {|
  whichSet := "train";
  dataset := "sthereo";
  dbImage := ["s1:000"; "s1:001"; "s1:002"];
  qImage := ["s2:000"];
  utmDb := [5; 200; 500];
  utmQ := [0];
  numDb := 3;
  numQ := 1;
  posDistThr := 100;
  nonTrivPosDistSqThr := 100
|}.

(** A manifest without database images. *)
Definition no_database : @Manifest Z Z := {|
  whichSet := "train";
  dataset := "sthereo";
  dbImage := [];
  qImage := ["s2:000"];
  utmDb := [];
  utmQ := [0];
  numDb := 0;
  numQ := 1;
  posDistThr := 100;
  nonTrivPosDistSqThr := 100
|}.

(** The same data set drawing three candidates only. *)
Definition starved : @QueryDataset Z Z :=
  match query_init manifest 3 1 16 with
  | OK d => set_cache d (Some features)
  | Err _ => empty_dataset 16
  end.

(** A manifest whose [numDb] is zero although it lists a coordinate. *)
Definition stale_count : @Manifest Z Z := {|
  whichSet := "train";
  dataset := "sthereo";
  dbImage := ["s1:000"];
  qImage := ["s2:000"];
  utmDb := [5];
  utmQ := [0];
  numDb := 0;
  numQ := 1;
  posDistThr := 100;
  nonTrivPosDistSqThr := 100
|}.

Definition whole : @WholeDataset Z Z :=
  {| w_dbStruct := manifest; images := []; positives := None; distances := None |}.

Definition whole_resolved : @WholeDataset Z Z :=
  {| w_dbStruct := manifest;
     images := [];
     positives := Some [[0]; []];
     distances := Some [[5]; []] |}.

(** A manifest file without coordinates, and one whose [numDb] disagrees
    with its coordinate array. *)
Definition doc_missing : @json Z :=
  JObj [("whichSet", JStr "train"); ("numDb", JInt 5)].

Definition doc_manifest : @json Z :=
  JObj [("whichSet", JStr "train"); ("dataset", JStr "sthereo");
        ("dbImage", JArr [JStr "s1:000"]); ("qImage", JArr [JStr "s2:000"]);
        ("utmDb", JArr [JArr [JInt 5; JInt 0]]);
        ("utmQ", JArr [JArr [JInt 0; JInt 0]]);
        ("numDb", JInt 1); ("numQ", JInt 1);
        ("posDistThr", JInt 100); ("nonTrivPosDistSqThr", JInt 100)].

Definition doc_mismatch : @json Z :=
  JObj [("whichSet", JStr "train"); ("dataset", JStr "sthereo");
        ("dbImage", JArr [JStr "s1:000"]); ("qImage", JArr [JStr "s2:000"]);
        ("utmDb", JArr [JArr [JInt 5; JInt 0]]);
        ("utmQ", JArr [JArr [JInt 0; JInt 0]]);
        ("numDb", JInt 5); ("numQ", JInt 1);
        ("posDistThr", JInt 100); ("nonTrivPosDistSqThr", JInt 100)].

Definition disk (doc : @json Z) : @filesystem Z :=
  fun p => if String.eqb p "manifest.json" then Some doc else None.

End Demo.

(** ** The rest of the module *)

(** [json_dir] and the manifest of a data set, as the [get_*_set]
    functions look it up. *)
Definition json_dir : string := join root_dir ["config"%string].

Definition manifest_file (dataset : string) : string :=
  join json_dir [(dataset ++ "_query_db_info.json")%string].

(** [':' in s]. *)
Fixpoint has_colon (s : string) : bool :=
  match s with
  | EmptyString => false
  | String c t => Ascii.eqb c ":" || has_colon t
  end.

Section Plumbing.

Context {F : Type} {SF : Scalar F}.
Context {V : Type} {MV : Metric V F}.
Context {Img : Type} {IL : ImageLoader Img}.

(** [WholeDatasetFromJson.__getitem__]. *)
Definition whole_getitem (self : @WholeDataset F V) (index : Z) : result (Img * Z) :=
  path <- py_index (images self) index ;;
  img <- load_image path ;;
  OK (img, index).

(** [WholeDatasetFromJson.__len__]. *)
Definition whole_len (self : @WholeDataset F V) : Z := Z.of_nat (length (images self)).

(** A fresh [WholeDatasetFromJson] over a manifest whose image paths are
    [paths]. *)
Definition whole_of (m : @Manifest F V) (paths : list string) : @WholeDataset F V :=
  {| w_dbStruct := m; images := paths; positives := None; distances := None |}.

(** What [collate_fn] returns for a batch with an example in it: the
    queries, the positives, the negatives of all examples in one run,
    how many each example has, and all the indices in one run. *)
Definition Batch : Type := (list Img * list Img * list Img * list Z * list Z)%type.

(** [filter(lambda x: x is not None, batch)]. *)
Definition drop_none {A : Type} (batch : list (option A)) : list A :=
  flat_map (fun x => match x with Some t => [t] | None => [] end) batch.

(** [collate_fn]; [None] stands for the tuple of five [None]. *)
Definition collate_fn (batch : list (option (@MinedTuple Img))) : option Batch :=
  match drop_none batch with
  | [] => None
  | batch =>
      let query := map (fun t => fst (fst (fst t))) batch in
      let positive := map (fun t => snd (fst (fst t))) batch in
      let negatives := map (fun t => snd (fst t)) batch in
      let indices := map snd batch in
      let negCounts := map (fun x => Z.of_nat (length x)) negatives in
      Some (query, positive, concat negatives, negCounts, concat indices)
  end.

(** The negative cache holds potential negatives only: the active
    queries are positions, the potential negatives fit [np.int32], and
    every cached index of a query is one of its potential negatives. *)
Definition cache_within_negatives (self : @QueryDataset F V) : Prop :=
  Forall (fun q => 0 <= q) (queries self) /\
  (forall pn c, In pn (potential_negatives self) -> In c pn -> 0 <= c < 2 ^ 31) /\
  (forall q nc pn,
      nth_error (negCache self) q = Some nc ->
      nth_error (potential_negatives self) q = Some pn ->
      incl nc pn).

(** The data set after a run of [__getitem__] calls, each with the
    cache that is set at the time, its index and its draws. *)
Fixpoint mine_all (self : @QueryDataset F V)
  (calls : list (option (list V) * Z * (nat -> nat))) : @QueryDataset F V :=
  match calls with
  | [] => self
  | (c, index, rnd) :: rest =>
      mine_all (snd (getitem (Img:=Img) (set_cache self c) index rnd)) rest
  end.

End Plumbing.

Section Listify.

Context {F : Type}.

(** What [json.load] gives back for an object that [json.dump] wrote:
    arrays and tuples have become lists. *)
Fixpoint listify (o : @pyobj F) : @pyobj F :=
  match o with
  | PList l => PList (map listify l)
  | PDict items => PDict (map (fun kv => (fst kv, listify (snd kv))) items)
  | PNamedTuple _ _ values => PList (map listify values)
  | PNdarray tolist => listify tolist
  | _ => o
  end.

(** Every dict of the object has distinct keys, as a dict has. *)
Fixpoint distinct_keys (o : @pyobj F) : bool :=
  match o with
  | PList l => forallb distinct_keys l
  | PDict items =>
      negb (has_duplicate (map fst items))
      && forallb (fun kv => distinct_keys (snd kv)) items
  | PNamedTuple _ _ values => forallb distinct_keys values
  | PNdarray tolist => distinct_keys tolist
  | _ => true
  end.

(** The names [namedtuple] accepts for a record of type [typename]. *)
Definition names_accepted (typename : string) (field_names : list string) : bool :=
  forallb (fun n => isidentifier n && negb (iskeyword n)) (typename :: field_names)
  && negb (existsb starts_with_underscore field_names).

End Listify.

(** More data to run the model on. *)
Module Trial.

Local Open Scope string_scope.

(** A loader whose files cannot be opened. *)
Definition no_images : ImageLoader string := {| load_image := fun _ => Err OSError |}.

(** A manifest whose nontrivial radius (30) exceeds [posDistThr] (10): the
    database image at distance 20 is a nontrivial positive and a
    potential negative. *)
Definition wide_nontrivial : @Manifest Z Z := {|
  whichSet := "train";
  dataset := "sthereo";
  dbImage := ["s1:000"; "s1:001"];
  qImage := ["s2:000"];
  utmDb := [5; 20];
  utmQ := [0];
  numDb := 2;
  numQ := 1;
  posDistThr := 10;
  nonTrivPosDistSqThr := 900
|}.

(** A manifest whose query identifier has no colon. *)
Definition bad_identifier : @Manifest Z Z := {|
  whichSet := "train";
  dataset := "sthereo";
  dbImage := ["s1:000"];
  qImage := ["s2"];
  utmDb := [5];
  utmQ := [0];
  numDb := 1;
  numQ := 1;
  posDistThr := 100;
  nonTrivPosDistSqThr := 100
|}.

(** A query data set whose first active query has no nontrivial
    positive listed. *)
Definition inconsistent : @QueryDataset Z Z :=
  {| margin := 16;
     dbStruct := Demo.manifest;
     nNegSample := 11;
     nNeg := 1;
     nontrivial_positives := [[]; []];
     queries := [0];
     potential_negatives := [[1; 2; 3; 4; 5; 6; 7; 8; 9; 10; 11]; []];
     cache := Some Demo.features;
     negCache := [[]; []] |}.

(** A manifest dict with its coordinates in arrays. *)
Definition record : @pyobj Z :=
  PDict [("dbImage", PList [PStr "s1:000"]);
         ("utmDb", PNdarray (PList [PList [PInt 5; PInt 0]]));
         ("numDb", PInt 1)].

(** Manifest files: one that repeats a key, one with a keyword for a
    key, one that is a list. *)
Definition doc_repeated : @json Z :=
  JObj [("numDb", JInt 1); ("whichSet", JStr "train"); ("numDb", JInt 5)].

Definition doc_keyword : @json Z := JObj [("class", JStr "train")].

Definition doc_list : @json Z := JArr [JInt 1].

(** The run of one mining call on the first active query. *)
Definition one_call : list (option (list Z) * Z * (nat -> nat)) :=
  [(Some Demo.features, 0, Demo.draws)].

Definition two_examples : list (option (@MinedTuple string)) :=
  [Some ("q0", "p0", ["n0"; "n1"], [0; 3; 7; 8]);
   None;
   Some ("q1", "p1", ["n2"], [1; 4; 9])].

End Trial.

(** A data set mined with two negatives per query: twenty-four database
    images on a line and one query, whose only nontrivial positive is the
    first image.  Of the embeddings, those of images 5, 4 and 2 are the
    nearest to the query's among the potential negatives, in this
    order. *)
Module Pair.

Local Open Scope string_scope.

Definition manifest : @Manifest Z Z := {|
  whichSet := "train";
  dataset := "sthereo";
  dbImage := ["s1:000"; "s1:001"; "s1:002"; "s1:003"; "s1:004"; "s1:005";
              "s1:006"; "s1:007"; "s1:008"; "s1:009"; "s1:010"; "s1:011";
              "s1:012"; "s1:013"; "s1:014"; "s1:015"; "s1:016"; "s1:017";
              "s1:018"; "s1:019"; "s1:020"; "s1:021"; "s1:022"; "s1:023"];
  qImage := ["s2:000"];
  utmDb := [5; 200; 300; 400; 500; 600; 700; 800; 900; 1000; 1100; 1200;
            1300; 1400; 1500; 1600; 1700; 1800; 1900; 2000; 2100; 2200; 2300; 2400];
  utmQ := [0];
  numDb := 24;
  numQ := 1;
  posDistThr := 100;
  nonTrivPosDistSqThr := 100
|}.

(** The embeddings: database rows 0-23, then the query row. *)
Definition features : list Z :=
  [10; 50; 13; 60; 12; 11; 70; 80; 90; 100; 110; 120; 130; 140; 150; 160;
   170; 180; 190; 200; 210; 220; 230; 240; 0].

(** [QueryDatasetFromJson(..., nNegSample=23, nNeg=2, margin=16)]. *)
Definition built : @QueryDataset Z Z :=
  match query_init manifest 23 2 16 with
  | OK d => d
  | Err _ => Demo.empty_dataset 16
  end.

(** The same with its cache set. *)
Definition dataset : @QueryDataset Z Z := set_cache built (Some features).

(** The ranking of the query against these embeddings: twenty rows. *)
Definition ranking : @Ranking Z :=
  {| rk_index := 0;
     rk_dPos := 10;
     rk_posIndex := 0;
     rk_negSample := [1; 2; 3; 4; 5; 6; 7; 8; 9; 10; 11; 12; 13; 14; 15; 16;
                      17; 18; 19; 20; 21; 22; 23];
     rk_dNeg := [11; 12; 13; 50; 60; 70; 80; 90; 100; 110; 120; 130; 140; 150;
                 160; 170; 180; 190; 200; 210];
     rk_negNN := [4; 3; 1; 0; 2; 5; 6; 7; 8; 9; 10; 11; 12; 13; 14; 15; 16;
                  17; 18; 19] |}.

(** What mining the query returns, and the data set afterwards. *)
Definition mined : @MinedTuple string :=
  ("/mydata/dataset/STHEREO/s2/rgb_left/000.png",
   "/mydata/dataset/STHEREO/s1/rgb_left/000.png",
   ["/mydata/dataset/STHEREO/s1/rgb_left/005.png";
    "/mydata/dataset/STHEREO/s1/rgb_left/004.png"],
   [0; 0; 5; 4]).

Definition after_mining : @QueryDataset Z Z := set_negCache dataset [[5; 4]].

(** The embeddings of the potential negatives, images 1-23. *)
Definition negFeat : list Z := firstn 23 (tl features).

(** The run of one mining call on the query. *)
Definition one_call : list (option (list Z) * Z * (nat -> nat)) :=
  [(Some features, 0, Demo.draws)].

End Pair.

(** * Properties *)

(** ** The error monad *)

Lemma bind_OK {A B : Type} (r : result A) (k : A -> result B) (b : B) :
  bind r k = OK b -> exists a, r = OK a /\ k a = OK b.
Proof.
  destruct r as [a|e]; simpl; intros Hk; [eauto | discriminate].
Qed.

Lemma raises_bind_l {A B : Type} (r : result A) (k : A -> result B) :
  raises r -> raises (bind r k).
Proof.
  intros [e ->]. exists e. reflexivity.
Qed.

Lemma OK_or_raises {A : Type} (r : result A) : (exists a, r = OK a) \/ raises r.
Proof.
  destruct r as [a|e]; [left; eauto | right; exists e; reflexivity].
Qed.

(** Inversion of a successful chain of binds, one step at a time. *)
Ltac inv_bind H :=
  let a := fresh "a" in
  let Ha := fresh "Ha" in
  apply bind_OK in H; destruct H as (a & Ha & H).

Lemma mapM_length {A B : Type} (f : A -> result B) (l : list A) (l' : list B) :
  mapM f l = OK l' -> length l' = length l.
Proof.
  revert l'. induction l as [|a t IH]; simpl; intros l' H.
  - inversion H. reflexivity.
  - inv_bind H. inv_bind H. inversion H; subst. simpl. f_equal. eauto.
Qed.

Lemma mapM_Forall2 {A B : Type} (f : A -> result B) (l : list A) (l' : list B) :
  mapM f l = OK l' -> Forall2 (fun a b => f a = OK b) l l'.
Proof.
  revert l'. induction l as [|a t IH]; simpl; intros l' H.
  - inversion H. constructor.
  - inv_bind H. inv_bind H. inversion H; subst. constructor; eauto.
Qed.

Lemma mapM_pure {A B : Type} (f : A -> result B) (g : A -> B) (l : list A) :
  (forall a, In a l -> f a = OK (g a)) -> mapM f l = OK (map g l).
Proof.
  induction l as [|a t IH]; simpl; intros H; [reflexivity|].
  rewrite (H a (or_introl eq_refl)). simpl. rewrite IH by auto. reflexivity.
Qed.

(** ** Python sequences *)

Lemma py_pos_lt (n : nat) (i : Z) (k : nat) : py_pos n i = Some k -> (k < n)%nat.
Proof.
  unfold py_pos. intros H.
  destruct ((0 <=? i) && (i <? Z.of_nat n)) eqn:E1.
  - inversion H; subst. apply andb_prop in E1. lia.
  - destruct ((- Z.of_nat n <=? i) && (i <? 0)) eqn:E2; [|discriminate].
    inversion H; subst. apply andb_prop in E2. lia.
Qed.

Lemma nth_error_list_set_same {A : Type} (l : list A) (k : nat) (x : A) :
  (k < length l)%nat -> nth_error (list_set l k x) k = Some x.
Proof.
  revert k. induction l as [|a t IH]; intros [|k]; simpl; intros H; try lia; auto.
  apply IH. lia.
Qed.

Lemma nth_error_list_set_other {A : Type} (l : list A) (k j : nat) (x : A) :
  j <> k -> nth_error (list_set l k x) j = nth_error l j.
Proof.
  revert k j. induction l as [|a t IH]; intros [|k] [|j]; simpl; intros H;
    try reflexivity; try congruence.
  apply IH. congruence.
Qed.

Lemma length_list_set {A : Type} (l : list A) (k : nat) (x : A) :
  length (list_set l k x) = length l.
Proof.
  revert k. induction l as [|a t IH]; intros [|k]; simpl; auto.
Qed.

Lemma py_setitem_spec {A : Type} (l l' : list A) (i : Z) (x : A) :
  py_setitem l i x = OK l' ->
  exists k, py_pos (length l) i = Some k /\ (k < length l)%nat /\ l' = list_set l k x.
Proof.
  unfold py_setitem. destruct (py_pos (length l) i) as [k|] eqn:E; [|discriminate].
  intros H. inversion H; subst. exists k. split; [reflexivity|]. split; [|reflexivity].
  eapply py_pos_lt; eauto.
Qed.

Lemma py_setitem_index {A : Type} (l l' : list A) (i : Z) (x : A) :
  py_setitem l i x = OK l' -> py_index l' i = OK x.
Proof.
  intros H. apply py_setitem_spec in H. destruct H as (k & Hk & Hlt & ->).
  unfold py_index. rewrite length_list_set, Hk, nth_error_list_set_same by assumption.
  reflexivity.
Qed.

Lemma py_index_In {A : Type} (l : list A) (i : Z) (x : A) :
  py_index l i = OK x -> In x l.
Proof.
  unfold py_index. destruct (py_pos (length l) i) as [k|]; [|discriminate].
  destruct (nth_error l k) eqn:E; simpl; [|discriminate].
  intros H. inversion H; subst. eapply nth_error_In; eauto.
Qed.

Lemma In_arange (n x : Z) : In x (arange n) <-> 0 <= x < n.
Proof.
  unfold arange. rewrite in_map_iff. split.
  - intros (k & <- & Hk). apply in_seq in Hk. lia.
  - intros H. exists (Z.to_nat x). split; [lia|]. apply in_seq. lia.
Qed.

Lemma length_arange (n : Z) : length (arange n) = Z.to_nat n.
Proof.
  unfold arange. rewrite length_map, length_seq. reflexivity.
Qed.

Lemma arange_sorted_from (s k : nat) :
  StronglySorted Z.lt (map Z.of_nat (seq s k)).
Proof.
  revert s. induction k as [|k IH]; intros s; simpl; constructor; [apply IH|].
  apply Forall_forall. intros x Hx. apply in_map_iff in Hx.
  destruct Hx as (j & <- & Hj). apply in_seq in Hj. lia.
Qed.

Lemma arange_sorted (n : Z) : StronglySorted Z.lt (arange n).
Proof.
  apply arange_sorted_from.
Qed.

Lemma StronglySorted_filter {A : Type} (R : A -> A -> Prop) (f : A -> bool) (l : list A) :
  StronglySorted R l -> StronglySorted R (filter f l).
Proof.
  induction 1 as [|a t Hs IH Hall]; simpl; [constructor|].
  destruct (f a); [|assumption].
  constructor; [assumption|].
  apply Forall_forall. intros x Hx. apply filter_In in Hx.
  rewrite Forall_forall in Hall. apply Hall. tauto.
Qed.

Lemma In_firstn {A : Type} (n : nat) (l : list A) (x : A) :
  In x (firstn n l) -> In x l.
Proof.
  revert l. induction n as [|n IH]; intros [|a t]; simpl; try tauto.
  intros [H|H]; auto.
Qed.

Lemma StronglySorted_firstn {A : Type} (R : A -> A -> Prop) (n : nat) (l : list A) :
  StronglySorted R l -> StronglySorted R (firstn n l).
Proof.
  intros H. revert n. induction H as [|a t Hs IH Hall]; intros [|n]; simpl;
    try constructor; auto.
  apply Forall_forall. intros x Hx. rewrite Forall_forall in Hall.
  apply Hall. eapply In_firstn; eauto.
Qed.

Lemma StronglySorted_map {A B : Type} (R : B -> B -> Prop) (f : A -> B) (l : list A) :
  StronglySorted (fun a b => R (f a) (f b)) l -> StronglySorted R (map f l).
Proof.
  induction 1 as [|a t Hs IH Hall]; simpl; constructor; auto.
  apply Forall_forall. intros y Hy. apply in_map_iff in Hy.
  destruct Hy as (x & <- & Hx). rewrite Forall_forall in Hall. auto.
Qed.

Lemma existsb_eqb_In (x : Z) (l : list Z) : existsb (Z.eqb x) l = true <-> In x l.
Proof.
  rewrite existsb_exists. split.
  - intros (y & Hy & E). apply Z.eqb_eq in E. subst. assumption.
  - intros H. exists x. split; [assumption | apply Z.eqb_refl].
Qed.

Lemma In_setdiff1d (ar1 ar2 : list Z) (x : Z) :
  In x (setdiff1d ar1 ar2) <-> In x ar1 /\ ~ In x ar2.
Proof.
  unfold setdiff1d. rewrite filter_In, negb_true_iff.
  split.
  - intros [H1 H2]. split; [assumption|]. intros Hin.
    apply existsb_eqb_In in Hin. congruence.
  - intros [H1 H2]. split; [assumption|].
    destruct (existsb (Z.eqb x) ar2) eqn:E; [|reflexivity].
    apply existsb_eqb_In in E. contradiction.
Qed.

Lemma In_combine_from {A : Type} (l : list A) (s : nat) (d : A) (i : Z) :
  In (d, i) (combine l (map Z.of_nat (seq s (length l)))) <->
  exists k, i = Z.of_nat (s + k) /\ nth_error l k = Some d.
Proof.
  revert s. induction l as [|a t IH]; intros s; simpl.
  - split; [tauto|]. intros ([|k] & _ & H); discriminate.
  - rewrite IH. split.
    + intros [H|(k & -> & Hk)].
      * inversion H; subst. exists 0%nat. split; [f_equal; lia | reflexivity].
      * exists (S k). split; [f_equal; lia | assumption].
    + intros ([|k] & -> & Hk); simpl in Hk.
      * left. inversion Hk. f_equal. f_equal. lia.
      * right. exists k. split; [f_equal; lia | assumption].
Qed.

Lemma In_combine_arange {A : Type} (l : list A) (d : A) (i : Z) :
  In (d, i) (combine l (arange (Z.of_nat (length l)))) <->
  0 <= i /\ nth_error l (Z.to_nat i) = Some d.
Proof.
  unfold arange. rewrite Nat2Z.id, In_combine_from. split.
  - intros (k & -> & Hk). simpl. rewrite Nat2Z.id. split; [lia | assumption].
  - intros [Hi Hd]. exists (Z.to_nat i). split; [simpl; lia | assumption].
Qed.

Lemma count_occ_map_le {A : Type} (f g : A -> bool) (l : list A) :
  (forall a, In a l -> f a = true -> g a = true) ->
  (count_occ bool_dec (map f l) true <= count_occ bool_dec (map g l) true)%nat.
Proof.
  induction l as [|a t IH]; simpl; intros H; [lia|].
  assert (IH' := IH (fun x Hx => H x (or_intror Hx))).
  destruct (f a) eqn:Ef.
  - rewrite (H a (or_introl eq_refl) Ef).
    destruct (bool_dec true true); [lia | congruence].
  - destruct (bool_dec false true); [discriminate|].
    destruct (bool_dec (g a) true); lia.
Qed.

Lemma np_sum_zero {A : Type} (f : A -> bool) (l : list A) :
  Forall (fun a => f a = false) l -> np_sum (map f l) = 0.
Proof.
  unfold np_sum. induction 1 as [|a t Ha Ht IH]; simpl; [reflexivity|].
  rewrite Ha. destruct (bool_dec false true); [discriminate | assumption].
Qed.

Lemma np_sum_positive {A : Type} (f : A -> bool) (l : list A) :
  (np_sum (map f l) <? 1) = false -> exists a, In a l /\ f a = true.
Proof.
  unfold np_sum. intros H. apply Z.ltb_ge in H.
  induction l as [|a t IH]; simpl in *; [lia|].
  destruct (f a) eqn:Ef.
  - exists a. auto.
  - destruct (bool_dec false true); [discriminate|].
    destruct (IH H) as (x & Hx & Hfx). exists x. auto.
Qed.

(** Boolean-mask indexing by a mask computed from a parallel array is a
    filter on the pairs. *)
Lemma mask_filter {A B : Type} (test : A -> bool) (ds : list A) (nn : list B) :
  map fst (filter snd (combine nn (map test ds))) =
  map snd (filter (fun p => test (fst p)) (combine ds nn)).
Proof.
  revert nn. induction ds as [|d ds IH]; intros [|n nn]; simpl; try reflexivity.
  destruct (test d); simpl; rewrite IH; reflexivity.
Qed.

Lemma mask_index_filter {A B : Type} (test : A -> bool) (ds : list A) (nn : list B) :
  length nn = length ds ->
  mask_index nn (map test ds) =
  OK (map snd (filter (fun p => test (fst p)) (combine ds nn))).
Proof.
  intros H. unfold mask_index. rewrite length_map, H, Nat.eqb_refl, mask_filter.
  reflexivity.
Qed.

(** ** scikit-learn's nearest neighbours *)

Section NeighborFacts.

Context {F : Type} {SF : Scalar F}.
Context {V : Type} {MV : Metric V F}.

Lemma length_insert_ranked (p : F * Z) (l : list (F * Z)) :
  length (insert_ranked p l) = S (length l).
Proof.
  induction l as [|q t IH]; simpl; [reflexivity|].
  destruct (f_ltb (fst q) (fst p)); simpl; auto.
Qed.

Lemma In_insert_ranked (p x : F * Z) (l : list (F * Z)) :
  In x (insert_ranked p l) <-> x = p \/ In x l.
Proof.
  induction l as [|q t IH]; simpl.
  - intuition auto.
  - destruct (f_ltb (fst q) (fst p)); simpl; rewrite ?IH; intuition auto.
Qed.

Lemma length_rank_by_distance (ds : list F) :
  length (rank_by_distance ds) = length ds.
Proof.
  unfold rank_by_distance.
  assert (H : forall l : list (F * Z), length (fold_right insert_ranked [] l) = length l).
  { induction l as [|p t IH]; simpl; [reflexivity|].
    rewrite length_insert_ranked, IH. reflexivity. }
  rewrite H, length_combine, length_arange, Nat2Z.id. apply Nat.min_id.
Qed.

Lemma kneighbors_OK (knn : list V) (q : V) (k : Z) (ds : list F) (nn : list Z) :
  kneighbors knn q k = OK (ds, nn) ->
  0 < k <= Z.of_nat (length knn) /\
  Z.of_nat (length ds) = k /\ Z.of_nat (length nn) = k.
Proof.
  unfold kneighbors. destruct (k <=? 0) eqn:E1; [discriminate|].
  destruct (Z.of_nat (length knn) <? k) eqn:E2; [discriminate|].
  intros H. inversion H; subst. clear H.
  apply Z.leb_gt in E1. apply Z.ltb_ge in E2.
  rewrite !length_map, length_firstn, length_rank_by_distance, length_map.
  lia.
Qed.

Lemma kneighbors_too_few (knn : list V) (q : V) (k : Z) :
  Z.of_nat (length knn) < k -> raises (kneighbors knn q k).
Proof.
  intros H. unfold kneighbors. exists ValueError.
  destruct (k <=? 0); [reflexivity|].
  apply Z.ltb_lt in H. rewrite H. reflexivity.
Qed.

Lemma fit_OK (X knn : list V) : fit X = OK knn -> knn = X.
Proof.
  destruct X; simpl; intros H; [discriminate | inversion H; reflexivity].
Qed.

Lemma radius_neighbors_OK (knn Q : list V) (radius : F) ds ps :
  radius_neighbors knn Q radius = OK (ds, ps) ->
  ps = map (fun q => map snd (within_radius knn radius q)) Q.
Proof.
  destruct Q; simpl; intros H; [discriminate|].
  inversion H. rewrite !map_map. reflexivity.
Qed.

Lemma In_within_radius (knn : list V) (radius : F) (q : V) (i : Z) :
  In i (map snd (within_radius knn radius q)) <->
  0 <= i /\ exists p, nth_error knn (Z.to_nat i) = Some p /\
                      f_leb (dist q p) radius = true.
Proof.
  unfold within_radius. rewrite in_map_iff. split.
  - intros ([d j] & Hj & Hin). simpl in Hj. subst j.
    apply filter_In in Hin. destruct Hin as [Hin Hle]. simpl in Hle.
    rewrite <- (length_map (dist q) knn) in Hin.
    apply In_combine_arange in Hin. destruct Hin as [Hi Hd].
    split; [assumption|].
    rewrite nth_error_map in Hd.
    destruct (nth_error knn (Z.to_nat i)) as [p|]; [|discriminate].
    exists p. split; [reflexivity|]. simpl in Hd. inversion Hd; subst. assumption.
  - intros (Hi & p & Hp & Hle). exists (dist q p, i). split; [reflexivity|].
    apply filter_In. split; [|assumption].
    rewrite <- (length_map (dist q) knn).
    apply In_combine_arange. split; [assumption|].
    rewrite nth_error_map, Hp. reflexivity.
Qed.

(** With the order laws the ranking is ascending. *)
Lemma rank_by_distance_sorted `{!ScalarLaws F} (ds : list F) :
  StronglySorted (fun p q : F * Z => f_leb (fst p) (fst q) = true) (rank_by_distance ds).
Proof.
  unfold rank_by_distance.
  induction (combine ds (arange (Z.of_nat (length ds)))) as [|p l IH]; simpl;
    [constructor|].
  revert IH. generalize (fold_right insert_ranked [] l). clear l.
  intros l Hl. induction Hl as [|q t Hs IH Hall]; simpl.
  - constructor; constructor.
  - destruct (f_ltb (fst q) (fst p)) eqn:E.
    + constructor; [assumption|].
      apply Forall_forall. intros x Hx. apply In_insert_ranked in Hx.
      destruct Hx as [->|Hx].
      * rewrite f_ltb_leb in E. apply negb_true_iff in E.
        destruct (f_leb_total (fst q) (fst p)); congruence.
      * rewrite Forall_forall in Hall. auto.
    + rewrite f_ltb_leb in E. apply negb_false_iff in E.
      constructor; [constructor; assumption|].
      constructor; [assumption|].
      apply Forall_forall. intros x Hx. rewrite Forall_forall in Hall.
      eapply f_leb_trans; eauto.
Qed.

Lemma kneighbors_sorted `{!ScalarLaws F} (knn : list V) (q : V) (k : Z) ds nn :
  kneighbors knn q k = OK (ds, nn) ->
  StronglySorted (fun a b => f_leb a b = true) ds.
Proof.
  unfold kneighbors. destruct (k <=? 0); [discriminate|].
  destruct (Z.of_nat (length knn) <? k); [discriminate|].
  intros H. inversion H; subst.
  apply StronglySorted_map, StronglySorted_firstn, rank_by_distance_sorted.
Qed.

Lemma In_rank_by_distance (ds : list F) (p : F * Z) :
  In p (rank_by_distance ds) <-> In p (combine ds (arange (Z.of_nat (length ds)))).
Proof.
  unfold rank_by_distance.
  induction (combine ds (arange (Z.of_nat (length ds)))) as [|x l IH]; simpl; [tauto|].
  rewrite In_insert_ranked, IH. intuition auto.
Qed.

(** Every row of a neighbour search is a training point with its
    distance to the query. *)
Lemma kneighbors_In (knn : list V) (q : V) (k : Z) ds nn (d : F) (i : Z) :
  kneighbors knn q k = OK (ds, nn) ->
  In (d, i) (combine ds nn) ->
  0 <= i /\ exists x, nth_error knn (Z.to_nat i) = Some x /\ d = dist q x.
Proof.
  unfold kneighbors. destruct (k <=? 0); [discriminate|].
  destruct (Z.of_nat (length knn) <? k); [discriminate|].
  intros H Hin. inversion H; subst; clear H.
  assert (Hp : In (d, i) (firstn (Z.to_nat k) (rank_by_distance (map (dist q) knn)))).
  { revert Hin. generalize (firstn (Z.to_nat k) (rank_by_distance (map (dist q) knn))).
    induction l as [|[d' i'] t IH]; simpl; [tauto|].
    intros [E|Hin]; [left; exact E | right; auto]. }
  apply In_firstn, In_rank_by_distance, In_combine_arange in Hp.
  destruct Hp as [Hi Hd]. split; [assumption|].
  rewrite nth_error_map in Hd.
  destruct (nth_error knn (Z.to_nat i)) as [x|]; [|discriminate].
  exists x. split; [reflexivity|]. inversion Hd. reflexivity.
Qed.

(** With the order laws, the first row is a nearest training point. *)
Lemma kneighbors_nearest `{!ScalarLaws F} (knn : list V) (q : V) (k : Z) d ds nn :
  kneighbors knn q k = OK (d :: ds, nn) ->
  forall x, In x knn -> f_leb d (dist q x) = true.
Proof.
  unfold kneighbors. destruct (k <=? 0); [discriminate|].
  destruct (Z.of_nat (length knn) <? k); [discriminate|].
  intros H x Hx. inversion H as [[Hd Hn]]; clear H Hn.
  pose proof (rank_by_distance_sorted (map (dist q) knn)) as Hs.
  apply In_nth_error in Hx. destruct Hx as (n & Hn).
  assert (Hin : In (dist q x, Z.of_nat n) (rank_by_distance (map (dist q) knn))).
  { apply In_rank_by_distance, In_combine_arange. split; [lia|].
    rewrite Nat2Z.id, nth_error_map, Hn. reflexivity. }
  destruct (rank_by_distance (map (dist q) knn)) as [|[d0 i0] t]; [contradiction|].
  destruct (Z.to_nat k); simpl in Hd; [discriminate|].
  inversion Hd; subst d0. inversion Hs as [|? ? _ Hall]; subst.
  destruct Hin as [E|Hin].
  - inversion E. destruct (f_leb_total (dist q x) (dist q x)); assumption.
  - rewrite Forall_forall in Hall. apply (Hall _ Hin).
Qed.

End NeighborFacts.

(** ** [np.unique] *)

Lemma In_insert_unique (x y : Z) (l : list Z) :
  In y (insert_unique x l) <-> y = x \/ In y l.
Proof.
  induction l as [|z t IH]; simpl.
  - intuition auto.
  - destruct (x <? z) eqn:E1; simpl; [intuition auto|].
    destruct (x =? z) eqn:E2; simpl.
    + apply Z.eqb_eq in E2. subst. intuition auto.
    + rewrite IH. intuition auto.
Qed.

Lemma insert_unique_sorted (x : Z) (l : list Z) :
  StronglySorted Z.lt l -> StronglySorted Z.lt (insert_unique x l).
Proof.
  induction 1 as [|z t Hs IH Hall]; simpl.
  - constructor; constructor.
  - destruct (x <? z) eqn:E1.
    + apply Z.ltb_lt in E1. constructor; [constructor; assumption|].
      constructor; [assumption|].
      rewrite Forall_forall in *. intros y Hy. specialize (Hall y Hy). lia.
    + destruct (x =? z) eqn:E2; [constructor; assumption|].
      apply Z.ltb_ge in E1. apply Z.eqb_neq in E2.
      constructor; [assumption|].
      rewrite Forall_forall in *. intros y Hy. apply In_insert_unique in Hy.
      destruct Hy as [->|Hy]; [lia | auto].
Qed.

Lemma In_np_unique (x : Z) (l : list Z) : In x (np_unique l) <-> In x l.
Proof.
  unfold np_unique. induction l as [|a t IH]; simpl; [tauto|].
  rewrite In_insert_unique, IH. intuition auto.
Qed.

Lemma np_unique_sorted (l : list Z) : StronglySorted Z.lt (np_unique l).
Proof.
  unfold np_unique. induction l as [|a t IH]; simpl; [constructor|].
  apply insert_unique_sorted, IH.
Qed.

Lemma sorted_lt_NoDup (l : list Z) : StronglySorted Z.lt l -> NoDup l.
Proof.
  induction 1 as [|z t Hs IH Hall]; constructor; [|assumption].
  intros Hin. rewrite Forall_forall in Hall. specialize (Hall z Hin). lia.
Qed.

(** The length of [np.unique(a)] is the number of distinct values of [a]. *)
Lemma length_np_unique (l : list Z) :
  length (np_unique l) = length (nodup Z.eq_dec l).
Proof.
  apply Permutation_length, NoDup_Permutation.
  - apply sorted_lt_NoDup, np_unique_sorted.
  - apply NoDup_nodup.
  - intros x. rewrite In_np_unique, nodup_In. tauto.
Qed.

(** ** The miner *)

Ltac inv_binds H :=
  repeat match type of H with
         | bind _ _ = OK _ => inv_bind H
         | (let (_, _) := ?p in _) = OK _ => destruct p
         end.

Ltac raise_step :=
  match goal with
  | |- raises (bind ?r _) =>
      let E := fresh "E" in
      destruct r eqn:E; simpl; [|eexists; reflexivity]
  | |- raises (let (_, _) := ?p in _) => destruct p
  end.

Section MinerFacts.

Context {F : Type} {SF : Scalar F}.
Context {V : Type} {MV : Metric V F}.
Context {Img : Type} {IL : ImageLoader Img}.

Local Abbreviation QueryDataset := (@QueryDataset F V).
Local Abbreviation Ranking := (@Ranking F).

Lemma h5_rows_length (h5feat : list V) (idx : list Z) (rows : list V) :
  h5_rows h5feat idx = OK rows -> length rows = length idx.
Proof.
  unfold h5_rows. destruct (increasing idx); [|discriminate]. apply mapM_length.
Qed.

(** What a successful ranking went through. *)
Lemma rank_candidates_OK (self : QueryDataset) (index : Z) (rnd : nat -> nat) (rk : Ranking) :
  rank_candidates self index rnd = OK rk ->
  py_index (queries self) index = OK (rk_index rk) /\
  (exists ntp, py_index (nontrivial_positives self) (rk_index rk) = OK ntp /\
               In (rk_posIndex rk) ntp) /\
  (exists pn sample prev,
      py_index (potential_negatives self) (rk_index rk) = OK pn /\
      random_choice pn (nNegSample self) rnd = OK sample /\
      py_index (negCache self) (rk_index rk) = OK prev /\
      rk_negSample rk = np_unique (prev ++ sample)) /\
  0 < nNeg self /\
  Z.of_nat (length (rk_dNeg rk)) = nNeg self * 10 /\
  Z.of_nat (length (rk_negNN rk)) = nNeg self * 10 /\
  nNeg self * 10 <= Z.of_nat (length (rk_negSample rk)) /\
  (ScalarLaws F -> StronglySorted (fun a b => f_leb a b = true) (rk_dNeg rk)).
Proof.
  intros H. unfold rank_candidates in H. inv_binds H.
  inversion H; subst; clear H; simpl.
  match goal with
  | Hk : kneighbors _ _ (nNeg self * 10) = OK _ |- _ =>
      pose proof (kneighbors_OK _ _ _ Hk) as (Hk1 & Hk2 & Hk3);
      pose proof (fun L : ScalarLaws F => kneighbors_sorted _ _ _ Hk) as Hsorted
  end.
  repeat match goal with
         | Hf : fit _ = OK _ |- _ => apply fit_OK in Hf; subst
         end.
  match goal with
  | Hr : h5_rows _ (np_unique _) = OK _ |- _ => apply h5_rows_length in Hr; rewrite Hr in Hk1
  end.
  repeat split; try assumption; try lia.
  - eexists. split; [eassumption|]. eapply py_index_In; eassumption.
  - do 3 eexists. repeat split; eassumption.
Qed.

(** The positive of a ranking is a nontrivial positive of the query whose
    embedding is, with the order laws, nearest to the query's. *)
Lemma best_positive (self : QueryDataset) (index : Z) (rnd : nat -> nat) (rk : Ranking) :
  rank_candidates self index rnd = OK rk ->
  exists (h5feat : list V) (qFeat : V) (ntp : list Z) (posFeat : list V) (j : Z) (p : V),
    cache self = Some h5feat /\
    h5_row h5feat (rk_index rk + numDb (dbStruct self)) = OK qFeat /\
    py_index (nontrivial_positives self) (rk_index rk) = OK ntp /\
    h5_rows h5feat ntp = OK posFeat /\
    py_index ntp j = OK (rk_posIndex rk) /\
    nth_error posFeat (Z.to_nat j) = Some p /\
    rk_dPos rk = dist qFeat p /\
    (ScalarLaws F ->
     forall p', In p' posFeat -> f_leb (rk_dPos rk) (dist qFeat p') = true).
Proof.
  intros H. unfold rank_candidates in H.
  apply bind_OK in H. destruct H as (q & Hq & H).
  apply bind_OK in H. destruct H as (h5feat & Hc & H).
  apply bind_OK in H. destruct H as (qFeat & HqF & H).
  apply bind_OK in H. destruct H as (ntp & Hntp & H).
  apply bind_OK in H. destruct H as (posFeat & HpF & H).
  apply bind_OK in H. destruct H as (knn & Hfit & H).
  apply bind_OK in H. destruct H as ([dPos posNN] & Hk & H).
  apply bind_OK in H. destruct H as (d & Hd & H).
  apply bind_OK in H. destruct H as (j & Hj & H).
  apply bind_OK in H. destruct H as (posIndex & Hpos & H).
  inv_binds H. inversion H; subst; clear H. simpl.
  apply fit_OK in Hfit. subst knn.
  destruct (cache self) as [c|]; [|discriminate]. inversion Hc; subst c.
  destruct (kneighbors_OK _ _ _ Hk) as (_ & Hld & Hln).
  destruct dPos as [|d0 [|? ?]]; simpl in Hld; try lia.
  destruct posNN as [|j0 [|? ?]]; simpl in Hln; try lia.
  unfold py_index in Hd, Hj. simpl in Hd, Hj. inversion Hd; inversion Hj; subst d0 j0.
  destruct (kneighbors_In _ _ _ d j Hk (or_introl eq_refl)) as (Hj0 & p & Hp & Hdp).
  exists h5feat, qFeat, ntp, posFeat, j, p.
  repeat split; try assumption; try reflexivity.
  intros L p' Hp'. eapply kneighbors_nearest; eauto.
Qed.

Lemma Forall2_nth_error_r {A B : Type} (R : A -> B -> Prop) (l : list A) (l' : list B)
  (n : nat) (b : B) :
  Forall2 R l l' -> nth_error l' n = Some b ->
  exists a, nth_error l n = Some a /\ R a b.
Proof.
  intros H. revert n. induction H as [|x y t t' Hxy Ht IH]; intros [|n]; simpl;
    try discriminate.
  - intros E. inversion E; subst. eauto.
  - apply IH.
Qed.

(** Every row [(d, nn)] of a ranking is the candidate [negSample[nn]], at
    the distance [d] of its embedding to the query's. *)
Lemma ranked_candidate (self : QueryDataset) (index : Z) (rnd : nat -> nat) (rk : Ranking) :
  rank_candidates self index rnd = OK rk ->
  exists (h5feat : list V) (qFeat : V),
    cache self = Some h5feat /\
    h5_row h5feat (rk_index rk + numDb (dbStruct self)) = OK qFeat /\
    forall d nn,
      In (d, nn) (combine (rk_dNeg rk) (rk_negNN rk)) ->
      exists (c : Z) (v : V),
        py_index (rk_negSample rk) nn = OK c /\
        h5_row h5feat c = OK v /\
        d = dist qFeat v.
Proof.
  intros H. pose proof (rank_candidates_OK _ _ _ H) as (_ & _ & _ & _ & _ & _ & Hlen & _).
  unfold rank_candidates in H.
  apply bind_OK in H. destruct H as (q & Hq & H).
  apply bind_OK in H. destruct H as (h5feat & Hc & H).
  apply bind_OK in H. destruct H as (qFeat & HqF & H).
  do 11 (first [ match type of H with
                 | (let (_, _) := ?p in _) = _ => destruct p
                 end
               | apply bind_OK in H; destruct H as (? & _ & H) ]).
  apply bind_OK in H. destruct H as (negFeat & HnF & H).
  apply bind_OK in H. destruct H as (knn & Hfit & H).
  apply bind_OK in H. destruct H as ([dNeg negNN] & Hk & H).
  inversion H; subst; clear H. simpl in *.
  apply fit_OK in Hfit. subst knn.
  destruct (cache self) as [c|]; [|discriminate]. inversion Hc; subst c.
  exists h5feat, qFeat. split; [reflexivity|]. split; [assumption|].
  intros d nn Hin.
  destruct (kneighbors_In _ _ _ _ _ Hk Hin) as (Hnn & v & Hv & Hd).
  unfold h5_rows in HnF.
  destruct (increasing _); [|discriminate].
  apply mapM_Forall2 in HnF.
  destruct (Forall2_nth_error_r _ HnF Hv) as (c & Hc' & Hrow).
  exists c, v. split; [|split; assumption].
  unfold py_index, py_pos.
  assert (Z.to_nat nn < length _)%nat by (apply nth_error_Some; rewrite Hc'; discriminate).
  replace ((0 <=? nn) && (nn <? Z.of_nat (length _))) with true
    by (symmetry; apply andb_true_intro; split; [apply Z.leb_le | apply Z.ltb_lt]; lia).
  rewrite Hc'. reflexivity.
Qed.

Lemma getitem_raises (self : QueryDataset) (index : Z) (rnd : nat -> nat) :
  raises (rank_candidates self index rnd) ->
  raises (fst (getitem (Img:=Img) self index rnd)).
Proof.
  intros [e He]. unfold getitem. rewrite He. exists e. reflexivity.
Qed.

Lemma starved_pool_raises (self : QueryDataset) (index : Z) (rnd : nat -> nat)
  (q : Z) (pn sample prev : list Z) :
  py_index (queries self) index = OK q ->
  py_index (potential_negatives self) q = OK pn ->
  random_choice pn (nNegSample self) rnd = OK sample ->
  py_index (negCache self) q = OK prev ->
  Z.of_nat (length (np_unique (prev ++ sample))) < nNeg self * 10 ->
  raises (rank_candidates self index rnd).
Proof.
  intros Hq Hpn Hs Hprev Hlt. unfold rank_candidates.
  rewrite Hq. simpl.
  do 10 raise_step.
  rewrite Hpn. simpl. rewrite Hs. simpl. rewrite Hprev. simpl.
  do 2 raise_step.
  apply raises_bind_l, kneighbors_too_few.
  match goal with
  | Hf : fit _ = OK _ |- _ => apply fit_OK in Hf; subst
  end.
  match goal with
  | Hr : h5_rows _ (np_unique _) = OK _ |- _ => apply h5_rows_length in Hr; rewrite Hr
  end.
  assumption.
Qed.


Lemma StronglySorted_combine_fst {A B : Type} (R : A -> A -> Prop)
  (l : list A) (l' : list B) :
  StronglySorted R l ->
  StronglySorted (fun p q => R (fst p) (fst q)) (combine l l').
Proof.
  intros H. revert l'. induction H as [|a t Hs IH Hall]; intros [|b l']; simpl;
    try constructor; auto.
  apply Forall_forall. intros [x y] Hxy. apply in_combine_l in Hxy.
  rewrite Forall_forall in Hall. simpl. auto.
Qed.

(** C2. When no ranked candidate passes the margin test, the call returns
    [None] without raising and leaves the data set, and with it the
    negative cache of the query, as it was. *)
Theorem no_violation_skips
  (self : QueryDataset) (index : Z) (rnd : nat -> nat) (rk : Ranking) :
  rank_candidates self index rnd = OK rk ->
  Forall (fun d => f_ltb d (f_add (rk_dPos rk) (f_pow_half (margin self))) = false)
         (rk_dNeg rk) ->
  getitem (Img:=Img) self index rnd = (OK None, self) /\
  py_index (negCache (snd (getitem (Img:=Img) self index rnd))) (rk_index rk) =
  py_index (negCache self) (rk_index rk).
Proof.
  intros Hrk Hnone.
  assert (E : getitem (Img:=Img) self index rnd = (OK None, self)).
  { unfold getitem. rewrite Hrk. unfold violatingNeg.
    rewrite np_sum_zero by assumption. reflexivity. }
  rewrite E. split; reflexivity.
Qed.

(** C3. A call that returns an example has overwritten the negative cache
    of the real query index [q = queries[index]] with the negatives it
    chose, touching no other entry and no other field, and returns the
    query image, the image of the best positive, the images of the
    negatives in order, and [[q, posIndex] + negIndices]. *)
Theorem mined_example_committed
  (self self' : QueryDataset) (index : Z) (rnd : nat -> nat) (ex : @MinedTuple Img) :
  getitem self index rnd = (OK (Some ex), self') ->
  exists (rk : Ranking) (negIndices : list Z) (k : nat)
         (query positive : Img) (negatives : list Img),
    rank_candidates self index rnd = OK rk /\
    py_index (queries self) index = OK (rk_index rk) /\
    select_negatives self rk = OK negIndices /\
    negIndices <> [] /\
    py_index (negCache self') (rk_index rk) = OK negIndices /\
    py_pos (length (negCache self)) (rk_index rk) = Some k /\
    (forall j, j <> k -> nth_error (negCache self') j = nth_error (negCache self) j) /\
    self' = set_negCache self (list_set (negCache self) k negIndices) /\
    (img <- py_index (qImage (dbStruct self)) (rk_index rk) ;; open_image img) = OK query /\
    (img <- py_index (dbImage (dbStruct self)) (rk_posIndex rk) ;; open_image img)
      = OK positive /\
    mapM (fun negIndex =>
            img <- py_index (dbImage (dbStruct self)) negIndex ;; open_image img)
         negIndices = OK negatives /\
    ex = (query, positive, negatives, rk_index rk :: rk_posIndex rk :: negIndices).
Proof.
  unfold getitem. intros H.
  destruct (rank_candidates self index rnd) as [rk|e] eqn:Hrk; [|discriminate].
  destruct (np_sum (violatingNeg self rk) <? 1) eqn:Hsum; [discriminate|].
  destruct (select_negatives self rk) as [negIndices|e] eqn:Hsel; [|discriminate].
  destruct (py_setitem (negCache self) (rk_index rk) negIndices) as [nc|e] eqn:Hset;
    [|discriminate].
  inversion H as [[Hex Hself]]. clear H.
  inv_bind Hex. inversion Hex; subst a; clear Hex.
  pose proof (py_setitem_index _ _ _ Hset) as Hidx.
  apply py_setitem_spec in Hset. destruct Hset as (k & Hk & Hlt & ->).
  unfold load_example in Ha. simpl in Ha.
  apply bind_OK in Ha. destruct Ha as (query_img & Hqi & Ha).
  apply bind_OK in Ha. destruct Ha as (query & Hquery & Ha).
  apply bind_OK in Ha. destruct Ha as (pos_img & Hpi & Ha).
  apply bind_OK in Ha. destruct Ha as (positive & Hpositive & Ha).
  apply bind_OK in Ha. destruct Ha as (negs & Hnegs & Ha).
  apply bind_OK in Ha. destruct Ha as (negatives & Hstack & Ha).
  inversion Ha; subst ex; clear Ha.
  assert (negatives = negs /\ negs <> []) as [-> Hne].
  { destruct negs; simpl in Hstack; [discriminate|].
    inversion Hstack. split; [reflexivity | discriminate]. }
  exists rk, negIndices, k, query, positive, negs.
  destruct (rank_candidates_OK _ _ _ Hrk) as (Hq & _).
  repeat split; try assumption; try reflexivity.
  - intros ->. simpl in Hnegs. inversion Hnegs. congruence.
  - intros j Hj. simpl. apply nth_error_list_set_other. assumption.
  - rewrite Hqi. simpl. assumption.
  - rewrite Hpi. simpl. assumption.
Qed.

(** C5. With the cache, the candidate sets, the negative cache and the
    draws fixed, the ranking does not depend on the margin, and a larger
    margin marks at least as many ranked candidates as violating. *)
Theorem margin_monotone `{!ScalarLaws F}
  (self : QueryDataset) (index : Z) (rnd : nat -> nat) (m1 m2 : F) (rk : Ranking) :
  f_leb m1 m2 = true ->
  rank_candidates (set_margin self m1) index rnd = OK rk ->
  rank_candidates (set_margin self m2) index rnd = OK rk /\
  np_sum (violatingNeg (set_margin self m1) rk)
    <= np_sum (violatingNeg (set_margin self m2) rk).
Proof.
  intros Hm Hrk. split; [exact Hrk|].
  unfold np_sum, violatingNeg. simpl. apply inj_le, count_occ_map_le.
  intros d _ Hd. rewrite f_ltb_leb in *. apply negb_true_iff in Hd.
  apply negb_true_iff.
  destruct (f_leb (f_add (rk_dPos rk) (f_pow_half m2)) d) eqn:E; [|reflexivity].
  rewrite <- Hd. symmetry.
  eapply f_leb_trans; [|exact E].
  apply f_add_mono_r, f_pow_half_mono, Hm.
Qed.

End MinerFacts.

(** ** The candidate sets and the memoised positives *)

Section CandidateFacts.

Context {F : Type} {SF : Scalar F}.
Context {V : Type} {MV : Metric V F}.

Local Abbreviation Manifest := (@Manifest F V).
Local Abbreviation QueryDataset := (@QueryDataset F V).
Local Abbreviation WholeDataset := (@WholeDataset F V).

(** The candidate sets a successful construction leaves. *)
Lemma query_init_OK (m : Manifest) (nNegSample nNeg : Z) (margin : F) (self : QueryDataset) :
  query_init m nNegSample nNeg margin = OK self ->
  utmDb m <> [] /\
  dbStruct self = m /\
  nontrivial_positives self =
    map (fun q => np_sort (map snd (within_radius (utmDb m)
                                      (f_pow_half (nonTrivPosDistSqThr m)) q))) (utmQ m) /\
  queries self = np_where (map (fun x => (0 <? length x)%nat) (nontrivial_positives self)) /\
  potential_negatives self =
    map (fun q => setdiff1d (arange (numDb m))
                    (map snd (within_radius (utmDb m) (posDistThr m) q))) (utmQ m).
Proof.
  intros H.
  assert (Hne : utmDb m <> []).
  { intros E. unfold query_init in H. rewrite E in H. discriminate. }
  unfold query_init in H. inv_binds H.
  inversion H; subst; clear H. simpl.
  repeat match goal with
         | Hf : fit _ = OK _ |- _ => apply fit_OK in Hf; subst
         | Hr : radius_neighbors _ _ _ = OK _ |- _ => apply radius_neighbors_OK in Hr; subst
         end.
  rewrite !map_map. repeat split; try reflexivity. assumption.
Qed.

(** C4. After construction, the potential negatives of every query are
    the indices of [[0, numDb)] outside the [posDistThr] neighbourhood of
    its coordinate, ascending and without repetition; they are disjoint
    from the neighbourhood and every index of [[0, numDb)] is in one of
    the two.  The neighbourhood lies in [[0, numDb)] as well when the
    manifest has [numDb] database coordinates, and the two then
    partition [[0, numDb)]. *)
Theorem potential_negatives_complement
  (m : Manifest) (nNegSample nNeg : Z) (margin : F) (self : QueryDataset) :
  query_init m nNegSample nNeg margin = OK self ->
  length (potential_negatives self) = length (utmQ m) /\
  forall (q : nat) (coord : V) (pn : list Z),
    nth_error (utmQ m) q = Some coord ->
    nth_error (potential_negatives self) q = Some pn ->
    StronglySorted Z.lt pn /\
    (forall i, In i pn <-> 0 <= i < numDb m /\ ~ positive_neighborhood m coord i) /\
    (forall i, ~ (In i pn /\ positive_neighborhood m coord i)) /\
    (forall i, 0 <= i < numDb m -> In i pn \/ positive_neighborhood m coord i) /\
    (Z.of_nat (length (utmDb m)) = numDb m ->
     forall i, 0 <= i < numDb m <-> In i pn \/ positive_neighborhood m coord i).
Proof.
  intros H. destruct (query_init_OK _ _ _ _ H) as (_ & _ & _ & _ & Hpn).
  rewrite Hpn. split; [apply length_map|].
  intros q coord pn Hc Hq. rewrite nth_error_map, Hc in Hq. simpl in Hq.
  inversion Hq; subst pn; clear Hq.
  assert (Hin : forall i,
             In i (setdiff1d (arange (numDb m))
                     (map snd (within_radius (utmDb m) (posDistThr m) coord))) <->
             0 <= i < numDb m /\ ~ positive_neighborhood m coord i).
  { intros i. rewrite In_setdiff1d, In_arange, In_within_radius. reflexivity. }
  assert (Hcover : forall i, 0 <= i < numDb m ->
             In i (setdiff1d (arange (numDb m))
                     (map snd (within_radius (utmDb m) (posDistThr m) coord))) \/
             positive_neighborhood m coord i).
  { intros i Hi. rewrite Hin.
    destruct (in_dec Z.eq_dec i
                (map snd (within_radius (utmDb m) (posDistThr m) coord))) as [Hy|Hn].
    - right. apply In_within_radius in Hy. exact Hy.
    - left. split; [assumption|]. intros Hy. apply Hn, In_within_radius. exact Hy. }
  split; [|split; [|split; [|split]]].
  - apply StronglySorted_filter, arange_sorted.
  - exact Hin.
  - intros i [H1 H2]. apply Hin in H1. tauto.
  - exact Hcover.
  - intros Hlen i. split; [apply Hcover|]. rewrite Hin.
    intros [[Hi _]|(Hi & p & Hp & _)]; [assumption|].
    assert (Z.to_nat i < length (utmDb m))%nat
      by (apply nth_error_Some; congruence).
    lia.
Qed.

(** C7, as the code has it. With [numDb = 0] and no database coordinate,
    construction raises; whenever a data set is constructed with
    [numDb = 0], all its potential negatives are empty. *)
Theorem no_database_no_potential_negative
  (m : Manifest) (nNegSample nNeg : Z) (margin : F) :
  numDb m = 0 ->
  (utmDb m = [] -> query_init m nNegSample nNeg margin = Err ValueError) /\
  (forall self : QueryDataset,
      query_init m nNegSample nNeg margin = OK self ->
      Forall (fun pn => pn = []) (potential_negatives self)).
Proof.
  intros H0. split.
  - intros E. unfold query_init. rewrite E. reflexivity.
  - intros self H. destruct (query_init_OK _ _ _ _ H) as (_ & _ & _ & _ & Hpn).
    rewrite Hpn, H0. apply Forall_forall. intros pn Hin.
    apply in_map_iff in Hin. destruct Hin as (q & <- & _). reflexivity.
Qed.

(** C8. Once [getPositives] has returned, a second call returns the same
    positives, leaves the data set as it is and searches nothing: the
    two calls make one radius search on a fresh data set, and none when
    the positives were there already. *)
Theorem getPositives_memoised
  (self self1 : WholeDataset) (r1 : list (list Z)) (n1 : nat) :
  getPositives self = (OK r1, self1, n1) ->
  exists n2 : nat,
    getPositives self1 = (OK r1, self1, n2) /\
    n2 = 0%nat /\
    (n1 + n2 <= 1)%nat /\
    (positives self = None -> (n1 + n2 = 1)%nat).
Proof.
  unfold getPositives. intros H. exists 0%nat.
  destruct (positives self) as [ps|] eqn:Hp.
  - inversion H; subst. rewrite Hp. repeat split; try lia. discriminate.
  - destruct (fit (utmDb (w_dbStruct self))) as [knn|e]; [|discriminate].
    destruct (radius_neighbors knn (utmQ (w_dbStruct self)) (posDistThr (w_dbStruct self)))
      as [[ds ps]|e]; [|discriminate].
    inversion H; subst. simpl. repeat split; lia.
Qed.

End CandidateFacts.

(** ** The manifest handler *)

Section JsonFacts.

Context {F : Type}.

Local Abbreviation json := (@json F).
Local Abbreviation pyobj := (@pyobj F).
Local Abbreviation filesystem := (@filesystem F).

(** Induction on documents, with the hypothesis for every element of an
    array and every member of an object. *)
Lemma json_nested_ind (P : json -> Prop) :
  P JNull ->
  (forall b, P (JBool b)) ->
  (forall z, P (JInt z)) ->
  (forall x, P (JFloat x)) ->
  (forall s, P (JStr s)) ->
  (forall l, Forall P l -> P (JArr l)) ->
  (forall ms, Forall (fun kv => P (snd kv)) ms -> P (JObj ms)) ->
  forall j, P j.
Proof.
  intros HN HB HI HF HS HA HO.
  fix IH 1. intros [ | b | z | x | s | l | ms ].
  - exact HN.
  - apply HB.
  - apply HI.
  - apply HF.
  - apply HS.
  - apply HA. induction l as [|j t IHl]; constructor; [apply IH | exact IHl].
  - apply HO. induction ms as [|[k j] t IHl]; constructor; [apply IH | exact IHl].
Qed.

Lemma has_duplicate_NoDup (l : list string) : has_duplicate l = false -> NoDup l.
Proof.
  induction l as [|x t IH]; simpl; intros H; constructor.
  - apply orb_false_elim in H. destruct H as [H _].
    intros Hin. assert (existsb (String.eqb x) t = true); [|congruence].
    apply existsb_exists. exists x. split; [assumption | apply String.eqb_refl].
  - apply IH. apply orb_false_elim in H. tauto.
Qed.

Lemma dict_set_fresh (d : list (string * pyobj)) (k : string) (v : pyobj) :
  ~ In k (map fst d) -> dict_set d k v = d ++ [(k, v)].
Proof.
  induction d as [|[k' v'] t IH]; simpl; intros H; [reflexivity|].
  destruct (String.eqb_spec k k') as [->|Hne]; [tauto|].
  rewrite IH by tauto. reflexivity.
Qed.

Lemma dict_of_items_from (acc items : list (string * pyobj)) :
  NoDup (map fst (acc ++ items)) ->
  fold_left (fun d kv => dict_set d (fst kv) (snd kv)) items acc = acc ++ items.
Proof.
  revert acc. induction items as [|[k v] t IH]; intros acc H; simpl.
  - rewrite app_nil_r. reflexivity.
  - rewrite dict_set_fresh.
    + rewrite IH; rewrite <- app_assoc; [reflexivity | exact H].
    + rewrite map_app in H. simpl in H. apply NoDup_remove_2 in H.
      intros Hin. apply H, in_or_app. left. assumption.
Qed.

Lemma dict_of_items_distinct (items : list (string * pyobj)) :
  NoDup (map fst items) -> dict_of_items items = items.
Proof.
  intros H. unfold dict_of_items. apply (dict_of_items_from [] items H).
Qed.

Lemma json_load_object (ms : list (string * json)) :
  has_duplicate (map fst ms) = false ->
  json_load (JObj ms) = PDict (map (fun kv => (fst kv, json_load (snd kv))) ms).
Proof.
  intros H. simpl. rewrite dict_of_items_distinct; [reflexivity|].
  rewrite map_map. simpl. apply has_duplicate_NoDup, H.
Qed.

(** Dumping what was loaded gives the document back, as long as its
    objects have distinct keys. *)
Lemma json_dump_load (j : json) : unique_keys j = true -> json_dump (json_load j) = OK j.
Proof.
  induction j as [ | b | z | x | s | l IHl | ms IHms ] using json_nested_ind;
    intros Hu; try reflexivity.
  - simpl in *.
    assert (E : mapM json_dump (map json_load l) = OK l).
    { induction IHl as [|j t Hj Ht IHt]; simpl in *; [reflexivity|].
      apply andb_prop in Hu. destruct Hu as [Hu1 Hu2].
      rewrite (Hj Hu1). simpl. rewrite (IHt Hu2). reflexivity. }
    rewrite E. reflexivity.
  - simpl in Hu. apply andb_prop in Hu. destruct Hu as [Hk Hv].
    apply negb_true_iff in Hk. rewrite (json_load_object _ Hk).
    cbn [json_dump].
    assert (E : mapM (fun kv : string * pyobj => v <- json_dump (snd kv) ;; OK (fst kv, v))
                     (map (fun kv => (fst kv, json_load (snd kv))) ms) = OK ms).
    { clear Hk. induction IHms as [|[k j] t Hj Ht IHt]; simpl in *; [reflexivity|].
      apply andb_prop in Hv. destruct Hv as [Hv1 Hv2].
      rewrite (Hj Hv1). simpl. rewrite (IHt Hv2). reflexivity. }
    rewrite E. reflexivity.
Qed.

Lemma json_dump_values (ms : list (string * json)) :
  forallb (fun kv => unique_keys (snd kv)) ms = true ->
  mapM json_dump (map (fun kv => json_load (snd kv)) ms) = OK (map snd ms).
Proof.
  induction ms as [|[k j] t IH]; simpl; intros H; [reflexivity|].
  apply andb_prop in H. destruct H as [H1 H2].
  rewrite (json_dump_load _ H1). simpl. rewrite (IH H2). reflexivity.
Qed.

Lemma assoc_loaded (k : string) (ms : list (string * json)) :
  assoc k (combine (map fst ms) (map (fun kv => json_load (snd kv)) ms)) =
  option_map json_load (assoc k ms).
Proof.
  induction ms as [|[k' j] t IH]; simpl; [reflexivity|].
  destruct (String.eqb k k'); [reflexivity | exact IH].
Qed.

Lemma keys_loaded (ms : list (string * json)) :
  map fst (map (fun kv => (fst kv, json_load (snd kv))) ms) = map fst ms.
Proof.
  induction ms as [|[k j] t IH]; simpl; [reflexivity | rewrite IH; reflexivity].
Qed.

Lemma values_loaded (ms : list (string * json)) :
  map snd (map (fun kv => (fst kv, json_load (snd kv))) ms) =
  map (fun kv => json_load (snd kv)) ms.
Proof.
  induction ms as [|[k j] t IH]; simpl; [reflexivity | rewrite IH; reflexivity].
Qed.

(** What [deserialize] returns when it returns. *)
Lemma deserialize_object (fs : filesystem) (path name : string)
  (ms : list (string * json)) (r : pyobj) :
  fs path = Some (JObj ms) ->
  has_duplicate (map fst ms) = false ->
  deserialize fs path name = OK r ->
  r = PNamedTuple name (map fst ms) (map (fun kv => json_load (snd kv)) ms).
Proof.
  intros Hfs Hk. unfold deserialize. rewrite Hfs. cbn [of_option bind].
  rewrite (json_load_object _ Hk), keys_loaded, values_loaded.
  unfold namedtuple.
  destruct (negb _); [discriminate|].
  destruct (_ || _); [discriminate|].
  destruct (Nat.eqb _ _); [|discriminate].
  intros H. inversion H. reflexivity.
Qed.


Lemma write_file_same (fs : filesystem) (path : string) (doc : json) :
  write_file fs path doc path = Some doc.
Proof.
  unfold write_file. rewrite String.eqb_refl. reflexivity.
Qed.

(** C9, as the code has it. Loading validates nothing about the manifest:
    for a file holding a JSON object whose keys are distinct and usable as
    field names, whatever fields it has or lacks and whatever the lengths
    of its arrays, [deserialize] returns a record of exactly these
    members.  Reading a name (written in ASCII, without a leading
    underscore) from the record gives the member of the file under that
    name; when the file has none it gives the tuple's method for [count]
    and [index] and raises [AttributeError] for any other name.  So a
    field the data sets read and the file lacks raises [AttributeError]
    when it is read, not before. *)
Theorem deserialize_checks_names_only
  (fs : filesystem) (path name : string) (ms : list (string * json)) :
  fs path = Some (JObj ms) ->
  has_duplicate (map fst ms) = false ->
  forallb (fun n => isidentifier n && negb (iskeyword n)) (name :: map fst ms) = true ->
  existsb starts_with_underscore (map fst ms) = false ->
  exists r : pyobj,
    deserialize fs path name = OK r /\
    r = PNamedTuple name (map fst ms) (map (fun kv => json_load (snd kv)) ms) /\
    (forall k, ascii_name k = true -> starts_with_underscore k = false ->
       getattr r k = Some match assoc k ms with
                          | Some v => OK (Field (json_load v))
                          | None => if tuple_method k then OK (TupleMethod k)
                                    else Err AttributeError
                          end) /\
    (forall k, In k required_fields -> json_member (JObj ms) k = None ->
       getattr r k = Some (Err AttributeError)).
Proof.
  intros Hfs Hk Hid Hu.
  assert (G : forall k, ascii_name k = true -> starts_with_underscore k = false ->
     getattr (PNamedTuple name (map fst ms) (map (fun kv => json_load (snd kv)) ms)) k
     = Some match assoc k ms with
            | Some v => OK (Field (json_load v))
            | None => if tuple_method k then OK (TupleMethod k) else Err AttributeError
            end).
  { intros k Hka Hku. cbn [getattr]. rewrite Hku, Hka, assoc_loaded. cbn [negb orb].
    destruct (assoc k ms); simpl; [reflexivity|].
    destruct (tuple_method k); reflexivity. }
  eexists. split; [|split; [reflexivity|split; [exact G|]]].
  - unfold deserialize. rewrite Hfs. cbn [of_option bind].
    rewrite (json_load_object _ Hk), keys_loaded, values_loaded.
    unfold namedtuple. rewrite Hid, Hu, Hk. cbn [negb orb].
    rewrite !length_map, Nat.eqb_refl. reflexivity.
  - intros k Hin Hno. cbn [json_member] in Hno.
    assert (Hreq : ascii_name k = true /\ starts_with_underscore k = false
                   /\ tuple_method k = false).
    { unfold required_fields in Hin. simpl in Hin.
      repeat (destruct Hin as [<- | Hin]; [repeat split|]). destruct Hin. }
    destruct Hreq as (Hka & Hku & Htm).
    rewrite (G k Hka Hku), Hno, Htm. reflexivity.
Qed.

(** C10, as the code has it. Saving the record that [deserialize]
    returned writes a JSON array of the member values of the manifest, in
    the order of the file and each as it was, without the member names:
    the file written cannot be loaded again.  Saving the record's mapping
    [_asdict()] writes the original document. *)
Theorem save_of_load_keeps_values_only
  (fs : filesystem) (path dst name : string) (ms : list (string * json)) (r : pyobj) :
  fs path = Some (JObj ms) ->
  unique_keys (JObj ms) = true ->
  deserialize fs path name = OK r ->
  (exists fs' : filesystem,
      serialize r dst fs = OK fs' /\
      fs' dst = Some (JArr (map snd ms)) /\
      deserialize fs' dst name = Err AttributeError) /\
  (exists (d : pyobj) (fs' : filesystem),
      asdict r = OK d /\
      serialize d dst fs = OK fs' /\
      fs' dst = Some (JObj ms)).
Proof.
  intros Hfs Hu Hr. simpl in Hu. apply andb_prop in Hu. destruct Hu as [Hk Hv].
  apply negb_true_iff in Hk.
  rewrite (deserialize_object _ _ _ Hfs Hk Hr). split.
  - eexists. unfold serialize. cbn [json_dump].
    rewrite (json_dump_values _ Hv). cbn [bind].
    split; [reflexivity|]. split; [apply write_file_same|].
    unfold deserialize. rewrite write_file_same. reflexivity.
  - do 2 eexists. split; [reflexivity|].
    unfold serialize.
    assert (E : combine (map fst ms) (map (fun kv => json_load (snd kv)) ms)
                = map (fun kv => (fst kv, json_load (snd kv))) ms).
    { clear. induction ms as [|[k j] t IH]; simpl; [reflexivity | rewrite IH; reflexivity]. }
    rewrite E, <- (json_load_object _ Hk).
    rewrite json_dump_load by (simpl; rewrite Hk, Hv; reflexivity).
    cbn [bind]. split; [reflexivity | apply write_file_same].
Qed.

End JsonFacts.

(** ** The model at work *)

#[export] Instance ScalarLaws_Z : ScalarLaws Z.
Proof.
  constructor; simpl.
  - intros a b. apply Z.ltb_antisym.
  - intros a b c Hab Hbc. apply Z.leb_le in Hab, Hbc. apply Z.leb_le. lia.
  - intros a b. rewrite !Z.leb_le. lia.
  - intros p a b Hab. apply Z.leb_le in Hab. apply Z.leb_le. lia.
  - intros a b Hab. apply Z.leb_le in Hab. apply Z.leb_le, Z.sqrt_le_mono, Hab.
Qed.

Example scenario_candidate_sets :
  exists self,
    query_init Demo.scenario 1000 10 1 = OK self /\
    nontrivial_positives self = [[0]] /\
    potential_negatives self = [[1; 2]] /\
    queries self = [0].
Proof.
  eexists. split; [reflexivity|]. repeat split.
Qed.

Example demo_ranking :
  rank_candidates (Demo.dataset_with 16) 0 Demo.draws = OK Demo.ranking.
Proof. reflexivity. Qed.

Example demo_mining :
  getitem (Demo.dataset_with 16) 0 Demo.draws = (OK (Some Demo.mined), Demo.after_mining).
Proof. reflexivity. Qed.

Example demo_inactive_query :
  fst (getitem (Img:=string) (Demo.dataset_with 16) 1 Demo.draws) = Err IndexError.
Proof. reflexivity. Qed.

Example int32_wraps :
  astype_int32 int64 (2 ^ 31) = - 2 ^ 31 /\
  astype_int32 int64 (2 ^ 32 + 1) = 1 /\
  astype_int32 float64 (2 ^ 32 + 1) = - 2 ^ 31 /\
  astype_int32 float64 (2 ^ 31 - 1) = 2 ^ 31 - 1.
Proof. repeat split. Qed.

Example stale_count_has_active_query :
  exists self,
    query_init Demo.stale_count 1000 10 1 = OK self /\
    potential_negatives self = [[]] /\
    queries self = [0].
Proof.
  eexists. split; [reflexivity|]. split; reflexivity.
Qed.

(** ** The theorems on the small data set *)

Lemma no_violation_skips_witness :
  rank_candidates (Demo.dataset_with 0) 0 Demo.draws = OK Demo.ranking /\
  getitem (Img:=string) (Demo.dataset_with 0) 0 Demo.draws
    = (OK None, Demo.dataset_with 0).
Proof.
  assert (H : rank_candidates (Demo.dataset_with 0) 0 Demo.draws = OK Demo.ranking)
    by reflexivity.
  split; [exact H|].
  apply (no_violation_skips (Img:=string) (Demo.dataset_with 0) 0 Demo.draws H).
  simpl. repeat constructor.
Defined.

Lemma mined_example_committed_witness :
  getitem (Demo.dataset_with 16) 0 Demo.draws
    = (OK (Some Demo.mined), Demo.after_mining) /\
  exists (rk : @Ranking Z) (negIndices : list Z),
    py_index (queries (Demo.dataset_with 16)) 0 = OK (rk_index rk) /\
    py_index (negCache Demo.after_mining) (rk_index rk) = OK negIndices /\
    snd Demo.mined = rk_index rk :: rk_posIndex rk :: negIndices.
Proof.
  assert (H : getitem (Demo.dataset_with 16) 0 Demo.draws
              = (OK (Some Demo.mined), Demo.after_mining)) by reflexivity.
  split; [exact H|].
  destruct (mined_example_committed (Demo.dataset_with 16) 0 Demo.draws H)
    as (rk & negIndices & k & query & positive & negatives
        & _ & Hq & _ & _ & Hc & _ & _ & _ & _ & _ & _ & Hex).
  exists rk, negIndices. split; [exact Hq|]. split; [exact Hc|].
  rewrite Hex. reflexivity.
Defined.

Lemma potential_negatives_complement_witness :
  query_init Demo.manifest 11 1 16 = OK (Demo.built 16) /\
  length (potential_negatives (Demo.built 16)) = 2%nat /\
  StronglySorted Z.lt [1; 2; 3; 4; 5; 6; 7; 8; 9; 10; 11] /\
  ~ positive_neighborhood Demo.manifest 0 11.
Proof.
  assert (H : query_init Demo.manifest 11 1 16 = OK (Demo.built 16)) by reflexivity.
  split; [exact H|].
  destruct (potential_negatives_complement Demo.manifest 11 1 16 H) as (Hlen & Hq).
  split; [exact Hlen|].
  destruct (Hq 0%nat 0 [1; 2; 3; 4; 5; 6; 7; 8; 9; 10; 11] eq_refl eq_refl)
    as (Hs & Hin & _ & _ & _).
  split; [exact Hs|].
  apply (Hin 11). simpl. tauto.
Defined.

Lemma margin_monotone_witness :
  f_leb 0 16 = true /\
  rank_candidates (set_margin (Demo.dataset_with 16) 0) 0 Demo.draws = OK Demo.ranking /\
  np_sum (violatingNeg (set_margin (Demo.dataset_with 16) 0) Demo.ranking)
    <= np_sum (violatingNeg (set_margin (Demo.dataset_with 16) 16) Demo.ranking).
Proof.
  split; [reflexivity|]. split; [reflexivity|].
  apply (margin_monotone (Demo.dataset_with 16) 0 Demo.draws 0 16 (rk:=Demo.ranking));
    reflexivity.
Defined.

Example margin_counts :
  np_sum (violatingNeg (set_margin (Demo.dataset_with 16) 0) Demo.ranking) = 0 /\
  np_sum (violatingNeg (set_margin (Demo.dataset_with 16) 16) Demo.ranking) = 2.
Proof. split; reflexivity. Qed.

Lemma no_database_no_potential_negative_witness :
  numDb Demo.no_database = 0 /\
  query_init Demo.no_database 1000 10 1 = Err ValueError.
Proof.
  split; [reflexivity|].
  apply (proj1 (no_database_no_potential_negative Demo.no_database 1000 10 1 eq_refl)).
  reflexivity.
Defined.

(** C7 fails on a manifest without database images: no data set is
    constructed at all. *)
Lemma no_database_raises :
  numDb Demo.no_database = 0 /\
  ~ (exists self,
        query_init Demo.no_database 1000 10 1 = OK self /\
        Forall (fun pn => pn = []) (potential_negatives self) /\
        queries self = []).
Proof.
  split; [reflexivity|]. intros (self & H & _). discriminate H.
Qed.

Lemma getPositives_memoised_witness :
  getPositives Demo.whole = (OK [[0]; []], Demo.whole_resolved, 1%nat) /\
  getPositives Demo.whole_resolved = (OK [[0]; []], Demo.whole_resolved, 0%nat).
Proof.
  assert (H : getPositives Demo.whole = (OK [[0]; []], Demo.whole_resolved, 1%nat))
    by reflexivity.
  split; [exact H|].
  destruct (getPositives_memoised Demo.whole H) as (n2 & H2 & -> & _).
  exact H2.
Defined.

Lemma deserialize_checks_names_only_witness :
  Demo.disk Demo.doc_missing "manifest.json"%string = Some Demo.doc_missing /\
  exists r, deserialize (Demo.disk Demo.doc_missing) "manifest.json" "output" = OK r /\
            getattr r "numDb" = Some (OK (Field (PInt 5))) /\
            getattr r "utmDb" = Some (Err AttributeError) /\
            getattr r "count" = Some (OK (TupleMethod "count")).
Proof.
  split; [reflexivity|].
  destruct (deserialize_checks_names_only
              (Demo.disk Demo.doc_missing) "manifest.json" "output"
              (ms:=[("whichSet", JStr "train"); ("numDb", JInt 5)]%string)
              eq_refl eq_refl eq_refl eq_refl) as (r & Hr & _ & Hget & Hreq).
  exists r. split; [exact Hr|]. split; [|split].
  - exact (Hget "numDb"%string eq_refl eq_refl).
  - apply Hreq; [simpl; tauto | reflexivity].
  - exact (Hget "count"%string eq_refl eq_refl).
Defined.

(** C9 fails on a manifest that lacks the coordinates and on one whose
    [numDb] is not the number of its coordinates: both load. *)
Lemma malformed_manifests_load :
  (In "utmDb"%string required_fields /\
   json_member Demo.doc_missing "utmDb" = None /\
   ~ raises (deserialize (Demo.disk Demo.doc_missing) "manifest.json" "output")) /\
  (json_member Demo.doc_mismatch "numDb" = Some (JInt 5) /\
   json_member Demo.doc_mismatch "utmDb" = Some (JArr [JArr [JInt 5; JInt 0]]) /\
   ~ raises (deserialize (Demo.disk Demo.doc_mismatch) "manifest.json" "output")).
Proof.
  split; (split; [|split]); try reflexivity.
  - simpl. tauto.
  - intros [e He]. discriminate He.
  - intros [e He]. discriminate He.
Qed.

Lemma save_of_load_keeps_values_only_witness :
  Demo.disk Demo.doc_manifest "manifest.json"%string = Some Demo.doc_manifest /\
  unique_keys Demo.doc_manifest = true /\
  exists r fs',
    deserialize (Demo.disk Demo.doc_manifest) "manifest.json" "output" = OK r /\
    serialize r "copy.json" (Demo.disk Demo.doc_manifest) = OK fs' /\
    deserialize fs' "copy.json" "output" = Err AttributeError.
Proof.
  split; [reflexivity|]. split; [reflexivity|].
  eexists.
  assert (Hr : deserialize (Demo.disk Demo.doc_manifest) "manifest.json" "output"
               = OK (PNamedTuple "output"
                       (map fst match Demo.doc_manifest with JObj ms => ms | _ => [] end)
                       (map (fun kv => json_load (snd kv))
                            match Demo.doc_manifest with JObj ms => ms | _ => [] end)))
    by reflexivity.
  destruct (save_of_load_keeps_values_only
              (Demo.disk Demo.doc_manifest) "manifest.json" "copy.json" "output"
              eq_refl eq_refl Hr) as ((fs' & Hs & _ & Hd) & _).
  exists fs'. split; [exact Hr|]. split; [exact Hs | exact Hd].
Defined.

(** C10 fails on a well-formed manifest: the file written by
    [serialize(deserialize(...))] has no member [utmDb], nor any other. *)
Lemma save_of_load_drops_names :
  exists r fs' saved,
    deserialize (Demo.disk Demo.doc_manifest) "manifest.json" "output" = OK r /\
    serialize r "copy.json" (Demo.disk Demo.doc_manifest) = OK fs' /\
    fs' "copy.json"%string = Some saved /\
    json_member Demo.doc_manifest "utmDb" = Some (JArr [JArr [JInt 5; JInt 0]]) /\
    (forall k, In k coordinate_fields -> json_member saved k = None) /\
    ~ (forall k, In k coordinate_fields ->
                 json_member saved k = json_member Demo.doc_manifest k).
Proof.
  do 3 eexists. split; [reflexivity|]. split; [reflexivity|].
  split; [reflexivity|]. split; [reflexivity|]. split.
  - intros k _. reflexivity.
  - intros H. specialize (H "utmDb"%string (or_introl eq_refl)). discriminate H.
Qed.

(** * More of the module *)

(** ** [JsonHandler], both ways *)

Section JsonMore.

Context {F : Type}.

Local Abbreviation json := (@json F).
Local Abbreviation pyobj := (@pyobj F).
Local Abbreviation filesystem := (@filesystem F).

Lemma pyobj_nested_ind (P : pyobj -> Prop) :
  P PNone ->
  (forall b, P (PBool b)) ->
  (forall z, P (PInt z)) ->
  (forall x, P (PFloat x)) ->
  (forall s, P (PStr s)) ->
  (forall l, Forall P l -> P (PList l)) ->
  (forall items, Forall (fun kv => P (snd kv)) items -> P (PDict items)) ->
  (forall n fs vs, Forall P vs -> P (PNamedTuple n fs vs)) ->
  (forall t, P t -> P (PNdarray t)) ->
  forall o, P o.
Proof.
  intros HN HB HI HF HS HL HD HT HA.
  fix IH 1. intros [ | b | z | x | s | l | items | n fs vs | t ].
  - exact HN.
  - apply HB.
  - apply HI.
  - apply HF.
  - apply HS.
  - apply HL. induction l as [|o t IHl]; constructor; [apply IH | exact IHl].
  - apply HD. induction items as [|[k o] t IHl]; constructor; [apply IH | exact IHl].
  - apply HT. induction vs as [|o t IHl]; constructor; [apply IH | exact IHl].
  - apply HA, IH.
Qed.

Lemma NoDup_has_duplicate (l : list string) : NoDup l -> has_duplicate l = false.
Proof.
  induction 1 as [|x t Hx Ht IH]; simpl; [reflexivity|].
  rewrite IH, orb_false_r.
  destruct (existsb (String.eqb x) t) eqn:E; [|reflexivity].
  apply existsb_exists in E. destruct E as (y & Hy & Exy).
  apply String.eqb_eq in Exy. subst. contradiction.
Qed.

(** A list of values is dumped element by element. *)
Lemma dump_values (l : list pyobj) :
  Forall (fun o => distinct_keys o = true ->
                   exists j, json_dump o = OK j /\ unique_keys j = true /\
                             json_load j = listify o) l ->
  forallb distinct_keys l = true ->
  exists js, mapM json_dump l = OK js /\ forallb unique_keys js = true /\
             map json_load js = map listify l.
Proof.
  induction 1 as [|o t Ho Ht IH]; simpl; intros Hd.
  - exists []. repeat split.
  - apply andb_prop in Hd. destruct Hd as [Hd1 Hd2].
    destruct (Ho Hd1) as (j & Hj & Hu & Hl).
    destruct (IH Hd2) as (js & Hjs & Hus & Hls).
    exists (j :: js). rewrite Hj. simpl. rewrite Hjs. simpl.
    rewrite Hu, Hus, Hl, Hls. repeat split.
Qed.

Lemma dump_items (items : list (string * pyobj)) :
  Forall (fun kv => distinct_keys (snd kv) = true ->
                    exists j, json_dump (snd kv) = OK j /\ unique_keys j = true /\
                              json_load j = listify (snd kv)) items ->
  forallb (fun kv => distinct_keys (snd kv)) items = true ->
  exists ms,
    mapM (fun kv : string * pyobj => v <- json_dump (snd kv) ;; OK (fst kv, v)) items = OK ms /\
    map fst ms = map fst items /\
    forallb (fun kv => unique_keys (snd kv)) ms = true /\
    map (fun kv => (fst kv, json_load (snd kv))) ms =
    map (fun kv => (fst kv, listify (snd kv))) items.
Proof.
  induction 1 as [|[k o] t Ho Ht IH]; simpl; intros Hd.
  - exists []. repeat split.
  - apply andb_prop in Hd. destruct Hd as [Hd1 Hd2]. simpl in Ho.
    destruct (Ho Hd1) as (j & Hj & Hu & Hl).
    destruct (IH Hd2) as (ms & Hms & Hk & Hus & Hls).
    exists ((k, j) :: ms). rewrite Hj. simpl. rewrite Hms. simpl.
    rewrite Hk, Hu, Hus, Hl, Hls. repeat split.
Qed.

Lemma json_dump_listify (o : pyobj) :
  distinct_keys o = true ->
  exists j, json_dump o = OK j /\ unique_keys j = true /\ json_load j = listify o.
Proof.
  induction o as [ | b | z | x | s | l IHl | items IHi | n fs vs IHv | t IHt ]
    using pyobj_nested_ind; intros Hd;
    try (eexists; repeat split; reflexivity).
  - simpl in Hd. destruct (dump_values IHl Hd) as (js & Hjs & Hus & Hls).
    exists (JArr js). cbn [json_dump]. rewrite Hjs. simpl.
    rewrite Hus, Hls. repeat split.
  - simpl in Hd. apply andb_prop in Hd. destruct Hd as [Hk Hd].
    destruct (dump_items IHi Hd) as (ms & Hms & Hkeys & Hus & Hls).
    exists (JObj ms). cbn [json_dump]. rewrite Hms. cbn [bind].
    split; [reflexivity|]. split.
    + simpl. rewrite Hkeys, Hk, Hus. reflexivity.
    + apply negb_true_iff in Hk. rewrite json_load_object by (rewrite Hkeys; exact Hk).
      rewrite Hls. reflexivity.
  - simpl in Hd. destruct (dump_values IHv Hd) as (js & Hjs & Hus & Hls).
    exists (JArr js). cbn [json_dump]. rewrite Hjs. simpl.
    rewrite Hus, Hls. repeat split.
  - simpl in Hd. destruct (IHt Hd) as (j & Hj & Hu & Hl).
    exists j. repeat split; assumption.
Qed.

(** Arrays and tuples are written as the lists they come back as. *)
Lemma json_dump_of_listify (o : pyobj) : json_dump (listify o) = json_dump o.
Proof.
  induction o as [ | b | z | x | s | l IHl | items IHi | n fs vs IHv | t IHt ]
    using pyobj_nested_ind; try reflexivity.
  - cbn [listify json_dump]. f_equal.
    induction IHl as [|o t Ho Ht IH]; simpl; [reflexivity|].
    rewrite Ho, IH. reflexivity.
  - cbn [listify json_dump]. f_equal.
    induction IHi as [|[k o] t Ho Ht IH]; simpl in *; [reflexivity|].
    rewrite Ho, IH. reflexivity.
  - cbn [listify json_dump]. f_equal.
    induction IHv as [|o t Ho Ht IH]; simpl; [reflexivity|].
    rewrite Ho, IH. reflexivity.
  - simpl. exact IHt.
Qed.

(** X1. Whatever object is dumped, loading the document gives the object
    back with its arrays and tuples turned into lists; the lists are
    what was written, and an object without arrays or tuples comes back
    as it was. *)
Theorem dump_then_load (o : pyobj) :
  distinct_keys o = true ->
  exists j : json,
    json_dump o = OK j /\
    json_load j = listify o /\
    json_dump (listify o) = OK j /\
    (listify o = o -> json_load j = o).
Proof.
  intros Hd. destruct (json_dump_listify o Hd) as (j & Hj & _ & Hl).
  exists j. split; [exact Hj|]. split; [exact Hl|]. split.
  - rewrite json_dump_of_listify. exact Hj.
  - intros E. rewrite Hl. exact E.
Qed.

Lemma write_file_other (fs : filesystem) (path p : string) (doc : json) :
  p <> path -> write_file fs path doc p = fs p.
Proof.
  intros H. unfold write_file.
  destruct (String.eqb_spec p path); [contradiction | reflexivity].
Qed.

(** X2. A dict whose keys are accepted as field names, saved and loaded,
    is the record of its keys with the values as lists; no other file is
    touched. *)
Theorem serialize_then_deserialize
  (fs : filesystem) (dst name : string) (items : list (string * pyobj)) :
  distinct_keys (PDict items) = true ->
  names_accepted name (map fst items) = true ->
  exists fs' : filesystem,
    serialize (PDict items) dst fs = OK fs' /\
    (forall p, p <> dst -> fs' p = fs p) /\
    deserialize fs' dst name =
      OK (PNamedTuple name (map fst items) (map (fun kv => listify (snd kv)) items)).
Proof.
  intros Hd Hn. destruct (json_dump_listify _ Hd) as (j & Hj & Hu & Hl).
  exists (write_file fs dst j). unfold serialize. rewrite Hj. cbn [bind].
  split; [reflexivity|]. split; [intros p Hp; apply write_file_other, Hp|].
  unfold deserialize. rewrite write_file_same. cbn [of_option bind].
  rewrite Hl. cbn [listify].
  assert (Ek : map fst (map (fun kv : string * pyobj => (fst kv, listify (snd kv))) items)
               = map fst items).
  { clear. induction items as [|[k o] t IH]; simpl; [reflexivity | rewrite IH; reflexivity]. }
  assert (Ev : map snd (map (fun kv : string * pyobj => (fst kv, listify (snd kv))) items)
               = map (fun kv => listify (snd kv)) items).
  { clear. induction items as [|[k o] t IH]; simpl; [reflexivity | rewrite IH; reflexivity]. }
  rewrite Ek, Ev. unfold namedtuple.
  unfold names_accepted in Hn. apply andb_prop in Hn. destruct Hn as [Hn1 Hn2].
  apply negb_true_iff in Hn2. rewrite Hn1, Hn2.
  simpl in Hd. apply andb_prop in Hd. destruct Hd as [Hk _].
  apply negb_true_iff in Hk. rewrite Hk. cbn [negb orb].
  rewrite !length_map, Nat.eqb_refl. reflexivity.
Qed.

Lemma keys_dict_set (d : list (string * pyobj)) (k k' : string) (v : pyobj) :
  In k' (map fst (dict_set d k v)) <-> k' = k \/ In k' (map fst d).
Proof.
  induction d as [|[k0 v0] t IH]; simpl.
  - intuition auto.
  - destruct (String.eqb_spec k k0) as [->|Hne]; simpl.
    + intuition auto.
    + rewrite IH. intuition auto.
Qed.

Lemma NoDup_dict_set (d : list (string * pyobj)) (k : string) (v : pyobj) :
  NoDup (map fst d) -> NoDup (map fst (dict_set d k v)).
Proof.
  induction d as [|[k0 v0] t IH]; simpl; intros H.
  - constructor; [intros [] | constructor].
  - destruct (String.eqb_spec k k0) as [->|Hne]; simpl; [exact H|].
    inversion H as [|? ? Hnin Hnd]; subst. constructor; [|apply IH, Hnd].
    intros Hin. apply keys_dict_set in Hin. destruct Hin as [->|Hin]; [congruence | contradiction].
Qed.

Lemma assoc_dict_set (d : list (string * pyobj)) (k k' : string) (v : pyobj) :
  assoc k' (dict_set d k v) = if String.eqb k' k then Some v else assoc k' d.
Proof.
  induction d as [|[k0 v0] t IH]; simpl.
  - reflexivity.
  - destruct (String.eqb_spec k k0) as [->|Hne]; simpl.
    + destruct (String.eqb k' k0); reflexivity.
    + rewrite IH. destruct (String.eqb_spec k' k0) as [->|Hne'].
      * destruct (String.eqb_spec k0 k); [congruence | reflexivity].
      * reflexivity.
Qed.

Lemma assoc_app {A : Type} (k : string) (l l' : list (string * A)) :
  assoc k (l ++ l') = match assoc k l with
                      | Some v => Some v
                      | None => assoc k l'
                      end.
Proof.
  induction l as [|[k0 v0] t IH]; simpl; [reflexivity|].
  destruct (String.eqb k k0); [reflexivity | exact IH].
Qed.

Lemma dict_of_items_fold (items acc : list (string * pyobj)) :
  let d := fold_left (fun d kv => dict_set d (fst kv) (snd kv)) items acc in
  (NoDup (map fst acc) -> NoDup (map fst d)) /\
  (forall k, In k (map fst d) <-> In k (map fst items) \/ In k (map fst acc)) /\
  (forall k, assoc k d = match assoc k (rev items) with
                         | Some v => Some v
                         | None => assoc k acc
                         end).
Proof.
  revert acc. induction items as [|[k0 v0] t IH]; intros acc; simpl.
  - repeat split; auto. intros [[]|H]; exact H.
  - destruct (IH (dict_set acc k0 v0)) as (H1 & H2 & H3). simpl in *.
    split; [|split].
    + intros Hn. apply H1, NoDup_dict_set, Hn.
    + intros k. rewrite H2, keys_dict_set. intuition auto.
    + intros k. rewrite H3, assoc_app, assoc_dict_set. simpl.
      destruct (assoc k (rev t)); [reflexivity|].
      destruct (String.eqb k k0); reflexivity.
Qed.

Lemma combine_fst_snd {A B : Type} (l : list (A * B)) :
  combine (map fst l) (map snd l) = l.
Proof.
  induction l as [|[a b] t IH]; simpl; [reflexivity | rewrite IH; reflexivity].
Qed.

Lemma assoc_rev_loaded (k : string) (ms : list (string * json)) :
  assoc k (rev (map (fun kv => (fst kv, json_load (snd kv))) ms)) =
  option_map json_load (assoc k (rev ms)).
Proof.
  rewrite <- map_rev. induction (rev ms) as [|[k0 v0] t IH]; simpl; [reflexivity|].
  destruct (String.eqb k k0); [reflexivity | exact IH].
Qed.

Lemma forallb_same {A : Type} (p : A -> bool) (l l' : list A) :
  (forall x, In x l <-> In x l') -> forallb p l = forallb p l'.
Proof.
  intros H. destruct (forallb p l) eqn:E; symmetry.
  - apply forallb_forall. intros x Hx. rewrite forallb_forall in E. apply E, H, Hx.
  - destruct (forallb p l') eqn:E'; [|reflexivity].
    rewrite <- E. symmetry. apply forallb_forall. intros x Hx.
    rewrite forallb_forall in E'. apply E', H, Hx.
Qed.

Lemma existsb_same {A : Type} (p : A -> bool) (l l' : list A) :
  (forall x, In x l <-> In x l') -> existsb p l = existsb p l'.
Proof.
  intros H. destruct (existsb p l) eqn:E; symmetry.
  - apply existsb_exists in E. destruct E as (x & Hx & Hp).
    apply existsb_exists. exists x. split; [apply H, Hx | exact Hp].
  - destruct (existsb p l') eqn:E'; [|reflexivity].
    apply existsb_exists in E'. destruct E' as (x & Hx & Hp).
    rewrite <- E. symmetry. apply existsb_exists. exists x.
    split; [apply H, Hx | exact Hp].
Qed.

Lemma names_accepted_same (name : string) (l l' : list string) :
  (forall x, In x l <-> In x l') -> names_accepted name l = names_accepted name l'.
Proof.
  intros H. unfold names_accepted. simpl.
  rewrite (forallb_same _ l l' H), (existsb_same _ l l' H). reflexivity.
Qed.

(** The dict [json.load] makes of an object, and its keys. *)
Lemma loaded_dict (ms : list (string * json)) :
  exists d : list (string * pyobj),
    json_load (JObj ms) = PDict d /\
    NoDup (map fst d) /\
    (forall k, In k (map fst d) <-> In k (map fst ms)) /\
    (forall k, assoc k d = option_map json_load (assoc k (rev ms))).
Proof.
  eexists. split; [reflexivity|].
  destruct (dict_of_items_fold (map (fun kv => (fst kv, json_load (snd kv))) ms) [])
    as (H1 & H2 & H3).
  split; [apply H1; constructor|]. split.
  - intros k. unfold dict_of_items. rewrite H2, keys_loaded. simpl. tauto.
  - intros k. unfold dict_of_items. rewrite H3, assoc_rev_loaded. simpl.
    destruct (assoc k (rev ms)); reflexivity.
Qed.

(** X3. A manifest object whose keys are accepted as field names loads,
    repeated keys or not: the record has each key once, and reading a
    name (written in ASCII, without a leading underscore) gives the last
    value the file has under that name; when the file has none, [count]
    and [index] give the tuple's method and any other name raises
    [AttributeError]. *)
Theorem deserialize_returns
  (fs : filesystem) (path name : string) (ms : list (string * json)) :
  fs path = Some (JObj ms) ->
  names_accepted name (map fst ms) = true ->
  exists (fields : list string) (values : list pyobj),
    deserialize fs path name = OK (PNamedTuple name fields values) /\
    NoDup fields /\
    length values = length fields /\
    (forall k, In k fields <-> In k (map fst ms)) /\
    (forall k, ascii_name k = true -> starts_with_underscore k = false ->
       getattr (PNamedTuple name fields values) k =
       Some match assoc k (rev ms) with
            | Some v => OK (Field (json_load v))
            | None => if tuple_method k then OK (TupleMethod k)
                      else Err AttributeError
            end).
Proof.
  intros Hfs Hn. destruct (loaded_dict ms) as (d & Hd & Hnd & Hk & Ha).
  exists (map fst d), (map snd d).
  split; [|split; [exact Hnd|split; [rewrite !length_map; reflexivity|split; [exact Hk|]]]].
  - unfold deserialize. rewrite Hfs. cbn [of_option bind]. rewrite Hd.
    unfold namedtuple.
    rewrite <- (names_accepted_same name _ _ Hk) in Hn.
    unfold names_accepted in Hn. apply andb_prop in Hn. destruct Hn as [Hn1 Hn2].
    apply negb_true_iff in Hn2.
    rewrite Hn1, Hn2, (NoDup_has_duplicate Hnd). cbn [negb orb].
    rewrite !length_map, Nat.eqb_refl. reflexivity.
  - intros k Hka Hku. cbn [getattr]. rewrite Hku, Hka, combine_fst_snd, Ha. cbn [negb orb].
    destruct (assoc k (rev ms)); simpl; [reflexivity|].
    destruct (tuple_method k); reflexivity.
Qed.

(** X4. The ways loading fails: [OSError] when there is no file,
    [AttributeError] when the document is not an object, [ValueError]
    when one of its keys (written in ASCII) is no identifier, a keyword,
    or starts with an underscore. *)
Theorem deserialize_errors (fs : filesystem) (path name : string) :
  (fs path = None -> deserialize fs path name = Err OSError) /\
  (forall doc, fs path = Some doc -> (forall ms, doc <> JObj ms) ->
               deserialize fs path name = Err AttributeError) /\
  (forall ms, fs path = Some (JObj ms) ->
              forallb ascii_name (name :: map fst ms) = true ->
              names_accepted name (map fst ms) = false ->
              deserialize fs path name = Err ValueError).
Proof.
  split; [|split].
  - intros H. unfold deserialize. rewrite H. reflexivity.
  - intros doc H Hno. unfold deserialize. rewrite H. cbn [of_option bind].
    destruct doc; try reflexivity. exfalso. eapply Hno. reflexivity.
  - intros ms H _ Hn. destruct (loaded_dict ms) as (d & Hd & Hnd & Hk & _).
    unfold deserialize. rewrite H. cbn [of_option bind]. rewrite Hd.
    rewrite <- (names_accepted_same name _ _ Hk) in Hn.
    unfold namedtuple. unfold names_accepted in Hn.
    destruct (forallb _ (name :: map fst d)); [|reflexivity].
    simpl in Hn. apply negb_false_iff in Hn. rewrite Hn. reflexivity.
Qed.

End JsonMore.

(** ** Paths *)

Lemma split_colon_cons (s : string) : exists h r, split_colon s = h :: r.
Proof.
  induction s as [|c t IH]; simpl; [eauto|].
  destruct (Ascii.eqb c ":"); [eauto|].
  destruct IH as (h & r & ->). eauto.
Qed.

Lemma split_colon_plain (s : string) : has_colon s = false -> split_colon s = [s].
Proof.
  induction s as [|c t IH]; simpl; intros H; [reflexivity|].
  apply orb_false_elim in H. destruct H as [Hc Ht].
  rewrite Hc, (IH Ht). reflexivity.
Qed.

Lemma split_colon_two (s : string) :
  has_colon s = true -> exists a b r, split_colon s = a :: b :: r.
Proof.
  induction s as [|c t IH]; simpl; intros H; [discriminate|].
  destruct (Ascii.eqb c ":") eqn:Ec.
  - destruct (split_colon_cons t) as (h & r & ->). eauto.
  - simpl in H. destruct (IH H) as (a & b & r & ->). eauto.
Qed.

Lemma split_colon_app (seq rest : string) :
  has_colon seq = false ->
  split_colon (seq ++ String ":" rest) = seq :: split_colon rest.
Proof.
  induction seq as [|c t IH]; simpl; intros H; [reflexivity|].
  apply orb_false_elim in H. destruct H as [Hc Ht].
  rewrite Hc, (IH Ht). reflexivity.
Qed.

Lemma py_index_nat {A : Type} (l : list A) (n : nat) (x : A) :
  nth_error l n = Some x -> py_index l (Z.of_nat n) = OK x.
Proof.
  intros H. unfold py_index, py_pos.
  assert (n < length l)%nat by (apply nth_error_Some; congruence).
  replace ((0 <=? Z.of_nat n) && (Z.of_nat n <? Z.of_nat (length l))) with true
    by (symmetry; apply andb_true_intro; split; [apply Z.leb_le | apply Z.ltb_lt]; lia).
  rewrite Nat2Z.id, H. reflexivity.
Qed.

Lemma py_index_beyond {A : Type} (l : list A) (i : Z) :
  Z.of_nat (length l) <= i -> py_index l i = Err IndexError.
Proof.
  intros H. unfold py_index, py_pos.
  replace ((0 <=? i) && (i <? Z.of_nat (length l))) with false
    by (symmetry; apply andb_false_intro2, Z.ltb_ge; lia).
  replace ((- Z.of_nat (length l) <=? i) && (i <? 0)) with false
    by (symmetry; apply andb_false_intro2, Z.ltb_ge; lia).
  reflexivity.
Qed.

Lemma image_path_iff (img : string) :
  (has_colon img = true -> exists p, image_path img = OK p) /\
  (has_colon img = false -> image_path img = Err IndexError).
Proof.
  unfold image_path. split; intros H.
  - destruct (split_colon_two _ H) as (a & b & r & ->).
    change 0 with (Z.of_nat 0). change 1 with (Z.of_nat 1).
    rewrite (py_index_nat (a :: b :: r) 0 eq_refl).
    rewrite (py_index_nat (a :: b :: r) 1 eq_refl).
    eexists. reflexivity.
  - rewrite (split_colon_plain _ H). reflexivity.
Qed.

Lemma ends_with_slash_app (a b : string) :
  b <> EmptyString -> ends_with_slash (a ++ b) = ends_with_slash b.
Proof.
  intros Hb. induction a as [|c t IH]; simpl; [reflexivity|].
  rewrite IH. destruct (t ++ b)%string eqn:E; [|reflexivity].
  destruct t; simpl in E; [contradiction | discriminate].
Qed.

(** X5. An identifier [seq:frame] names the file
    [root_dir/seq/rgb_left/frame.png], for a sequence and a frame
    written without colon, the sequence neither empty nor with a slash
    at either end and the frame not starting with one; an identifier
    without colon raises [IndexError]. *)
Theorem image_path_of_identifier (seq frame : string) :
  has_colon seq = false ->
  has_colon frame = false ->
  seq <> EmptyString ->
  starts_with_slash seq = false ->
  ends_with_slash seq = false ->
  starts_with_slash frame = false ->
  image_path (seq ++ ":" ++ frame) =
    OK (((root_dir ++ "/" ++ seq) ++ "/" ++ img_folder) ++ "/" ++ frame ++ ".png")%string /\
  image_path seq = Err IndexError.
Proof.
  intros Hs Hf Hne Hss Hes Hsf. split; [|apply image_path_iff, Hs].
  unfold image_path. change (":" ++ frame)%string with (String ":" frame).
  rewrite (split_colon_app seq frame Hs), (split_colon_plain frame Hf).
  change (py_index (seq :: [frame]) 0) with (OK (A:=string) seq).
  change (py_index (seq :: [frame]) 1) with (OK (A:=string) frame).
  cbn [bind]. f_equal. unfold join. cbn [fold_left].
  assert (E1 : join2 root_dir seq = (root_dir ++ "/" ++ seq)%string).
  { unfold join2. rewrite Hss. reflexivity. }
  rewrite E1.
  assert (E2 : join2 (root_dir ++ "/" ++ seq) img_folder
               = ((root_dir ++ "/" ++ seq) ++ "/" ++ img_folder)%string).
  { unfold join2. change (starts_with_slash img_folder) with false. cbv iota.
    replace (ends_with_slash (root_dir ++ "/" ++ seq)) with false.
    - reflexivity.
    - symmetry. rewrite ends_with_slash_app.
      + destruct seq as [|c t]; [contradiction|]. exact Hes.
      + discriminate. }
  rewrite E2. unfold join2.
  replace (starts_with_slash (frame ++ ".png")) with false
    by (destruct frame; [reflexivity | exact (eq_sym Hsf)]).
  rewrite ends_with_slash_app by discriminate.
  reflexivity.
Qed.

(** X6. [get_*_set] read the manifest
    [/mydata/dataset/STHEREO/config/<dataset>_query_db_info.json], unless
    the name of the data set starts with a slash: the file is then
    looked up outside the configured directory. *)
Theorem manifest_file_of_dataset (dataset : string) :
  (starts_with_slash dataset = false ->
   manifest_file dataset =
     ("/mydata/dataset/STHEREO/config/" ++ dataset ++ "_query_db_info.json")%string) /\
  (starts_with_slash dataset = true ->
   manifest_file dataset = (dataset ++ "_query_db_info.json")%string).
Proof.
  unfold manifest_file, join, join2. cbn [fold_left].
  split; intros H.
  - replace (starts_with_slash (dataset ++ "_query_db_info.json")) with false
      by (destruct dataset; [reflexivity | exact (eq_sym H)]).
    reflexivity.
  - replace (starts_with_slash (dataset ++ "_query_db_info.json")) with true
      by (destruct dataset; [discriminate | exact (eq_sym H)]).
    reflexivity.
Qed.

(** ** [WholeDatasetFromJson] and [collate_fn] *)

Lemma mapM_all_OK {A B : Type} (f : A -> result B) (l : list A) :
  (forall a, In a l -> exists b, f a = OK b) -> exists l', mapM f l = OK l'.
Proof.
  induction l as [|a t IH]; simpl; intros H; [eauto|].
  destruct (H a (or_introl eq_refl)) as (b & ->).
  destruct IH as (l' & ->); [intros x Hx; apply H; right; exact Hx|].
  simpl. eauto.
Qed.

Lemma mapM_raises {A B : Type} (f : A -> result B) (l : list A) (e : exn) :
  (forall a, In a l -> (exists b, f a = OK b) \/ f a = Err e) ->
  (exists a, In a l /\ f a = Err e) ->
  mapM f l = Err e.
Proof.
  induction l as [|a t IH]; simpl; intros Hall (x & Hx & Hfx); [contradiction|].
  destruct (Hall a (or_introl eq_refl)) as [(b & Hb)|Hb]; rewrite Hb; simpl; [|reflexivity].
  destruct Hx as [->|Hx]; [congruence|].
  rewrite IH; [reflexivity | intros y Hy; apply Hall; right; exact Hy | eauto].
Qed.

Lemma mapM_nth_error {A B : Type} (f : A -> result B) (l : list A) (l' : list B)
  (n : nat) (a : A) :
  mapM f l = OK l' -> nth_error l n = Some a ->
  exists b, f a = OK b /\ nth_error l' n = Some b.
Proof.
  intros H. apply mapM_Forall2 in H. revert n.
  induction H as [|x y t t' Hxy Ht IH]; intros [|n]; simpl; try discriminate.
  - intros E. inversion E; subst. eauto.
  - apply IH.
Qed.

Lemma forallb_false_exists {A : Type} (p : A -> bool) (l : list A) :
  forallb p l = false -> exists a, In a l /\ p a = false.
Proof.
  induction l as [|a t IH]; simpl; [discriminate|].
  destruct (p a) eqn:E; simpl; intros H.
  - destruct (IH H) as (x & Hx & Hp). eauto.
  - eauto.
Qed.

Lemma image_paths_iff (ids : list string) :
  (forallb has_colon ids = true -> exists ps, mapM image_path ids = OK ps) /\
  (forallb has_colon ids = false -> mapM image_path ids = Err IndexError).
Proof.
  split; intros H.
  - apply mapM_all_OK. intros a Ha. rewrite forallb_forall in H.
    apply image_path_iff, H, Ha.
  - apply mapM_raises.
    + intros a _. destruct (has_colon a) eqn:E.
      * left. apply image_path_iff, E.
      * right. apply image_path_iff, E.
    + destruct (forallb_false_exists _ _ H) as (a & Ha & Hc).
      exists a. split; [exact Ha | apply image_path_iff, Hc].
Qed.

Section WholeFacts.

Context {F : Type} {SF : Scalar F}.
Context {V : Type} {MV : Metric V F}.
Context {Img : Type} {IL : ImageLoader Img}.

Local Abbreviation Manifest := (@Manifest F V).
Local Abbreviation WholeDataset := (@WholeDataset F V).

Lemma whole_init_OK (m : Manifest) (onlyDB : bool) (self : WholeDataset) :
  whole_init m onlyDB = OK self ->
  exists dbPaths qPaths,
    mapM image_path (dbImage m) = OK dbPaths /\
    (if onlyDB then OK [] else mapM image_path (qImage m)) = OK qPaths /\
    self = whole_of m (dbPaths ++ qPaths).
Proof.
  unfold whole_init. intros H. inv_bind H. inv_bind H. inversion H; subst.
  eauto.
Qed.

Lemma whole_init_items (m : Manifest) (onlyDB : bool) (self : WholeDataset) :
  whole_init m onlyDB = OK self ->
  (forall i img, nth_error (dbImage m) i = Some img ->
                 exists p, image_path img = OK p /\ nth_error (images self) i = Some p) /\
  (onlyDB = false ->
   forall j img, nth_error (qImage m) j = Some img ->
                 exists p, image_path img = OK p /\
                           nth_error (images self) (length (dbImage m) + j) = Some p).
Proof.
  intros H. destruct (whole_init_OK _ _ H) as (dbPaths & qPaths & Hdb & Hq & ->).
  pose proof (mapM_length _ _ Hdb) as Ldb. simpl. split.
  - intros i img Hi. destruct (mapM_nth_error _ _ _ Hdb Hi) as (p & Hp & Hn).
    exists p. split; [exact Hp|]. rewrite nth_error_app1; [exact Hn|].
    apply nth_error_Some. congruence.
  - intros -> j img Hj. destruct (mapM_nth_error _ _ _ Hq Hj) as (p & Hp & Hn).
    exists p. split; [exact Hp|]. rewrite nth_error_app2 by lia.
    rewrite <- Ldb. replace (length dbPaths + j - length dbPaths)%nat with j by lia.
    exact Hn.
Qed.

(** X7. A data set that is constructed has one item per database image
    and, unless [onlyDB], one per query image after them: item [i] is the
    file of database image [i], item [len(dbImage) + j] that of query
    image [j]; nothing is resolved yet. *)
Theorem whole_init_layout (m : Manifest) (onlyDB : bool) (self : WholeDataset) :
  whole_init m onlyDB = OK self ->
  w_dbStruct self = m /\
  positives self = None /\
  whole_len self =
    Z.of_nat (length (dbImage m)) + (if onlyDB then 0 else Z.of_nat (length (qImage m))) /\
  (forall i img, nth_error (dbImage m) i = Some img ->
                 exists p, image_path img = OK p /\ nth_error (images self) i = Some p) /\
  (onlyDB = false ->
   forall j img, nth_error (qImage m) j = Some img ->
                 exists p, image_path img = OK p /\
                           nth_error (images self) (length (dbImage m) + j) = Some p).
Proof.
  intros H. pose proof (whole_init_items _ _ H) as Hitems.
  destruct (whole_init_OK _ _ H) as (dbPaths & qPaths & Hdb & Hq & ->).
  pose proof (mapM_length _ _ Hdb) as Ldb.
  unfold whole_len. simpl.
  split; [reflexivity|]. split; [reflexivity|]. split; [|exact Hitems].
  rewrite length_app, Ldb. destruct onlyDB.
  - inversion Hq. simpl. lia.
  - rewrite (mapM_length _ _ Hq). lia.
Qed.

(** X8. Construction succeeds exactly when every identifier it resolves
    has a colon, and raises [IndexError] otherwise; with [onlyDB] the
    identifiers of the queries are not looked at. *)
Theorem whole_init_wants_colons (m : Manifest) (onlyDB : bool) :
  let ids := dbImage m ++ (if onlyDB then [] else qImage m) in
  (forallb has_colon ids = true -> exists self, whole_init m onlyDB = OK self) /\
  (forallb has_colon ids = false -> whole_init m onlyDB = Err IndexError).
Proof.
  intros ids. unfold ids. rewrite forallb_app. unfold whole_init. split; intros H.
  - apply andb_prop in H. destruct H as [Hdb Hq].
    destruct (proj1 (image_paths_iff _) Hdb) as (ps & ->). cbn [bind].
    destruct onlyDB; cbn [bind]; [eauto|].
    destruct (proj1 (image_paths_iff _) Hq) as (qs & ->). cbn [bind]. eauto.
  - destruct (forallb has_colon (dbImage m)) eqn:Hdb.
    + simpl in H. destruct (proj1 (image_paths_iff _) Hdb) as (ps & ->). cbn [bind].
      destruct onlyDB; [discriminate|].
      rewrite (proj2 (image_paths_iff _) H). reflexivity.
    + rewrite (proj2 (image_paths_iff _) Hdb). reflexivity.
Qed.

(** X9. Items are addressed as the feature cache is: asking a constructed
    data set for [i] gives the image of database image [i] and [i]
    itself, asking for [len(dbImage) + j] gives the image of query [j];
    an index past the last item raises [IndexError]. *)
Theorem whole_getitem_index_space (m : Manifest) (self : WholeDataset) :
  whole_init m false = OK self ->
  (forall i img, nth_error (dbImage m) i = Some img ->
     whole_getitem (Img:=Img) self (Z.of_nat i)
       = (x <- open_image img ;; OK (x, Z.of_nat i))) /\
  (forall j img, nth_error (qImage m) j = Some img ->
     whole_getitem (Img:=Img) self (Z.of_nat (length (dbImage m) + j))
       = (x <- open_image img ;; OK (x, Z.of_nat (length (dbImage m) + j)))) /\
  (forall index, whole_len self <= index ->
     whole_getitem (Img:=Img) self index = Err IndexError).
Proof.
  intros H. destruct (whole_init_items _ _ H) as (Hdb & Hq).
  split; [|split].
  - intros i img Hi. destruct (Hdb i img Hi) as (p & Hp & Hn).
    unfold whole_getitem, open_image. rewrite (py_index_nat _ _ Hn), Hp. reflexivity.
  - intros j img Hj. destruct (Hq eq_refl j img Hj) as (p & Hp & Hn).
    unfold whole_getitem, open_image. rewrite (py_index_nat _ _ Hn), Hp. reflexivity.
  - intros index Hi. unfold whole_getitem. rewrite py_index_beyond by exact Hi.
    reflexivity.
Qed.

End WholeFacts.

Section PositivesFacts.

Context {F : Type} {SF : Scalar F}.
Context {V : Type} {MV : Metric V F}.

Local Abbreviation Manifest := (@Manifest F V).
Local Abbreviation WholeDataset := (@WholeDataset F V).
Local Abbreviation QueryDataset := (@QueryDataset F V).

Lemma radius_neighbors_rows (knn Q : list V) (radius : F) ds ps :
  radius_neighbors knn Q radius = OK (ds, ps) ->
  Q <> [] /\
  ds = map (fun q => map fst (within_radius knn radius q)) Q /\
  ps = map (fun q => map snd (within_radius knn radius q)) Q.
Proof.
  destruct Q; simpl; intros H; [discriminate|].
  inversion H. rewrite !map_map. repeat split. discriminate.
Qed.

Lemma In_within_radius_pair (knn : list V) (radius : F) (q : V) (d : F) (i : Z) :
  In (d, i) (within_radius knn radius q) ->
  0 <= i /\ exists p, nth_error knn (Z.to_nat i) = Some p /\ d = dist q p /\
                      f_leb (dist q p) radius = true.
Proof.
  unfold within_radius. intros Hin. apply filter_In in Hin.
  destruct Hin as [Hin Hle]. simpl in Hle.
  rewrite <- (length_map (dist q) knn) in Hin.
  apply In_combine_arange in Hin. destruct Hin as [Hi Hd].
  split; [assumption|]. rewrite nth_error_map in Hd.
  destruct (nth_error knn (Z.to_nat i)) as [p|]; [|discriminate].
  simpl in Hd. inversion Hd; subst. eauto.
Qed.

(** X10. On a data set that has not resolved its positives, a call that
    returns has made one radius search and stored its outcome: one row
    per query, holding exactly the database indices within [posDistThr]
    of the query's coordinate, and beside it the row of their distances. *)
Theorem getPositives_rows (self self1 : WholeDataset) (ps : list (list Z)) (n : nat) :
  positives self = None ->
  getPositives self = (OK ps, self1, n) ->
  n = 1%nat /\
  positives self1 = Some ps /\
  w_dbStruct self1 = w_dbStruct self /\
  images self1 = images self /\
  length ps = length (utmQ (w_dbStruct self)) /\
  exists dss : list (list F),
    distances self1 = Some dss /\
    forall q coord,
      nth_error (utmQ (w_dbStruct self)) q = Some coord ->
      exists row drow,
        nth_error ps q = Some row /\
        nth_error dss q = Some drow /\
        length drow = length row /\
        (forall i, In i row <-> positive_neighborhood (w_dbStruct self) coord i) /\
        (forall d i, In (d, i) (combine drow row) ->
                     exists p, nth_error (utmDb (w_dbStruct self)) (Z.to_nat i) = Some p /\
                               d = dist coord p).
Proof.
  intros Hnone H. unfold getPositives in H. rewrite Hnone in H.
  destruct (fit (utmDb (w_dbStruct self))) as [knn|e] eqn:Hfit; [|discriminate].
  destruct (radius_neighbors knn (utmQ (w_dbStruct self)) (posDistThr (w_dbStruct self)))
    as [[ds ps']|e] eqn:Hr; [|discriminate].
  inversion H; subst ps' self1 n; clear H. simpl.
  apply fit_OK in Hfit. subst knn.
  destruct (radius_neighbors_rows _ _ _ Hr) as (_ & -> & ->).
  repeat split.
  - apply length_map.
  - eexists. split; [reflexivity|]. intros q coord Hq.
    do 2 eexists. rewrite !nth_error_map, Hq. simpl.
    split; [reflexivity|]. split; [reflexivity|].
    split; [rewrite !length_map; reflexivity|]. split.
    + intros i. apply In_within_radius.
    + intros d i Hin. rewrite combine_fst_snd in Hin.
      destruct (In_within_radius_pair _ _ _ _ _ Hin) as (_ & p & Hp & Hd & _).
      eauto.
Qed.

(** X11. On a data set that has not resolved its positives, the call
    raises [ValueError] when the manifest has no database coordinate or no
    query coordinate; and whenever the call raises, the data set is left as
    it was, its positives unresolved, so that the next call searches
    again. *)
Theorem getPositives_without_coordinates (self : WholeDataset) :
  positives self = None ->
  (utmDb (w_dbStruct self) = [] \/ utmQ (w_dbStruct self) = [] ->
   fst (fst (getPositives self)) = Err ValueError) /\
  (raises (fst (fst (getPositives self))) ->
   snd (fst (getPositives self)) = self /\
   positives (snd (fst (getPositives self))) = None).
Proof.
  intros Hnone. unfold getPositives. rewrite Hnone.
  destruct (utmDb (w_dbStruct self)) as [|p db] eqn:Hdb; simpl.
  - split; [reflexivity | intros _; split; [reflexivity | exact Hnone]].
  - destruct (utmQ (w_dbStruct self)) as [|c qs] eqn:Hq; simpl.
    + split; [reflexivity | intros _; split; [reflexivity | exact Hnone]].
    + split.
      * intros [E|E]; discriminate.
      * intros [e He]. discriminate.
Qed.

(** X12. Over one manifest the two data sets agree: when the training
    set is constructed, the evaluation set resolves its positives, and
    the potential negatives of each query are the indices of
    [[0, numDb)] that are not among its evaluation positives. *)
Theorem negatives_complement_evaluation_positives
  (m : Manifest) (nNegSample nNeg : Z) (margin : F) (self : QueryDataset)
  (paths : list string) :
  query_init m nNegSample nNeg margin = OK self ->
  exists (ps : list (list Z)) (whole1 : WholeDataset),
    getPositives (whole_of m paths) = (OK ps, whole1, 1%nat) /\
    potential_negatives self = map (fun pos => setdiff1d (arange (numDb m)) pos) ps /\
    Forall2 (fun pn pos => forall i, In i pn <-> 0 <= i < numDb m /\ ~ In i pos)
            (potential_negatives self) ps.
Proof.
  intros H. unfold query_init in H.
  apply bind_OK in H. destruct H as (knn & Hfit & H).
  apply bind_OK in H. destruct H as ([ds1 ntp] & Hr1 & H).
  apply bind_OK in H. destruct H as ([ds2 pp] & Hr2 & H).
  inversion H; subst self; clear H. simpl.
  exists pp. eexists. unfold getPositives, whole_of. simpl.
  rewrite Hfit, Hr2. split; [reflexivity|]. split; [reflexivity|].
  clear. induction pp as [|pos t IH]; simpl; constructor; [|exact IH].
  intros i. rewrite In_setdiff1d, In_arange. reflexivity.
Qed.

End PositivesFacts.

Section CollateFacts.

Context {Img : Type}.

Local Abbreviation MinedTuple := (@MinedTuple Img).

Lemma drop_none_Some (l : list MinedTuple) : drop_none (map Some l) = l.
Proof.
  induction l as [|t l IH]; simpl; [reflexivity | rewrite IH; reflexivity].
Qed.

(** X13. Skipped queries leave no trace in a batch: collating a batch is
    collating its examples alone, and the result is the empty one
    exactly when every entry of the batch is a skip. *)
Theorem collate_fn_drops_skips (batch : list (option MinedTuple)) :
  collate_fn batch = collate_fn (map Some (drop_none batch)) /\
  (collate_fn batch = None <-> Forall (fun x => x = None) batch).
Proof.
  split.
  - unfold collate_fn. rewrite drop_none_Some. reflexivity.
  - unfold collate_fn. split.
    + intros H. assert (E : drop_none batch = []) by (destruct (drop_none batch); [reflexivity | discriminate]).
      clear H. induction batch as [|[t|] b IH]; simpl in *; [constructor | discriminate |].
      constructor; [reflexivity | apply IH, E].
    + intros H. assert (E : drop_none batch = []).
      { induction H as [|x b Hx Hb IH]; simpl; [reflexivity|]. subst x. exact IH. }
      rewrite E. reflexivity.
Qed.

(** X14. In a collated batch the queries, the positives and the counts
    are one per example, the counts add up to the number of negatives,
    each count is that of its example, and the indices are those of the
    examples in order; when every example lists its query, its positive
    and its negatives, there are two indices per example and one per
    negative. *)
Theorem collate_fn_counts (batch : list (option MinedTuple))
  (query positive negatives : list Img) (negCounts indices : list Z) :
  collate_fn batch = Some (query, positive, negatives, negCounts, indices) ->
  length query = length (drop_none batch) /\
  length positive = length (drop_none batch) /\
  negCounts = map (fun t => Z.of_nat (length (snd (fst t)))) (drop_none batch) /\
  fold_right Z.add 0 negCounts = Z.of_nat (length negatives) /\
  negatives = concat (map (fun t => snd (fst t)) (drop_none batch)) /\
  indices = concat (map snd (drop_none batch)) /\
  (Forall (fun t => length (snd t) = (2 + length (snd (fst t)))%nat) (drop_none batch) ->
   length indices = (2 * length (drop_none batch) + length negatives)%nat).
Proof.
  unfold collate_fn. generalize (drop_none batch). intros examples H.
  assert (E : (query, positive, negatives, negCounts, indices) =
              (map (fun t : MinedTuple => fst (fst (fst t))) examples,
               map (fun t : MinedTuple => snd (fst (fst t))) examples,
               concat (map (fun t : MinedTuple => snd (fst t)) examples),
               map (fun x : list Img => Z.of_nat (length x))
                   (map (fun t : MinedTuple => snd (fst t)) examples),
               concat (map snd examples))).
  { destruct examples; [discriminate|]. inversion H. reflexivity. }
  clear H. inversion E; subst; clear E.
  rewrite !length_map, map_map.
  split; [reflexivity|]. split; [reflexivity|]. split; [reflexivity|].
  split; [|split; [reflexivity|split; [reflexivity|]]].
  - induction examples as [|t l IH]; simpl; [reflexivity|].
    rewrite length_app, IH. lia.
  - intros Hall. induction Hall as [|t l Ht Hl IH]; simpl; [reflexivity|].
    rewrite !length_app, IH, Ht. lia.
Qed.

End CollateFacts.

(** ** [QueryDatasetFromJson.__init__] *)

Lemma In_insert_sorted (x y : Z) (l : list Z) :
  In y (insert_sorted x l) <-> y = x \/ In y l.
Proof.
  induction l as [|z t IH]; simpl.
  - intuition auto.
  - destruct (x <=? z); simpl; rewrite ?IH; intuition auto.
Qed.

Lemma insert_sorted_sorted (x : Z) (l : list Z) :
  StronglySorted Z.le l -> StronglySorted Z.le (insert_sorted x l).
Proof.
  induction 1 as [|z t Hs IH Hall]; simpl.
  - constructor; constructor.
  - destruct (x <=? z) eqn:E.
    + apply Z.leb_le in E. constructor; [constructor; assumption|].
      constructor; [assumption|].
      rewrite Forall_forall in *. intros y Hy. specialize (Hall y Hy). lia.
    + apply Z.leb_gt in E. constructor; [assumption|].
      rewrite Forall_forall in *. intros y Hy. apply In_insert_sorted in Hy.
      destruct Hy as [->|Hy]; [lia | auto].
Qed.

Lemma insert_sorted_perm (x : Z) (l : list Z) : Permutation (insert_sorted x l) (x :: l).
Proof.
  induction l as [|z t IH]; simpl; [reflexivity|].
  destruct (x <=? z); [reflexivity|].
  rewrite IH. apply perm_swap.
Qed.

Lemma np_sort_perm (l : list Z) : Permutation (np_sort l) l.
Proof.
  unfold np_sort. induction l as [|x t IH]; simpl; [reflexivity|].
  rewrite insert_sorted_perm, IH. reflexivity.
Qed.

Lemma np_sort_sorted (l : list Z) : StronglySorted Z.le (np_sort l).
Proof.
  unfold np_sort. induction l as [|x t IH]; simpl; [constructor|].
  apply insert_sorted_sorted, IH.
Qed.

Lemma sorted_le_NoDup_lt (l : list Z) :
  StronglySorted Z.le l -> NoDup l -> StronglySorted Z.lt l.
Proof.
  induction 1 as [|z t Hs IH Hall]; intros Hnd; constructor.
  - apply IH. inversion Hnd; assumption.
  - inversion Hnd as [|? ? Hnin _]; subst.
    rewrite Forall_forall in *. intros y Hy. specialize (Hall y Hy).
    assert (y <> z) by (intros ->; contradiction). lia.
Qed.

Lemma StronglySorted_combine_snd {A B : Type} (R : B -> B -> Prop)
  (l : list A) (l' : list B) :
  StronglySorted R l' ->
  StronglySorted (fun p q => R (snd p) (snd q)) (combine l l').
Proof.
  intros H. revert l. induction H as [|b t Hs IH Hall]; intros [|a l]; simpl;
    try constructor; auto.
  apply Forall_forall. intros [x y] Hxy. apply in_combine_r in Hxy.
  rewrite Forall_forall in Hall. simpl. auto.
Qed.

Lemma In_np_where (mask : list bool) (q : Z) :
  In q (np_where mask) <-> 0 <= q /\ nth_error mask (Z.to_nat q) = Some true.
Proof.
  unfold np_where. rewrite in_map_iff. split.
  - intros ([i b] & Hi & Hin). simpl in Hi. subst i.
    apply filter_In in Hin. destruct Hin as [Hin Hb]. simpl in Hb. subst b.
    unfold arange in Hin. rewrite Nat2Z.id in Hin.
    assert (G : forall s, In (q, true) (combine (map Z.of_nat (seq s (length mask))) mask) ->
                          exists k, q = Z.of_nat (s + k) /\ nth_error mask k = Some true).
    { clear. induction mask as [|b t IH]; simpl; intros s H; [contradiction|].
      destruct H as [H|H].
      - inversion H; subst. exists 0%nat. split; [f_equal; lia | reflexivity].
      - destruct (IH _ H) as (k & -> & Hk). exists (S k). split; [f_equal; lia | exact Hk]. }
    destruct (G 0%nat Hin) as (k & -> & Hk). simpl. rewrite Nat2Z.id. split; [lia | exact Hk].
  - intros [Hq Hn]. exists (q, true). split; [reflexivity|].
    apply filter_In. split; [|reflexivity].
    unfold arange. rewrite Nat2Z.id.
    assert (G : forall s k, nth_error mask k = Some true ->
                            In (Z.of_nat (s + k), true)
                               (combine (map Z.of_nat (seq s (length mask))) mask)).
    { clear. induction mask as [|b t IH]; intros s [|k] H; simpl in *; try discriminate.
      - inversion H; subst. left. f_equal. f_equal. lia.
      - right. replace (s + S k)%nat with (S s + k)%nat by lia. apply IH, H. }
    specialize (G 0%nat _ Hn). simpl in G. rewrite Z2Nat.id in G by lia. exact G.
Qed.

Lemma np_where_sorted (mask : list bool) : StronglySorted Z.lt (np_where mask).
Proof.
  unfold np_where. apply StronglySorted_map, StronglySorted_filter.
  apply (@StronglySorted_combine_fst _ _ Z.lt), arange_sorted.
Qed.

Lemma length_np_where (mask : list bool) : (length (np_where mask) <= length mask)%nat.
Proof.
  unfold np_where. rewrite length_map.
  etransitivity; [apply filter_length_le|].
  rewrite length_combine. apply Nat.le_min_r.
Qed.

Section InitFacts.

Context {F : Type} {SF : Scalar F}.
Context {V : Type} {MV : Metric V F}.
Context {Img : Type} {IL : ImageLoader Img}.

Local Abbreviation Manifest := (@Manifest F V).
Local Abbreviation QueryDataset := (@QueryDataset F V).

Lemma within_radius_indices_sorted (knn : list V) (radius : F) (q : V) :
  StronglySorted Z.lt (map snd (within_radius knn radius q)).
Proof.
  unfold within_radius. apply StronglySorted_map, StronglySorted_filter.
  apply (@StronglySorted_combine_snd _ _ Z.lt), arange_sorted.
Qed.

Lemma In_np_sort (x : Z) (l : list Z) : In x (np_sort l) <-> In x l.
Proof.
  split; apply Permutation_in; [|symmetry]; apply np_sort_perm.
Qed.

Lemma nontrivial_rows
  (m : Manifest) (nNegSample nNeg : Z) (margin : F) (self : QueryDataset) :
  query_init m nNegSample nNeg margin = OK self ->
  forall q,
    match nth_error (utmQ m) q, nth_error (nontrivial_positives self) q with
    | Some coord, Some row =>
        forall i, In i row <->
                  0 <= i /\
                  exists p, nth_error (utmDb m) (Z.to_nat i) = Some p /\
                            f_leb (dist coord p) (f_pow_half (nonTrivPosDistSqThr m)) = true
    | None, None => True
    | _, _ => False
    end.
Proof.
  intros H. destruct (query_init_OK _ _ _ _ H) as (_ & _ & Hntp & _).
  intros q. rewrite Hntp, nth_error_map.
  destruct (nth_error (utmQ m) q) as [coord|]; simpl; [|exact I].
  intros i. rewrite In_np_sort. apply In_within_radius.
Qed.

(** X15. After construction every query has its row of nontrivial
    positives: strictly ascending, and holding exactly the database
    indices within [nonTrivPosDistSqThr ** 0.5] of its coordinate. *)
Theorem nontrivial_positives_rows
  (m : Manifest) (nNegSample nNeg : Z) (margin : F) (self : QueryDataset) :
  query_init m nNegSample nNeg margin = OK self ->
  length (nontrivial_positives self) = length (utmQ m) /\
  forall q coord,
    nth_error (utmQ m) q = Some coord ->
    exists row,
      nth_error (nontrivial_positives self) q = Some row /\
      StronglySorted Z.lt row /\
      forall i, In i row <->
                0 <= i /\
                exists p, nth_error (utmDb m) (Z.to_nat i) = Some p /\
                          f_leb (dist coord p) (f_pow_half (nonTrivPosDistSqThr m)) = true.
Proof.
  intros H. destruct (query_init_OK _ _ _ _ H) as (_ & _ & Hntp & _).
  rewrite Hntp. split; [apply length_map|].
  intros q coord Hq. eexists. rewrite nth_error_map, Hq. simpl.
  split; [reflexivity|]. split.
  - apply sorted_le_NoDup_lt; [apply np_sort_sorted|].
    eapply Permutation_NoDup; [symmetry; apply np_sort_perm|].
    apply sorted_lt_NoDup, within_radius_indices_sorted.
  - intros i. rewrite In_np_sort. apply In_within_radius.
Qed.

(** X16. The active queries are, in ascending order and once each, the
    queries with at least one nontrivial positive, that is with a
    database coordinate within [nonTrivPosDistSqThr ** 0.5]; the data
    set is as long as there are such queries. *)
Theorem active_queries
  (m : Manifest) (nNegSample nNeg : Z) (margin : F) (self : QueryDataset) :
  query_init m nNegSample nNeg margin = OK self ->
  StronglySorted Z.lt (queries self) /\
  0 <= query_len self <= Z.of_nat (length (utmQ m)) /\
  (forall q, In q (queries self) <->
             0 <= q /\
             exists row, nth_error (nontrivial_positives self) (Z.to_nat q) = Some row /\
                         row <> []) /\
  (forall q, In q (queries self) <->
             0 <= q /\
             exists coord i p,
               nth_error (utmQ m) (Z.to_nat q) = Some coord /\
               nth_error (utmDb m) i = Some p /\
               f_leb (dist coord p) (f_pow_half (nonTrivPosDistSqThr m)) = true).
Proof.
  intros H. destruct (query_init_OK _ _ _ _ H) as (_ & _ & Hntp & Hq & _).
  assert (Hrow : forall q, In q (queries self) <->
             0 <= q /\
             exists row, nth_error (nontrivial_positives self) (Z.to_nat q) = Some row /\
                         row <> []).
  { intros q. rewrite Hq, In_np_where, nth_error_map. split.
    - intros [H0 Hn]. split; [exact H0|].
      destruct (nth_error (nontrivial_positives self) (Z.to_nat q)) as [row|]; [|discriminate].
      exists row. split; [reflexivity|]. simpl in Hn. inversion Hn as [E].
      destruct row; [discriminate E | discriminate].
    - intros [H0 (row & Hr & Hne)]. split; [exact H0|]. rewrite Hr. simpl.
      destruct row; [contradiction | reflexivity]. }
  split; [rewrite Hq; apply np_where_sorted|]. split; [|split; [exact Hrow|]].
  - unfold query_len. rewrite Hq. split; [lia|].
    pose proof (length_np_where
                  (map (fun x : list Z => (0 <? length x)%nat) (nontrivial_positives self))) as L.
    rewrite length_map in L.
    assert (length (nontrivial_positives self) = length (utmQ m))
      by (rewrite Hntp; apply length_map).
    lia.
  - intros q. rewrite Hrow. pose proof (nontrivial_rows _ _ _ _ H (Z.to_nat q)) as Haux.
    split.
    + intros [H0 (row & Hr & Hne)]. split; [exact H0|].
      rewrite Hr in Haux.
      destruct (nth_error (utmQ m) (Z.to_nat q)) as [coord|]; [|contradiction].
      destruct row as [|i t]; [contradiction|].
      destruct (proj1 (Haux i) (or_introl eq_refl)) as (_ & p & Hp & Hle).
      exists coord, (Z.to_nat i), p. auto.
    + intros [H0 (coord & i & p & Hc & Hp & Hle)]. split; [exact H0|].
      rewrite Hc in Haux.
      destruct (nth_error (nontrivial_positives self) (Z.to_nat q)) as [row|];
        [|contradiction].
      exists row. split; [reflexivity|]. intros ->.
      apply (proj2 (Haux (Z.of_nat i))). split; [lia|]. exists p.
      rewrite Nat2Z.id. auto.
Qed.

End InitFacts.

(** ** [QueryDatasetFromJson.__getitem__] over time *)

Lemma py_index_IndexError {A : Type} (l : list A) (i : Z) (e : exn) :
  py_index l i = Err e -> e = IndexError.
Proof.
  unfold py_index. destruct (py_pos (length l) i) as [k|].
  - destruct (nth_error l k); simpl; intros H; [discriminate | congruence].
  - congruence.
Qed.

Lemma py_index_nonneg {A : Type} (l : list A) (i : Z) (x : A) :
  0 <= i -> py_index l i = OK x -> nth_error l (Z.to_nat i) = Some x.
Proof.
  intros Hi. unfold py_index, py_pos.
  destruct ((0 <=? i) && (i <? Z.of_nat (length l))).
  - destruct (nth_error l (Z.to_nat i)); simpl; intros H; [congruence | discriminate].
  - replace ((- Z.of_nat (length l) <=? i) && (i <? 0)) with false
      by (symmetry; apply andb_false_intro2, Z.ltb_ge; lia).
    discriminate.
Qed.

Lemma py_pos_nonneg (n : nat) (i : Z) (k : nat) :
  0 <= i -> py_pos n i = Some k -> k = Z.to_nat i.
Proof.
  intros Hi. unfold py_pos.
  destruct ((0 <=? i) && (i <? Z.of_nat n)); [congruence|].
  replace ((- Z.of_nat n <=? i) && (i <? 0)) with false
    by (symmetry; apply andb_false_intro2, Z.ltb_ge; lia).
  discriminate.
Qed.

Lemma astype_int32_small (from : dtype) (c : Z) :
  0 <= c < 2 ^ 31 -> astype_int32 from c = c.
Proof.
  intros H. destruct from; unfold astype_int32.
  - rewrite Z.mod_small; lia.
  - replace (- 2 ^ 31 <=? c) with true by (symmetry; apply Z.leb_le; lia).
    replace (c <? 2 ^ 31) with true by (symmetry; apply Z.ltb_lt; lia).
    reflexivity.
Qed.

Lemma random_choice_OK (a : list Z) (size : Z) (rnd : nat -> nat) (sample : list Z) :
  random_choice a size rnd = OK sample ->
  0 <= size /\ Z.of_nat (length sample) = size /\ incl sample a.
Proof.
  unfold random_choice. destruct (size <? 0) eqn:E; [discriminate|].
  apply Z.ltb_ge in E. destruct a as [|x t].
  - destruct (size =? 0) eqn:E0; [|discriminate].
    apply Z.eqb_eq in E0. intros H. inversion H; subst. simpl.
    repeat split; try lia. intros y [].
  - remember (x :: t) as a eqn:Ea.
    assert (Hlen : length a <> 0%nat) by (subst a; discriminate).
    intros H. injection H as <-.
    rewrite length_map, length_seq. repeat split; try lia.
    intros y Hy. apply in_map_iff in Hy. destruct Hy as (i & <- & _).
    apply nth_In. apply Nat.mod_upper_bound. exact Hlen.
Qed.

Lemma length_filter_count {A B : Type} (test : A -> bool) (ds : list A) (nn : list B) :
  length nn = length ds ->
  Z.of_nat (length (filter (fun p => test (fst p)) (combine ds nn))) = np_sum (map test ds).
Proof.
  unfold np_sum. revert nn. induction ds as [|d ds IH]; intros [|n nn] H; simpl in *;
    try discriminate; [reflexivity|].
  injection H as H. specialize (IH nn H).
  destruct (test d); simpl.
  - destruct (bool_dec true true); [lia | congruence].
  - destruct (bool_dec false true); [discriminate | exact IH].
Qed.

Section MiningFacts.

Context {F : Type} {SF : Scalar F}.
Context {V : Type} {MV : Metric V F}.
Context {Img : Type} {IL : ImageLoader Img}.

Local Abbreviation Manifest := (@Manifest F V).
Local Abbreviation QueryDataset := (@QueryDataset F V).
Local Abbreviation Ranking := (@Ranking F).

(** X17. When the nontrivial radius [nonTrivPosDistSqThr ** 0.5] is at
    most [posDistThr], no nontrivial positive of a query is one of its
    potential negatives. *)
Theorem nontrivial_positive_not_negative `{!ScalarLaws F}
  (m : Manifest) (nNegSample nNeg : Z) (margin : F) (self : QueryDataset) :
  f_leb (f_pow_half (nonTrivPosDistSqThr m)) (posDistThr m) = true ->
  query_init m nNegSample nNeg margin = OK self ->
  forall q row pn,
    nth_error (nontrivial_positives self) q = Some row ->
    nth_error (potential_negatives self) q = Some pn ->
    forall i, ~ (In i row /\ In i pn).
Proof.
  intros Hthr H q row pn Hrow Hpn i [Hi1 Hi2].
  destruct (query_init_OK _ _ _ _ H) as (_ & _ & Hntp & _ & Hneg).
  rewrite Hntp, nth_error_map in Hrow. rewrite Hneg, nth_error_map in Hpn.
  destruct (nth_error (utmQ m) q) as [coord|]; [|discriminate].
  simpl in Hrow, Hpn. inversion Hrow; subst row. inversion Hpn; subst pn.
  apply In_np_sort, In_within_radius in Hi1.
  apply In_setdiff1d in Hi2. destruct Hi2 as [_ Hno]. apply Hno.
  apply In_within_radius. destruct Hi1 as (H0 & p & Hp & Hle).
  split; [exact H0|]. exists p. split; [exact Hp|].
  eapply f_leb_trans; eauto.
Qed.

(** X18. A data set just constructed has no cache and an empty negative
    cache for [numQ] queries; until a cache is set every call on it
    raises and leaves it as it is. *)
Theorem fresh_dataset_cannot_mine
  (m : Manifest) (nNegSample nNeg : Z) (margin : F) (self : QueryDataset) :
  query_init m nNegSample nNeg margin = OK self ->
  cache self = None /\
  negCache self = repeat [] (Z.to_nat (numQ m)) /\
  forall index rnd,
    raises (fst (getitem (Img:=Img) self index rnd)) /\
    snd (getitem (Img:=Img) self index rnd) = self.
Proof.
  intros H.
  assert (Hc : cache self = None /\ negCache self = repeat [] (Z.to_nat (numQ m))).
  { unfold query_init in H. inv_binds H. inversion H; subst; simpl.
    split; [reflexivity|]. unfold arange. rewrite map_map.
    generalize (Z.to_nat (numQ m)) as n. intros n. generalize 0%nat as s.
    induction n as [|n IH]; intros s; simpl; [reflexivity | rewrite IH; reflexivity]. }
  destruct Hc as [Hc Hn]. split; [exact Hc|]. split; [exact Hn|].
  intros index rnd. unfold getitem, rank_candidates. rewrite Hc.
  destruct (py_index (queries self) index) as [q|e] eqn:Hq; simpl.
  - split; [exists OSError; reflexivity | reflexivity].
  - split; [exists e; reflexivity | reflexivity].
Qed.

(** The outcomes of a call: the data set is untouched, or the ranking and
    the selection succeeded and the negative cache of the query holds
    the selection. *)
Lemma getitem_cases (self : QueryDataset) (index : Z) (rnd : nat -> nat) :
  snd (getitem (Img:=Img) self index rnd) = self \/
  exists (rk : Ranking) (negIndices : list Z) (k : nat),
    rank_candidates self index rnd = OK rk /\
    (np_sum (violatingNeg self rk) <? 1) = false /\
    select_negatives self rk = OK negIndices /\
    py_pos (length (negCache self)) (rk_index rk) = Some k /\
    (k < length (negCache self))%nat /\
    getitem (Img:=Img) self index rnd =
      (x <- load_example (set_negCache self (list_set (negCache self) k negIndices))
              (rk_index rk) (rk_posIndex rk) negIndices ;;
       OK (Some x),
       set_negCache self (list_set (negCache self) k negIndices)).
Proof.
  unfold getitem.
  destruct (rank_candidates self index rnd) as [rk|e] eqn:Hrk; [|left; reflexivity].
  destruct (np_sum (violatingNeg self rk) <? 1) eqn:Hsum; [left; reflexivity|].
  destruct (select_negatives self rk) as [negIndices|e] eqn:Hsel; [|left; reflexivity].
  destruct (py_setitem (negCache self) (rk_index rk) negIndices) as [nc|e] eqn:Hset;
    [|left; reflexivity].
  apply py_setitem_spec in Hset. destruct Hset as (k & Hk & Hlt & ->).
  right. exists rk, negIndices, k. repeat split; assumption.
Qed.


(** X20. The negative cache is written before the images are opened: when
    the ranking finds a violating negative and an image cannot be
    loaded, the call raises and the negative cache of the query holds
    the new selection all the same. *)
Theorem image_failure_after_commit
  (self : QueryDataset) (index : Z) (rnd : nat -> nat) (rk : Ranking)
  (negIndices : list Z) (e : exn) :
  rank_candidates self index rnd = OK rk ->
  (np_sum (violatingNeg self rk) <? 1) = false ->
  select_negatives self rk = OK negIndices ->
  load_example (Img:=Img) self (rk_index rk) (rk_posIndex rk) negIndices = Err e ->
  exists self',
    getitem (Img:=Img) self index rnd = (Err e, self') /\
    py_index (negCache self') (rk_index rk) = OK negIndices.
Proof.
  intros Hrk Hsum Hsel Hload. unfold getitem. rewrite Hrk, Hsum, Hsel.
  destruct (rank_candidates_OK _ _ _ Hrk) as (_ & _ & (pn & sample & prev & _ & _ & Hprev & _) & _).
  destruct (py_setitem (negCache self) (rk_index rk) negIndices) as [nc|e'] eqn:Hset.
  - eexists. split.
    + unfold load_example in *. simpl in *. rewrite Hload. reflexivity.
    + simpl. eapply py_setitem_index; eauto.
  - exfalso. unfold py_setitem in Hset. unfold py_index in Hprev.
    destruct (py_pos (length (negCache self)) (rk_index rk)); discriminate.
Qed.

Lemma ranking_search (self : QueryDataset) (index : Z) (rnd : nat -> nat) (rk : Ranking) :
  rank_candidates self index rnd = OK rk ->
  exists (negFeat : list V) (qFeat : V),
    kneighbors negFeat qFeat (nNeg self * 10) = OK (rk_dNeg rk, rk_negNN rk) /\
    length negFeat = length (rk_negSample rk).
Proof.
  intros H. unfold rank_candidates in H. inv_binds H.
  inversion H; subst; clear H. simpl.
  repeat match goal with
         | Hf : fit _ = OK _ |- _ => apply fit_OK in Hf; subst
         end.
  match goal with
  | Hk : kneighbors ?nf ?qf (nNeg self * 10) = OK _,
    Hr : h5_rows _ (np_unique _) = OK ?nf |- _ =>
      exists nf, qf; split; [exact Hk | exact (h5_rows_length _ _ Hr)]
  end.
Qed.

(** After a ranking the selection cannot fail: the rows kept address the
    candidates, and the selection is the candidates at these rows. *)
Lemma select_negatives_OK (self : QueryDataset) (index : Z) (rnd : nat -> nat) (rk : Ranking) :
  rank_candidates self index rnd = OK rk ->
  exists cands : list Z,
    let rows := map snd (firstn (Z.to_nat (nNeg self))
                  (filter (fun p => f_ltb (fst p) (f_add (rk_dPos rk) (f_pow_half (margin self))))
                          (combine (rk_dNeg rk) (rk_negNN rk)))) in
    Forall2 (fun nn c => 0 <= nn /\ nth_error (rk_negSample rk) (Z.to_nat nn) = Some c)
            rows cands /\
    select_negatives self rk = OK (map (astype_int32 (negSample_dtype self rk)) cands).
Proof.
  intros Hrk.
  destruct (rank_candidates_OK _ _ _ Hrk) as (_ & _ & _ & Hpos & Hd & Hn & _).
  destruct (ranked_candidate _ _ _ Hrk) as (h5feat & qFeat & _ & _ & Hrows).
  set (rows := map snd (firstn (Z.to_nat (nNeg self))
                 (filter (fun p => f_ltb (fst p) (f_add (rk_dPos rk) (f_pow_half (margin self))))
                         (combine (rk_dNeg rk) (rk_negNN rk))))).
  assert (Hin : forall nn, In nn rows -> exists d, In (d, nn) (combine (rk_dNeg rk) (rk_negNN rk))).
  { intros nn Hnn. unfold rows in Hnn. apply in_map_iff in Hnn.
    destruct Hnn as ([d nn'] & E & Hnn). simpl in E. subst nn'.
    apply In_firstn, filter_In in Hnn. exists d. tauto. }
  assert (Hc : exists cands, mapM (py_index (rk_negSample rk)) rows = OK cands).
  { apply mapM_all_OK. intros nn Hnn. destruct (Hin nn Hnn) as (d & Hd').
    destruct (Hrows d nn Hd') as (c & v & Hc & _). eauto. }
  destruct Hc as (cands & Hc). exists cands. split.
  - pose proof (mapM_Forall2 _ _ Hc) as HF.
    assert (G : forall l l', Forall2 (fun nn c => py_index (rk_negSample rk) nn = OK c) l l' ->
                (forall nn, In nn l -> 0 <= nn) ->
                Forall2 (fun nn c => 0 <= nn /\ nth_error (rk_negSample rk) (Z.to_nat nn) = Some c) l l').
    { induction 1 as [|nn c l l' Hnc Hl IH]; intros Hpos'; constructor.
      - assert (0 <= nn) by (apply Hpos'; left; reflexivity).
        split; [assumption | apply py_index_nonneg; assumption].
      - apply IH. intros x Hx. apply Hpos'. right. exact Hx. }
    apply G; [exact HF|]. intros nn Hnn. destruct (Hin nn Hnn) as (d & Hd').
    destruct (ranking_search _ _ _ Hrk) as (negFeat & qFeat' & Hk & _).
    destruct (kneighbors_In _ _ _ _ _ Hk Hd') as (H0 & _). exact H0.
  - unfold select_negatives, violatingNeg.
    rewrite mask_index_filter by lia. cbn [bind].
    unfold py_take. replace (0 <=? nNeg self) with true by (symmetry; apply Z.leb_le; lia).
    rewrite firstn_map. fold rows. unfold take_indices. rewrite Hc. reflexivity.
Qed.

(** X21. After a ranking the selection never raises, and it has as many
    negatives as there are violating rows, up to [nNeg]; so an example
    that is returned has between one and [nNeg] negatives. *)
Theorem negatives_count (self : QueryDataset) (index : Z) (rnd : nat -> nat) (rk : Ranking) :
  rank_candidates self index rnd = OK rk ->
  exists negIndices : list Z,
    select_negatives self rk = OK negIndices /\
    Z.of_nat (length negIndices) = Z.min (nNeg self) (np_sum (violatingNeg self rk)) /\
    ((np_sum (violatingNeg self rk) <? 1) = false ->
     1 <= Z.of_nat (length negIndices) <= nNeg self).
Proof.
  intros Hrk. destruct (select_negatives_OK _ _ _ Hrk) as (cands & HF & Hsel).
  destruct (rank_candidates_OK _ _ _ Hrk) as (_ & _ & _ & Hpos & Hd & Hn & _).
  exists (map (astype_int32 (negSample_dtype self rk)) cands). split; [exact Hsel|].
  assert (L : Z.of_nat (length (map (astype_int32 (negSample_dtype self rk)) cands))
              = Z.min (nNeg self) (np_sum (violatingNeg self rk))).
  { rewrite length_map, <- (Forall2_length HF), length_map, length_firstn.
    unfold violatingNeg.
    rewrite <- (length_filter_count
                  (fun d => f_ltb d (f_add (rk_dPos rk) (f_pow_half (margin self))))
                  (rk_dNeg rk) (rk_negNN rk)) by lia.
    lia. }
  split; [exact L|]. intros Hsum. apply Z.ltb_ge in Hsum. lia.
Qed.

(** X22. Where the indices in the negative cache of the query and its
    potential negatives fit [np.int32] (they lie in [[0, 2^31)]), every
    negative selected was in that cache entry or is one of these
    potential negatives. *)
Theorem negatives_from_pool
  (self : QueryDataset) (index : Z) (rnd : nat -> nat) (rk : Ranking) (negIndices : list Z) :
  rank_candidates self index rnd = OK rk ->
  select_negatives self rk = OK negIndices ->
  exists pn prev,
    py_index (potential_negatives self) (rk_index rk) = OK pn /\
    py_index (negCache self) (rk_index rk) = OK prev /\
    ((forall c, In c prev \/ In c pn -> 0 <= c < 2 ^ 31) ->
     forall n, In n negIndices -> In n prev \/ In n pn).
Proof.
  intros Hrk Hsel. destruct (select_negatives_OK _ _ _ Hrk) as (cands & HF & Hsel').
  rewrite Hsel in Hsel'. inversion Hsel'; subst negIndices; clear Hsel'.
  destruct (rank_candidates_OK _ _ _ Hrk)
    as (_ & _ & (pn & sample & prev & Hpn & Hs & Hprev & Hpool) & _).
  exists pn, prev. split; [exact Hpn|]. split; [exact Hprev|].
  assert (Hin : forall c, In c cands -> In c prev \/ In c pn).
  { intros c Hc.
    assert (Hin : In c (rk_negSample rk)).
    { clear - HF Hc. induction HF as [|nn c' l l' [_ Hnc] Hl IH]; [contradiction|].
      destruct Hc as [->|Hc]; [eapply nth_error_In; eauto | auto]. }
    rewrite Hpool in Hin. apply In_np_unique, in_app_or in Hin.
    destruct Hin as [Hin|Hin]; [left; exact Hin|right].
    destruct (random_choice_OK _ _ _ Hs) as (_ & _ & Hincl). apply Hincl, Hin. }
  intros Hb n Hn. apply in_map_iff in Hn. destruct Hn as (c & <- & Hc).
  rewrite astype_int32_small by (apply Hb, Hin, Hc). apply Hin, Hc.
Qed.

(** X23. A query listed as active whose row of nontrivial positives is
    empty cannot be mined: the call raises, and changes nothing. *)
Theorem no_positive_raises (self : QueryDataset) (index : Z) (rnd : nat -> nat) (q : Z) :
  py_index (queries self) index = OK q ->
  py_index (nontrivial_positives self) q = OK [] ->
  raises (fst (getitem (Img:=Img) self index rnd)) /\
  snd (getitem (Img:=Img) self index rnd) = self.
Proof.
  intros Hq Hntp.
  assert (R : raises (rank_candidates self index rnd)).
  { unfold rank_candidates. rewrite Hq. cbn [bind].
    do 2 raise_step. rewrite Hntp. cbn [bind].
    exists ValueError. reflexivity. }
  split; [apply getitem_raises, R|].
  destruct R as [e He]. unfold getitem. rewrite He. reflexivity.
Qed.

Lemma insert_ranked_perm (p : F * Z) (l : list (F * Z)) :
  Permutation (insert_ranked p l) (p :: l).
Proof.
  induction l as [|q t IH]; simpl; [reflexivity|].
  destruct (f_ltb (fst q) (fst p)); [|reflexivity].
  rewrite IH. apply perm_swap.
Qed.

Lemma rank_by_distance_perm (ds : list F) :
  Permutation (rank_by_distance ds) (combine ds (arange (Z.of_nat (length ds)))).
Proof.
  unfold rank_by_distance.
  induction (combine ds (arange (Z.of_nat (length ds)))) as [|p l IH]; simpl; [reflexivity|].
  rewrite insert_ranked_perm, IH. reflexivity.
Qed.

Lemma NoDup_snd_combine {A : Type} (ds : list A) (nn : list Z) :
  NoDup nn -> NoDup (map snd (combine ds nn)).
Proof.
  intros H. revert ds. induction H as [|n nn Hn Hnn IH]; intros [|d ds]; simpl;
    try constructor; [|apply IH].
  intros Hin. apply in_map_iff in Hin. destruct Hin as ([d' n'] & E & Hin).
  simpl in E. subst n'. apply in_combine_r in Hin. contradiction.
Qed.

Lemma NoDup_snd_filter {A : Type} (f : A * Z -> bool) (l : list (A * Z)) :
  NoDup (map snd l) -> NoDup (map snd (filter f l)).
Proof.
  induction l as [|p l IH]; simpl; intros H; [constructor|].
  inversion H as [|? ? Hn Hl]; subst.
  destruct (f p); simpl; [|apply IH, Hl].
  constructor; [|apply IH, Hl].
  intros Hin. apply Hn. apply in_map_iff in Hin. destruct Hin as (x & E & Hx).
  apply filter_In in Hx. apply in_map_iff. exists x. tauto.
Qed.

Lemma NoDup_snd_firstn {A : Type} (n : nat) (l : list (A * Z)) :
  NoDup (map snd l) -> NoDup (map snd (firstn n l)).
Proof.
  revert l. induction n as [|n IH]; intros [|p l]; simpl; intros H; try constructor.
  - inversion H as [|? ? Hn Hl]; subst. intros Hin. apply Hn.
    apply in_map_iff in Hin. destruct Hin as (x & E & Hx).
    apply In_firstn in Hx. apply in_map_iff. exists x. tauto.
  - apply IH. inversion H; assumption.
Qed.

(** The rows of a neighbour search are distinct training points. *)
Lemma kneighbors_NoDup (knn : list V) (q : V) (k : Z) ds nn :
  kneighbors knn q k = OK (ds, nn) -> NoDup nn.
Proof.
  unfold kneighbors. destruct (k <=? 0); [discriminate|].
  destruct (Z.of_nat (length knn) <? k); [discriminate|].
  intros H. inversion H; subst. apply NoDup_snd_firstn.
  eapply Permutation_NoDup.
  - symmetry. apply Permutation_map, rank_by_distance_perm.
  - apply NoDup_snd_combine, sorted_lt_NoDup, arange_sorted.
Qed.

Lemma lookup_source (pool rows cands : list Z) (c : Z) :
  Forall2 (fun nn c => 0 <= nn /\ nth_error pool (Z.to_nat nn) = Some c) rows cands ->
  In c cands ->
  exists nn, In nn rows /\ 0 <= nn /\ nth_error pool (Z.to_nat nn) = Some c.
Proof.
  induction 1 as [|nn c' rows cands [Hnn Hc] HF IH]; [contradiction|].
  intros [->|Hin].
  - exists nn. split; [left; reflexivity | split; assumption].
  - destruct (IH Hin) as (nn' & Hin' & H'). exists nn'. split; [right; exact Hin' | exact H'].
Qed.

Lemma lookups_NoDup (pool rows cands : list Z) :
  NoDup pool -> NoDup rows ->
  Forall2 (fun nn c => 0 <= nn /\ nth_error pool (Z.to_nat nn) = Some c) rows cands ->
  NoDup cands.
Proof.
  intros Hpool Hrows HF. induction HF as [|nn c rows cands [Hnn Hc] HF IH]; [constructor|].
  inversion Hrows as [|? ? Hnin Hrows']; subst. constructor; [|apply IH, Hrows'].
  intros Hin. apply Hnin.
  pose proof HF as HF'. eapply lookup_source in HF'; [|exact Hin].
  destruct HF' as (nn' & Hin' & Hnn' & Hc').
  assert (E : Z.to_nat nn' = Z.to_nat nn).
  { eapply (proj1 (NoDup_nth_error pool) Hpool).
    - apply nth_error_Some. congruence.
    - congruence. }
  replace nn with nn' by lia. exact Hin'.
Qed.

(** With the invariant, the selection is made of potential negatives of
    the query, none of them altered by the cast, and all distinct. *)
Lemma selection_within_negatives
  (self : QueryDataset) (index : Z) (rnd : nat -> nat) (rk : Ranking) (negIndices : list Z) :
  cache_within_negatives self ->
  rank_candidates self index rnd = OK rk ->
  select_negatives self rk = OK negIndices ->
  0 <= rk_index rk /\
  NoDup negIndices /\
  exists pn,
    nth_error (potential_negatives self) (Z.to_nat (rk_index rk)) = Some pn /\
    incl negIndices pn.
Proof.
  intros (Hq & Hrange & Hcache) Hrk Hsel.
  destruct (select_negatives_OK _ _ _ Hrk) as (cands & HF & Hsel').
  rewrite Hsel in Hsel'. inversion Hsel'; subst negIndices; clear Hsel' Hsel.
  destruct (rank_candidates_OK _ _ _ Hrk)
    as (Hidx & _ & (pn & sample & prev & Hpn & Hs & Hprev & Hpool) & _).
  assert (H0 : 0 <= rk_index rk).
  { rewrite Forall_forall in Hq. eapply Hq, py_index_In, Hidx. }
  apply (py_index_nonneg _ H0) in Hpn. apply (py_index_nonneg _ H0) in Hprev.
  destruct (random_choice_OK _ _ _ Hs) as (_ & _ & Hincl).
  assert (Hc : forall c, In c cands -> In c pn).
  { intros c Hc.
    assert (Hin : In c (rk_negSample rk)).
    { clear - HF Hc. induction HF as [|nn c' l l' [_ Hnc] Hl IH]; [contradiction|].
      destruct Hc as [->|Hc]; [eapply nth_error_In; eauto | auto]. }
    rewrite Hpool in Hin. apply In_np_unique, in_app_or in Hin.
    destruct Hin as [Hin|Hin]; [apply (Hcache _ _ _ Hprev Hpn), Hin | apply Hincl, Hin]. }
  assert (E : map (astype_int32 (negSample_dtype self rk)) cands = cands).
  { rewrite <- (map_id cands) at 2. apply map_ext_in. intros c Hcin.
    apply astype_int32_small. eapply Hrange; [eapply nth_error_In, Hpn | apply Hc, Hcin]. }
  rewrite E. split; [exact H0|]. split.
  - destruct (ranking_search _ _ _ Hrk) as (negFeat & qFeat & Hk & _).
    eapply lookups_NoDup; [| |exact HF].
    + rewrite Hpool. apply sorted_lt_NoDup, np_unique_sorted.
    + apply NoDup_snd_firstn, NoDup_snd_filter, NoDup_snd_combine.
      eapply kneighbors_NoDup, Hk.
  - exists pn. split; [exact Hpn | exact Hc].
Qed.

Lemma cache_within_init
  (m : Manifest) (nNegSample nNeg : Z) (margin : F) (self : QueryDataset) :
  query_init m nNegSample nNeg margin = OK self ->
  numDb m <= 2 ^ 31 ->
  cache_within_negatives self.
Proof.
  intros H Hn. destruct (query_init_OK _ _ _ _ H) as (_ & _ & _ & Hq & Hpn).
  split; [|split].
  - rewrite Hq. apply Forall_forall. intros q Hin. apply In_np_where in Hin. tauto.
  - intros pn c Hin Hc. rewrite Hpn in Hin. apply in_map_iff in Hin.
    destruct Hin as (coord & <- & _). apply In_setdiff1d in Hc.
    destruct Hc as [Hc _]. apply In_arange in Hc. lia.
  - intros q nc pn Hnc _.
    assert (E : nc = []).
    { unfold query_init in H. inv_binds H. inversion H; subst; simpl in *.
      rewrite nth_error_map in Hnc.
      destruct (nth_error (arange (numQ m)) q); simpl in Hnc; congruence. }
    subst nc. intros x [].
Qed.

Lemma cache_within_getitem (self : QueryDataset) (index : Z) (rnd : nat -> nat) :
  cache_within_negatives self ->
  cache_within_negatives (snd (getitem (Img:=Img) self index rnd)).
Proof.
  intros Hinv.
  destruct (getitem_cases self index rnd)
    as [E|(rk & negIndices & k & Hrk & _ & Hsel & Hk & Hlt & E)]; rewrite E; [exact Hinv|].
  destruct (@selection_within_negatives self index rnd rk negIndices Hinv Hrk Hsel)
    as (H0 & _ & pn & Hpn & Hincl).
  apply (py_pos_nonneg _ H0) in Hk. subst k.
  destruct Hinv as (Hq & Hrange & Hcache). simpl.
  split; [exact Hq|]. split; [exact Hrange|].
  intros q nc pn' Hnc Hpn'. simpl in Hnc, Hpn'.
  destruct (Nat.eq_dec q (Z.to_nat (rk_index rk))) as [->|Hne].
  - rewrite nth_error_list_set_same in Hnc by exact Hlt.
    inversion Hnc; subst nc. rewrite Hpn in Hpn'. inversion Hpn'; subst pn'. exact Hincl.
  - rewrite nth_error_list_set_other in Hnc by exact Hne.
    eapply Hcache; eauto.
Qed.

Lemma mine_all_keeps (self : QueryDataset)
  (calls : list (option (list V) * Z * (nat -> nat))) :
  cache_within_negatives self ->
  cache_within_negatives (mine_all (Img:=Img) self calls) /\
  potential_negatives (mine_all (Img:=Img) self calls) = potential_negatives self /\
  nontrivial_positives (mine_all (Img:=Img) self calls) = nontrivial_positives self /\
  queries (mine_all (Img:=Img) self calls) = queries self /\
  dbStruct (mine_all (Img:=Img) self calls) = dbStruct self.
Proof.
  revert self. induction calls as [|[[c index] rnd] rest IH]; intros self Hinv; simpl.
  - split; [exact Hinv|]. repeat split; reflexivity.
  - assert (Hc : cache_within_negatives (set_cache self c)) by exact Hinv.
    destruct (IH _ (@cache_within_getitem (set_cache self c) index rnd Hc))
      as (H1 & H2 & H3 & H4 & H5).
    split; [exact H1|].
    rewrite H2, H3, H4, H5.
    destruct (getitem_cases (set_cache self c) index rnd)
      as [E|(rk & negIndices & k & _ & _ & _ & _ & _ & E)]; rewrite E;
      repeat split; reflexivity.
Qed.

(** X24. From construction on, whatever is mined and whichever cache is
    set in between, the negative cache of a query holds none but its
    potential negatives, for a manifest of at most [2 ^ 31] database
    images; the candidate sets themselves never change. *)
Theorem cache_stays_within_negatives
  (m : Manifest) (nNegSample nNeg : Z) (margin : F) (self : QueryDataset)
  (calls : list (option (list V) * Z * (nat -> nat))) :
  query_init m nNegSample nNeg margin = OK self ->
  numDb m <= 2 ^ 31 ->
  cache_within_negatives (mine_all (Img:=Img) self calls) /\
  potential_negatives (mine_all (Img:=Img) self calls) = potential_negatives self /\
  nontrivial_positives (mine_all (Img:=Img) self calls) = nontrivial_positives self /\
  queries (mine_all (Img:=Img) self calls) = queries self.
Proof.
  intros H Hn.
  destruct (@mine_all_keeps self calls (@cache_within_init m nNegSample nNeg margin self H Hn))
    as (H1 & H2 & H3 & H4 & _).
  split; [exact H1|]. split; [exact H2|]. split; assumption.
Qed.

(** X25. Hence a mined negative is never a positive of the evaluation:
    at any time after construction, every negative that a call selects
    for a query is a database index of [[0, numDb)] that is not within
    [posDistThr] of the query's coordinate. *)
Theorem mined_negatives_are_far
  (m : Manifest) (nNegSample nNeg : Z) (margin : F) (self0 : QueryDataset)
  (calls : list (option (list V) * Z * (nat -> nat)))
  (c : option (list V)) (index : Z) (rnd : nat -> nat)
  (rk : Ranking) (negIndices : list Z) :
  query_init m nNegSample nNeg margin = OK self0 ->
  numDb m <= 2 ^ 31 ->
  rank_candidates (set_cache (mine_all (Img:=Img) self0 calls) c) index rnd = OK rk ->
  select_negatives (set_cache (mine_all (Img:=Img) self0 calls) c) rk = OK negIndices ->
  exists coord,
    nth_error (utmQ m) (Z.to_nat (rk_index rk)) = Some coord /\
    forall n, In n negIndices ->
              0 <= n < numDb m /\ ~ positive_neighborhood m coord n.
Proof.
  intros H Hn Hrk Hsel.
  destruct (@mine_all_keeps self0 calls (@cache_within_init m nNegSample nNeg margin self0 H Hn))
    as (Hinv & Hpn & _).
  assert (Hinv' : cache_within_negatives (set_cache (mine_all (Img:=Img) self0 calls) c))
    by exact Hinv.
  destruct (@selection_within_negatives _ index rnd rk negIndices Hinv' Hrk Hsel)
    as (H0 & _ & pn & Hq & Hincl).
  simpl in Hq. rewrite Hpn in Hq.
  destruct (query_init_OK _ _ _ _ H) as (_ & _ & _ & _ & Hneg).
  rewrite Hneg, nth_error_map in Hq.
  destruct (nth_error (utmQ m) (Z.to_nat (rk_index rk))) as [coord|]; [|discriminate].
  exists coord. split; [reflexivity|]. simpl in Hq. inversion Hq; subst pn.
  intros n Hin. apply Hincl, In_setdiff1d in Hin. destruct Hin as [Hr Hno].
  apply In_arange in Hr. split; [exact Hr|]. intros Hp. apply Hno, In_within_radius, Hp.
Qed.

(** X26. At any time after construction the negatives that a call
    selects are pairwise distinct database images. *)
Theorem negatives_distinct
  (m : Manifest) (nNegSample nNeg : Z) (margin : F) (self0 : QueryDataset)
  (calls : list (option (list V) * Z * (nat -> nat)))
  (c : option (list V)) (index : Z) (rnd : nat -> nat)
  (rk : Ranking) (negIndices : list Z) :
  query_init m nNegSample nNeg margin = OK self0 ->
  numDb m <= 2 ^ 31 ->
  rank_candidates (set_cache (mine_all (Img:=Img) self0 calls) c) index rnd = OK rk ->
  select_negatives (set_cache (mine_all (Img:=Img) self0 calls) c) rk = OK negIndices ->
  NoDup negIndices.
Proof.
  intros H Hn Hrk Hsel.
  destruct (@mine_all_keeps self0 calls (@cache_within_init m nNegSample nNeg margin self0 H Hn))
    as (Hinv & _).
  assert (Hinv' : cache_within_negatives (set_cache (mine_all (Img:=Img) self0 calls) c))
    by exact Hinv.
  exact (proj1 (proj2 (@selection_within_negatives _ index rnd rk negIndices Hinv' Hrk Hsel))).
Qed.

(** X27. The negatives of an example are candidates again the next time
    the query is mined, whatever is drawn and whichever cache is set
    then. *)
Theorem negatives_carried_over
  (self self' : QueryDataset) (index : Z) (rnd rnd' : nat -> nat)
  (ex : @MinedTuple Img) (c : option (list V)) (rk' : Ranking) :
  getitem self index rnd = (OK (Some ex), self') ->
  rank_candidates (set_cache self' c) index rnd' = OK rk' ->
  forall n, In n (skipn 2 (snd ex)) -> In n (rk_negSample rk').
Proof.
  unfold getitem. intros H Hrk'.
  destruct (rank_candidates self index rnd) as [rk|e] eqn:Hrk; [|discriminate].
  destruct (np_sum (violatingNeg self rk) <? 1); [discriminate|].
  destruct (select_negatives self rk) as [negIndices|e]; [|discriminate].
  destruct (py_setitem (negCache self) (rk_index rk) negIndices) as [nc|e] eqn:Hset;
    [|discriminate].
  inversion H as [[Hex Hself]]. clear H.
  apply bind_OK in Hex. destruct Hex as (x & Hx & Hex). inversion Hex; subst x; clear Hex.
  unfold load_example in Hx.
  do 6 (apply bind_OK in Hx; destruct Hx as (? & _ & Hx)).
  inversion Hx; subst ex; clear Hx. simpl.
  pose proof (py_setitem_index _ _ _ Hset) as Hidx.
  destruct (rank_candidates_OK _ _ _ Hrk) as (Hq & _).
  destruct (rank_candidates_OK _ _ _ Hrk')
    as (Hq' & _ & (pn & sample & prev & _ & _ & Hprev & Hpool) & _).
  subst self'. simpl in Hq', Hprev.
  rewrite Hq in Hq'. inversion Hq' as [Eq]. rewrite <- Eq in Hprev.
  rewrite Hidx in Hprev. inversion Hprev; subst prev.
  intros n Hn. rewrite Hpool. apply In_np_unique, in_or_app. left. exact Hn.
Qed.

Lemma kneighbors_few (knn : list V) (q : V) (k : Z) :
  Z.of_nat (length knn) < k -> kneighbors knn q k = Err ValueError.
Proof.
  intros H. unfold kneighbors.
  destruct (k <=? 0); [reflexivity|].
  apply Z.ltb_lt in H. rewrite H. reflexivity.
Qed.

Lemma kneighbors_returns (knn : list V) (q : V) (k : Z) :
  0 < k <= Z.of_nat (length knn) ->
  exists ds nn, kneighbors knn q k = OK (ds, nn).
Proof.
  intros H. unfold kneighbors.
  replace (k <=? 0) with false by (symmetry; apply Z.leb_gt; lia).
  replace (Z.of_nat (length knn) <? k) with false by (symmetry; apply Z.ltb_ge; lia).
  eauto.
Qed.

Lemma Forall2_map_l {A B C : Type} (R : B -> C -> Prop) (f : A -> B)
  (l : list A) (l' : list C) :
  Forall2 R (map f l) l' -> Forall2 (fun a c => R (f a) c) l l'.
Proof.
  revert l'. induction l as [|a t IH]; intros l' H; inversion H; subst; constructor.
  - assumption.
  - apply IH. assumption.
Qed.

Lemma load_example_indices (self : QueryDataset) (q p : Z) (negs : list Z)
  (x : @MinedTuple Img) :
  load_example self q p negs = OK x -> snd x = q :: p :: negs.
Proof.
  unfold load_example. intros H. inv_binds H. inversion H. reflexivity.
Qed.

(** C6. The ranking search asks for [nNeg * 10] neighbours.  A ranking
    that is returned has exactly [10 * nNeg] rows, and when the pool (the
    previous negatives of the query together with the draws) has fewer
    than [10 * nNeg] distinct indices, the call raises.  For a call that
    has found its positive and read the embeddings of its pool, the
    ranking is what the one search [kneighbors(qFeat, nNeg * 10)] among
    these embeddings returns: with [nNeg] positive and at least
    [10 * nNeg] distinct indices in the pool the search returns and the
    ranking has [10 * nNeg] rows; with fewer the call raises [ValueError]
    and leaves the data set as it was. *)
Theorem ranking_wants_ten_per_negative
  (self : QueryDataset) (index : Z) (rnd : nat -> nat) :
  (forall rk : Ranking,
      rank_candidates self index rnd = OK rk ->
      Z.of_nat (length (rk_dNeg rk)) = 10 * nNeg self /\
      Z.of_nat (length (rk_negNN rk)) = 10 * nNeg self) /\
  (forall (q : Z) (pn sample prev : list Z),
      py_index (queries self) index = OK q ->
      py_index (potential_negatives self) q = OK pn ->
      random_choice pn (nNegSample self) rnd = OK sample ->
      py_index (negCache self) q = OK prev ->
      Z.of_nat (length (nodup Z.eq_dec (prev ++ sample))) < 10 * nNeg self ->
      raises (fst (getitem (Img:=Img) self index rnd))) /\
  (forall (q : Z) (h5feat : list V) (qFeat : V) (ntp : list Z) (posFeat knnPos : list V)
          (dPos : F) (j posIndex : Z) (pn sample prev : list Z) (negFeat : list V),
      py_index (queries self) index = OK q ->
      cache self = Some h5feat ->
      h5_row h5feat (q + numDb (dbStruct self)) = OK qFeat ->
      py_index (nontrivial_positives self) q = OK ntp ->
      h5_rows h5feat ntp = OK posFeat ->
      fit posFeat = OK knnPos ->
      kneighbors knnPos qFeat 1 = OK ([dPos], [j]) ->
      py_index ntp j = OK posIndex ->
      py_index (potential_negatives self) q = OK pn ->
      random_choice pn (nNegSample self) rnd = OK sample ->
      py_index (negCache self) q = OK prev ->
      h5_rows h5feat (np_unique (prev ++ sample)) = OK negFeat ->
      let ranking_of (found : list F * list Z) :=
        {| rk_index := q;
           rk_dPos := dPos;
           rk_posIndex := posIndex;
           rk_negSample := np_unique (prev ++ sample);
           rk_dNeg := fst found;
           rk_negNN := snd found |} in
      rank_candidates self index rnd =
        (knn <- fit negFeat ;;
         found <- kneighbors knn qFeat (nNeg self * 10) ;;
         OK (ranking_of found)) /\
      (forall knn : list V,
          fit negFeat = OK knn ->
          0 < nNeg self ->
          10 * nNeg self <= Z.of_nat (length (nodup Z.eq_dec (prev ++ sample))) ->
          exists (dNeg : list F) (negNN : list Z),
            kneighbors knn qFeat (nNeg self * 10) = OK (dNeg, negNN) /\
            Z.of_nat (length dNeg) = 10 * nNeg self /\
            Z.of_nat (length negNN) = 10 * nNeg self /\
            rank_candidates self index rnd = OK (ranking_of (dNeg, negNN))) /\
      (Z.of_nat (length (nodup Z.eq_dec (prev ++ sample))) < 10 * nNeg self ->
       getitem (Img:=Img) self index rnd = (Err ValueError, self))).
Proof.
  split; [|split].
  - intros rk Hrk.
    destruct (rank_candidates_OK _ _ _ Hrk) as (_ & _ & _ & _ & Hd & Hn & _).
    lia.
  - intros q pn sample prev Hq Hpn Hs Hprev Hlt.
    apply getitem_raises. eapply starved_pool_raises; eauto.
    rewrite length_np_unique. lia.
  - intros q h5feat qFeat ntp posFeat knnPos dPos j posIndex pn sample prev negFeat
           Hq Hc HqF Hntp HpF HfitP HkP Hpos Hpn Hs Hprev HnF ranking_of.
    assert (E : rank_candidates self index rnd =
                (knn <- fit negFeat ;;
                 found <- kneighbors knn qFeat (nNeg self * 10) ;;
                 OK (ranking_of found))).
    { unfold rank_candidates. rewrite Hq. cbn [bind]. rewrite Hc. cbn [of_option bind].
      rewrite HqF. cbn [bind]. rewrite Hntp. cbn [bind]. rewrite HpF. cbn [bind].
      rewrite HfitP. cbn [bind]. rewrite HkP. cbn [bind].
      change (py_index [dPos] 0) with (OK dPos). cbn [bind].
      change (py_index [j] 0) with (OK j). cbn [bind].
      rewrite Hpos. cbn [bind]. rewrite Hpn. cbn [bind]. rewrite Hs. cbn [bind].
      rewrite Hprev. cbn [bind]. rewrite HnF. cbn [bind].
      destruct (fit negFeat) as [knn|e]; cbn [bind]; [|reflexivity].
      destruct (kneighbors knn qFeat (nNeg self * 10)) as [[dNeg negNN]|e]; reflexivity. }
    pose proof (h5_rows_length _ _ HnF) as Hlen. rewrite length_np_unique in Hlen.
    split; [exact E|]. split.
    + intros knn Hfit Hn Hpool. rewrite E, Hfit. cbn [bind].
      apply fit_OK in Hfit. subst knn.
      destruct (kneighbors_returns negFeat qFeat (k:=nNeg self * 10))
        as (dNeg & negNN & Hk); [lia|].
      destruct (kneighbors_OK _ _ _ Hk) as (_ & Hd & Hnn).
      exists dNeg, negNN. rewrite Hk. cbn [bind].
      split; [reflexivity|]. split; [lia|]. split; [lia | reflexivity].
    + intros Hfew. unfold getitem. rewrite E.
      destruct (fit negFeat) as [knn|e] eqn:Hfit.
      * apply fit_OK in Hfit. subst knn. cbn [bind].
        rewrite kneighbors_few by lia. reflexivity.
      * destruct negFeat; simpl in Hfit; [|discriminate].
        inversion Hfit. reflexivity.
Qed.

(** C1. In every mining call that gets as far as the ranking, [dPos] is
    the distance from the query's embedding to that of the nontrivial
    positive chosen (a nearest one under the order laws), every ranked row
    is a candidate with the distance of its embedding, and the mask
    [violatingNeg] is true at a row of distance [d] exactly when
    [d < dPos + margin ** 0.5].  The rows kept are the first [nNeg] of the
    violating ones, in the order of the ranking, which is ascending in
    distance under the order laws.  The call selects the candidates at the
    rows kept, one for each, cast to [np.int32], which leaves database
    indices below [2^31] as they are: when no row violates it returns [None] and leaves
    the data set as it was; otherwise it stores the selection in the
    negative cache of the query and goes on to load the images, and an
    example that it returns lists the query, the positive and the
    selection, in this order. *)
Theorem violating_negatives_selected
  (self : QueryDataset) (index : Z) (rnd : nat -> nat) (rk : Ranking) :
  rank_candidates self index rnd = OK rk ->
  let thr := f_add (rk_dPos rk) (f_pow_half (margin self)) in
  let ranked := combine (rk_dNeg rk) (rk_negNN rk) in
  let violating := filter (fun p => f_ltb (fst p) thr) ranked in
  let kept := firstn (Z.to_nat (nNeg self)) violating in
  (exists (h5feat : list V) (qFeat : V) (ntp : list Z) (posFeat : list V) (j : Z) (p : V),
      cache self = Some h5feat /\
      h5_row h5feat (rk_index rk + numDb (dbStruct self)) = OK qFeat /\
      py_index (nontrivial_positives self) (rk_index rk) = OK ntp /\
      h5_rows h5feat ntp = OK posFeat /\
      py_index ntp j = OK (rk_posIndex rk) /\
      nth_error posFeat (Z.to_nat j) = Some p /\
      rk_dPos rk = dist qFeat p /\
      (ScalarLaws F ->
       forall p', In p' posFeat -> f_leb (rk_dPos rk) (dist qFeat p') = true)) /\
  (exists (h5feat : list V) (qFeat : V),
      cache self = Some h5feat /\
      h5_row h5feat (rk_index rk + numDb (dbStruct self)) = OK qFeat /\
      forall d nn,
        In (d, nn) ranked ->
        exists (c : Z) (v : V),
          py_index (rk_negSample rk) nn = OK c /\
          h5_row h5feat c = OK v /\
          d = dist qFeat v) /\
  (forall j d, nth_error (rk_dNeg rk) j = Some d ->
               nth_error (violatingNeg self rk) j = Some (f_ltb d thr)) /\
  (forall p, In p violating <-> In p ranked /\ f_ltb (fst p) thr = true) /\
  (exists rest, violating = kept ++ rest) /\
  (length kept <= Z.to_nat (nNeg self))%nat /\
  (ScalarLaws F -> StronglySorted (fun a b => f_leb a b = true) (map fst kept)) /\
  exists cands negIndices : list Z,
    Forall2 (fun row c => 0 <= snd row /\
                          nth_error (rk_negSample rk) (Z.to_nat (snd row)) = Some c)
            kept cands /\
    length negIndices = length kept /\
    ((forall c, In c cands -> 0 <= c < 2 ^ 31) -> negIndices = cands) /\
    select_negatives self rk = OK negIndices /\
    (violating = [] -> getitem (Img:=Img) self index rnd = (OK None, self)) /\
    (violating <> [] ->
     exists k : nat,
       py_pos (length (negCache self)) (rk_index rk) = Some k /\
       let self' := set_negCache self (list_set (negCache self) k negIndices) in
       getitem (Img:=Img) self index rnd =
         (x <- load_example self' (rk_index rk) (rk_posIndex rk) negIndices ;;
          OK (Some x), self') /\
       forall (ex : @MinedTuple Img) (after : QueryDataset),
         getitem self index rnd = (OK (Some ex), after) ->
         snd ex = rk_index rk :: rk_posIndex rk :: negIndices /\
         py_index (negCache after) (rk_index rk) = OK negIndices).
Proof.
  intros Hrk thr ranked violating kept.
  destruct (rank_candidates_OK _ _ _ Hrk)
    as (_ & _ & (pn & sample & prev & _ & _ & Hprev & _) & Hpos & Hd & Hn & _ & Hsorted).
  split; [exact (best_positive _ _ _ Hrk)|].
  split; [exact (ranked_candidate _ _ _ Hrk)|].
  split; [|split; [|split; [|split; [|split]]]].
  - intros j d Hj. unfold violatingNeg. rewrite nth_error_map, Hj. reflexivity.
  - intros p. apply filter_In.
  - exists (skipn (Z.to_nat (nNeg self)) violating). symmetry. apply firstn_skipn.
  - unfold kept. rewrite length_firstn. lia.
  - intros L. apply StronglySorted_map. unfold kept, violating, ranked.
    apply StronglySorted_firstn, StronglySorted_filter.
    apply (@StronglySorted_combine_fst _ _ (fun a b => f_leb a b = true)). auto.
  - destruct (select_negatives_OK _ _ _ Hrk) as (cands & HF & Hsel).
    cbv zeta in HF. fold thr ranked violating kept in HF.
    exists cands, (map (astype_int32 (negSample_dtype self rk)) cands).
    assert (Hsum : np_sum (violatingNeg self rk) = Z.of_nat (length violating)).
    { unfold violatingNeg, violating, ranked, thr. symmetry.
      apply (length_filter_count
               (fun d => f_ltb d (f_add (rk_dPos rk) (f_pow_half (margin self))))).
      lia. }
    split; [|split; [|split; [|split; [exact Hsel|split]]]].
    + apply Forall2_map_l in HF. exact HF.
    + rewrite length_map, <- (Forall2_length HF), length_map. reflexivity.
    + intros Hb. rewrite <- (map_id cands) at 2. apply map_ext_in.
      intros c Hc. apply astype_int32_small, Hb, Hc.
    + intros Hv. unfold getitem. rewrite Hrk, Hsum, Hv. reflexivity.
    + intros Hv.
      assert (Hlt : (np_sum (violatingNeg self rk) <? 1) = false).
      { rewrite Hsum. apply Z.ltb_ge. destruct violating; [congruence | simpl; lia]. }
      assert (Hk : exists k, py_pos (length (negCache self)) (rk_index rk) = Some k).
      { unfold py_index in Hprev.
        destruct (py_pos (length (negCache self)) (rk_index rk)) as [k|];
          [eauto | discriminate]. }
      destruct Hk as (k & Hk). exists k. split; [exact Hk|].
      assert (E : getitem (Img:=Img) self index rnd =
                  (x <- load_example
                          (set_negCache self
                             (list_set (negCache self) k
                                (map (astype_int32 (negSample_dtype self rk)) cands)))
                          (rk_index rk) (rk_posIndex rk)
                          (map (astype_int32 (negSample_dtype self rk)) cands) ;;
                   OK (Some x),
                   set_negCache self
                     (list_set (negCache self) k
                        (map (astype_int32 (negSample_dtype self rk)) cands)))).
      { unfold getitem. rewrite Hrk, Hlt, Hsel. unfold py_setitem. rewrite Hk.
        reflexivity. }
      split; [exact E|].
      intros ex after Hex. rewrite E in Hex. inversion Hex as [[Hload Hafter]].
      split.
      * inv_bind Hload. inversion Hload; subst ex.
        eapply load_example_indices; eassumption.
      * simpl. eapply py_setitem_index. unfold py_setitem. rewrite Hk. reflexivity.
Qed.

End MiningFacts.

(** ** The further results on the small data sets *)

Lemma dump_then_load_witness :
  distinct_keys Trial.record = true /\
  exists j, json_dump Trial.record = OK j /\ json_load j = listify Trial.record.
Proof.
  split; [reflexivity|].
  destruct (dump_then_load Trial.record eq_refl) as (j & Hj & Hl & _).
  exists j. split; assumption.
Defined.

Lemma serialize_then_deserialize_witness :
  exists fs',
    serialize Trial.record "out.json" (Demo.disk Demo.doc_manifest) = OK fs' /\
    fs' "manifest.json"%string = Some Demo.doc_manifest /\
    exists r, deserialize fs' "out.json" "output" = OK r /\
              getattr r "utmDb" = Some (OK (Field (PList [PList [PInt 5; PInt 0]]))).
Proof.
  destruct (serialize_then_deserialize (Demo.disk Demo.doc_manifest) "out.json" "output"
              (match Trial.record with PDict items => items | _ => [] end)
              eq_refl eq_refl) as (fs' & Hs & Hother & Hd).
  exists fs'. split; [exact Hs|]. split.
  - rewrite Hother by discriminate. reflexivity.
  - eexists. split; [exact Hd | reflexivity].
Defined.

Lemma deserialize_returns_witness :
  Demo.disk Trial.doc_repeated "manifest.json"%string = Some Trial.doc_repeated /\
  exists r, deserialize (Demo.disk Trial.doc_repeated) "manifest.json" "output" = OK r /\
            getattr r "numDb" = Some (OK (Field (PInt 5))) /\
            getattr r "index" = Some (OK (TupleMethod "index")) /\
            getattr r "utmDb" = Some (Err AttributeError).
Proof.
  split; [reflexivity|].
  destruct (deserialize_returns (Demo.disk Trial.doc_repeated) "manifest.json" "output"
              (ms := [("numDb", JInt 1); ("whichSet", JStr "train"); ("numDb", JInt 5)]%string)
              eq_refl eq_refl) as (fields & values & Hr & _ & _ & _ & Hget).
  eexists. split; [exact Hr|]. split; [|split].
  - exact (Hget "numDb"%string eq_refl eq_refl).
  - exact (Hget "index"%string eq_refl eq_refl).
  - exact (Hget "utmDb"%string eq_refl eq_refl).
Defined.

Lemma deserialize_errors_witness :
  deserialize (Demo.disk Trial.doc_keyword) "other.json" "output" = Err OSError /\
  deserialize (Demo.disk Trial.doc_list) "manifest.json" "output" = Err AttributeError /\
  deserialize (Demo.disk Trial.doc_keyword) "manifest.json" "output" = Err ValueError.
Proof.
  split; [|split].
  - apply (proj1 (deserialize_errors (Demo.disk Trial.doc_keyword) "other.json" "output")).
    reflexivity.
  - apply (proj1 (proj2 (deserialize_errors (Demo.disk Trial.doc_list)
                           "manifest.json" "output")) Trial.doc_list eq_refl).
    intros ms H. discriminate H.
  - apply (proj2 (proj2 (deserialize_errors (Demo.disk Trial.doc_keyword)
                           "manifest.json" "output"))
             [("class", JStr "train")]%string eq_refl eq_refl).
    reflexivity.
Defined.

Lemma image_path_of_identifier_witness :
  image_path "s1:000" = OK "/mydata/dataset/STHEREO/s1/rgb_left/000.png"%string /\
  image_path "s1" = Err IndexError.
Proof.
  apply (@image_path_of_identifier "s1" "000"); try reflexivity. discriminate.
Defined.

Lemma manifest_file_of_dataset_witness :
  manifest_file "urban" = "/mydata/dataset/STHEREO/config/urban_query_db_info.json"%string /\
  manifest_file "/tmp/urban" = "/tmp/urban_query_db_info.json"%string.
Proof.
  split.
  - apply (proj1 (manifest_file_of_dataset "urban"%string)). reflexivity.
  - apply (proj2 (manifest_file_of_dataset "/tmp/urban"%string)). reflexivity.
Defined.

Lemma whole_init_layout_witness :
  exists self : @WholeDataset Z Z,
    whole_init Demo.manifest false = OK self /\ whole_len self = 14.
Proof.
  destruct (whole_init Demo.manifest false) as [self|e] eqn:E; [|discriminate E].
  exists self. split; [reflexivity|].
  destruct (whole_init_layout Demo.manifest false E) as (_ & _ & Hlen & _).
  exact Hlen.
Defined.

Lemma whole_init_wants_colons_witness :
  (exists self : @WholeDataset Z Z, whole_init Trial.bad_identifier true = OK self) /\
  whole_init Trial.bad_identifier false = Err IndexError.
Proof.
  split.
  - apply (proj1 (whole_init_wants_colons Trial.bad_identifier true)). reflexivity.
  - apply (proj2 (whole_init_wants_colons Trial.bad_identifier false)). reflexivity.
Defined.

Lemma whole_getitem_index_space_witness :
  exists self : @WholeDataset Z Z,
    whole_init Demo.manifest false = OK self /\
    whole_getitem (Img:=string) self 13
      = OK ("/mydata/dataset/STHEREO/s2/rgb_left/001.png"%string, 13) /\
    whole_getitem (Img:=string) self 14 = Err IndexError.
Proof.
  destruct (whole_init Demo.manifest false) as [self|e] eqn:E; [|discriminate E].
  exists self. split; [reflexivity|].
  destruct (whole_getitem_index_space (Img:=string) Demo.manifest E) as (_ & Hq & Hout).
  split.
  - exact (Hq 1%nat "s2:001"%string eq_refl).
  - apply Hout.
    destruct (whole_init_layout Demo.manifest false E) as (_ & _ & Hlen & _).
    rewrite Hlen. vm_compute. discriminate.
Defined.

Lemma getPositives_rows_witness :
  getPositives Demo.whole = (OK [[0]; []], Demo.whole_resolved, 1%nat) /\
  forall i, In i [0] <-> positive_neighborhood Demo.manifest 0 i.
Proof.
  assert (H : getPositives Demo.whole = (OK [[0]; []], Demo.whole_resolved, 1%nat))
    by reflexivity.
  split; [exact H|].
  destruct (getPositives_rows Demo.whole eq_refl H)
    as (_ & _ & _ & _ & _ & dss & _ & Hrows).
  destruct (Hrows 0%nat 0 eq_refl) as (row & drow & Hr & _ & _ & Hin & _).
  inversion Hr; subst row. exact Hin.
Defined.

Lemma getPositives_without_coordinates_witness :
  fst (fst (getPositives (whole_of Demo.no_database []))) = Err ValueError /\
  snd (fst (getPositives (whole_of Demo.no_database []))) = whole_of Demo.no_database [].
Proof.
  destruct (getPositives_without_coordinates (whole_of Demo.no_database []) eq_refl)
    as (Hraise & Hsame).
  assert (R : fst (fst (getPositives (whole_of Demo.no_database []))) = Err ValueError)
    by (apply Hraise; left; reflexivity).
  split; [exact R|].
  apply Hsame. exists ValueError. exact R.
Defined.

Lemma negatives_complement_evaluation_positives_witness :
  query_init Demo.manifest 11 1 16 = OK (Demo.built 16) /\
  exists ps whole1,
    getPositives (whole_of Demo.manifest []) = (OK ps, whole1, 1%nat) /\
    potential_negatives (Demo.built 16)
      = map (fun pos => setdiff1d (arange 12) pos) ps.
Proof.
  assert (H : query_init Demo.manifest 11 1 16 = OK (Demo.built 16)) by reflexivity.
  split; [exact H|].
  destruct (negatives_complement_evaluation_positives Demo.manifest 11 1 16 [] H)
    as (ps & whole1 & Hg & Hpn & _).
  exists ps, whole1. split; [exact Hg | exact Hpn].
Defined.

Lemma collate_fn_drops_skips_witness :
  collate_fn Trial.two_examples
    = collate_fn (map Some (drop_none Trial.two_examples)) /\
  collate_fn (Img:=string) [None; None] = None.
Proof.
  split.
  - exact (proj1 (collate_fn_drops_skips Trial.two_examples)).
  - apply (proj2 (collate_fn_drops_skips (Img:=string) [None; None])).
    repeat constructor.
Defined.

Lemma collate_fn_counts_witness :
  collate_fn Trial.two_examples
    = Some (["q0"; "q1"], ["p0"; "p1"], ["n0"; "n1"; "n2"], [2; 1],
            [0; 3; 7; 8; 1; 4; 9])%string /\
  length [0; 3; 7; 8; 1; 4; 9] = (2 * 2 + 3)%nat.
Proof.
  assert (H : collate_fn Trial.two_examples
              = Some (["q0"; "q1"], ["p0"; "p1"], ["n0"; "n1"; "n2"], [2; 1],
                      [0; 3; 7; 8; 1; 4; 9])%string) by reflexivity.
  split; [exact H|].
  destruct (collate_fn_counts Trial.two_examples H) as (_ & _ & _ & _ & _ & _ & Hidx).
  apply Hidx. repeat constructor.
Defined.

Lemma nontrivial_positives_rows_witness :
  query_init Demo.manifest 11 1 16 = OK (Demo.built 16) /\
  exists row, nth_error (nontrivial_positives (Demo.built 16)) 0 = Some row /\
              StronglySorted Z.lt row /\ In 0 row.
Proof.
  assert (H : query_init Demo.manifest 11 1 16 = OK (Demo.built 16)) by reflexivity.
  split; [exact H|].
  destruct (nontrivial_positives_rows Demo.manifest 11 1 16 H) as (_ & Hrows).
  destruct (Hrows 0%nat 0 eq_refl) as (row & Hr & Hs & Hin).
  exists row. split; [exact Hr|]. split; [exact Hs|].
  apply Hin. split; [discriminate|]. exists 5. split; reflexivity.
Defined.

Lemma active_queries_witness :
  query_init Demo.manifest 11 1 16 = OK (Demo.built 16) /\
  In 0 (queries (Demo.built 16)) /\ ~ In 1 (queries (Demo.built 16)) /\
  query_len (Demo.built 16) <= 2.
Proof.
  assert (H : query_init Demo.manifest 11 1 16 = OK (Demo.built 16)) by reflexivity.
  split; [exact H|].
  destruct (active_queries Demo.manifest 11 1 16 H) as (_ & Hlen & Hrow & _).
  split; [|split].
  - apply Hrow. split; [discriminate|]. exists [0]. split; [reflexivity | discriminate].
  - intros Hin. apply Hrow in Hin. destruct Hin as (_ & row & Hr & Hne).
    inversion Hr; subst row. apply Hne. reflexivity.
  - exact (proj2 Hlen).
Defined.

Lemma nontrivial_positive_not_negative_witness :
  f_leb (f_pow_half (nonTrivPosDistSqThr Demo.manifest)) (posDistThr Demo.manifest) = true /\
  query_init Demo.manifest 11 1 16 = OK (Demo.built 16) /\
  ~ (In 0 [0] /\ In 0 [1; 2; 3; 4; 5; 6; 7; 8; 9; 10; 11]).
Proof.
  assert (H : query_init Demo.manifest 11 1 16 = OK (Demo.built 16)) by reflexivity.
  split; [reflexivity|]. split; [exact H|].
  exact (nontrivial_positive_not_negative Demo.manifest 11 1 16 eq_refl H
           0%nat (row:=[0]) (pn:=[1; 2; 3; 4; 5; 6; 7; 8; 9; 10; 11]) eq_refl eq_refl 0).
Defined.

Example wide_nontrivial_overlap :
  exists self,
    query_init Trial.wide_nontrivial 11 1 16 = OK self /\
    nontrivial_positives self = [[0; 1]] /\
    potential_negatives self = [[1]].
Proof.
  eexists. split; [reflexivity|]. split; reflexivity.
Qed.

Lemma fresh_dataset_cannot_mine_witness :
  query_init Demo.manifest 11 1 16 = OK (Demo.built 16) /\
  raises (fst (getitem (Img:=string) (Demo.built 16) 0 Demo.draws)) /\
  snd (getitem (Img:=string) (Demo.built 16) 0 Demo.draws) = Demo.built 16.
Proof.
  assert (H : query_init Demo.manifest 11 1 16 = OK (Demo.built 16)) by reflexivity.
  split; [exact H|].
  destruct (fresh_dataset_cannot_mine (Img:=string) Demo.manifest 11 1 16 H) as (_ & _ & Hcall).
  exact (Hcall 0 Demo.draws).
Defined.


Lemma image_failure_after_commit_witness :
  rank_candidates (Demo.dataset_with 16) 0 Demo.draws = OK Demo.ranking /\
  select_negatives (Demo.dataset_with 16) Demo.ranking = OK [1] /\
  exists self',
    getitem (IL:=Trial.no_images) (Demo.dataset_with 16) 0 Demo.draws = (Err OSError, self') /\
    py_index (negCache self') 0 = OK [1].
Proof.
  assert (H : rank_candidates (Demo.dataset_with 16) 0 Demo.draws = OK Demo.ranking)
    by reflexivity.
  split; [exact H|]. split; [reflexivity|].
  exact (image_failure_after_commit (IL:=Trial.no_images) (Demo.dataset_with 16) 0 Demo.draws
           (rk:=Demo.ranking) (negIndices:=[1]) (e:=OSError) H eq_refl eq_refl eq_refl).
Defined.

Lemma negatives_count_witness :
  rank_candidates (Demo.dataset_with 16) 0 Demo.draws = OK Demo.ranking /\
  exists negIndices,
    select_negatives (Demo.dataset_with 16) Demo.ranking = OK negIndices /\
    Z.of_nat (length negIndices) = 1.
Proof.
  assert (H : rank_candidates (Demo.dataset_with 16) 0 Demo.draws = OK Demo.ranking)
    by reflexivity.
  split; [exact H|].
  destruct (negatives_count (Demo.dataset_with 16) 0 Demo.draws H) as (negIndices & Hs & Hl & _).
  exists negIndices. split; [exact Hs | exact Hl].
Defined.

Lemma negatives_from_pool_witness :
  rank_candidates Pair.dataset 0 Demo.draws = OK Pair.ranking /\
  select_negatives Pair.dataset Pair.ranking = OK [5; 4] /\
  In 5 (rk_negSample Pair.ranking) /\
  (In 4 [] \/ In 4 (setdiff1d (arange 24) [0])).
Proof.
  assert (H : rank_candidates Pair.dataset 0 Demo.draws = OK Pair.ranking) by reflexivity.
  assert (S : select_negatives Pair.dataset Pair.ranking = OK [5; 4]) by reflexivity.
  split; [exact H|]. split; [exact S|]. split; [vm_compute; tauto|].
  destruct (negatives_from_pool Pair.dataset 0 Demo.draws H S)
    as (pn & prev & Hpn & Hprev & Hall).
  inversion Hpn; subst pn. inversion Hprev; subst prev.
  apply (Hall ltac:(intros c [[]|Hc]; vm_compute in Hc;
                    repeat (destruct Hc as [<-|Hc]; [lia|]); destruct Hc)
              4 (or_intror (or_introl eq_refl))).
Defined.

Lemma no_positive_raises_witness :
  py_index (queries Trial.inconsistent) 0 = OK 0 /\
  py_index (nontrivial_positives Trial.inconsistent) 0 = OK [] /\
  raises (fst (getitem (Img:=string) Trial.inconsistent 0 Demo.draws)).
Proof.
  split; [reflexivity|]. split; [reflexivity|].
  exact (proj1 (no_positive_raises (Img:=string) Trial.inconsistent 0 Demo.draws
                  (q:=0) eq_refl eq_refl)).
Defined.

Lemma cache_stays_within_negatives_witness :
  query_init Demo.manifest 11 1 16 = OK (Demo.built 16) /\
  numDb Demo.manifest <= 2 ^ 31 /\
  negCache (mine_all (Img:=string) (Demo.built 16) Trial.one_call) = [[1]; []] /\
  cache_within_negatives (mine_all (Img:=string) (Demo.built 16) Trial.one_call).
Proof.
  assert (H : query_init Demo.manifest 11 1 16 = OK (Demo.built 16)) by reflexivity.
  assert (Hn : numDb Demo.manifest <= 2 ^ 31) by (vm_compute; discriminate).
  split; [exact H|]. split; [exact Hn|]. split; [reflexivity|].
  exact (proj1 (cache_stays_within_negatives (Img:=string) Demo.manifest 11 1 16
                  Trial.one_call H Hn)).
Defined.

Lemma mined_negatives_are_far_witness :
  rank_candidates
    (set_cache (mine_all (Img:=string) (Demo.built 16) Trial.one_call) (Some Demo.features))
    0 Demo.draws = OK Demo.ranking /\
  exists coord, nth_error (utmQ Demo.manifest) 0 = Some coord /\
                0 <= 1 < numDb Demo.manifest /\
                ~ positive_neighborhood Demo.manifest coord 1.
Proof.
  assert (H : query_init Demo.manifest 11 1 16 = OK (Demo.built 16)) by reflexivity.
  assert (Hn : numDb Demo.manifest <= 2 ^ 31) by (vm_compute; discriminate).
  assert (R : rank_candidates
                (set_cache (mine_all (Img:=string) (Demo.built 16) Trial.one_call)
                           (Some Demo.features))
                0 Demo.draws = OK Demo.ranking) by reflexivity.
  split; [exact R|].
  destruct (mined_negatives_are_far (Img:=string) Demo.manifest 11 1 16 Trial.one_call
              (Some Demo.features) 0 Demo.draws (rk:=Demo.ranking) (negIndices:=[1])
              H Hn R eq_refl) as (coord & Hc & Hall).
  exists coord. split; [exact Hc|]. exact (Hall 1 (or_introl eq_refl)).
Defined.

Lemma negatives_distinct_witness :
  rank_candidates
    (set_cache (mine_all (Img:=string) Pair.built Pair.one_call) (Some Pair.features))
    0 Demo.draws = OK Pair.ranking /\
  select_negatives
    (set_cache (mine_all (Img:=string) Pair.built Pair.one_call) (Some Pair.features))
    Pair.ranking = OK [5; 4] /\
  NoDup [5; 4].
Proof.
  assert (H : query_init Pair.manifest 23 2 16 = OK Pair.built) by reflexivity.
  assert (Hn : numDb Pair.manifest <= 2 ^ 31) by (vm_compute; discriminate).
  assert (R : rank_candidates
                (set_cache (mine_all (Img:=string) Pair.built Pair.one_call)
                           (Some Pair.features))
                0 Demo.draws = OK Pair.ranking) by reflexivity.
  assert (S : select_negatives
                (set_cache (mine_all (Img:=string) Pair.built Pair.one_call)
                           (Some Pair.features))
                Pair.ranking = OK [5; 4]) by reflexivity.
  split; [exact R|]. split; [exact S|].
  exact (negatives_distinct (Img:=string) Pair.manifest 23 2 16 Pair.one_call
           (Some Pair.features) 0 Demo.draws (rk:=Pair.ranking) (negIndices:=[5; 4])
           H Hn R S).
Defined.

Lemma negatives_carried_over_witness :
  getitem (Demo.dataset_with 16) 0 Demo.draws = (OK (Some Demo.mined), Demo.after_mining) /\
  rank_candidates (set_cache Demo.after_mining (Some Demo.features)) 0 Demo.draws
    = OK Demo.ranking /\
  In 1 (rk_negSample Demo.ranking).
Proof.
  assert (H : getitem (Demo.dataset_with 16) 0 Demo.draws
              = (OK (Some Demo.mined), Demo.after_mining)) by reflexivity.
  assert (R : rank_candidates (set_cache Demo.after_mining (Some Demo.features)) 0 Demo.draws
              = OK Demo.ranking) by reflexivity.
  split; [exact H|]. split; [exact R|].
  exact (negatives_carried_over (Demo.dataset_with 16) 0 Demo.draws Demo.draws
           (Some Demo.features) H R 1 (or_introl eq_refl)).
Defined.

(** ** The miner on the data set with two negatives per query *)

Lemma violating_negatives_selected_witness :
  rank_candidates Pair.dataset 0 Demo.draws = OK Pair.ranking /\
  getitem Pair.dataset 0 Demo.draws = (OK (Some Pair.mined), Pair.after_mining) /\
  StronglySorted (fun a b : Z => f_leb a b = true) [11; 12] /\
  select_negatives Pair.dataset Pair.ranking = OK [5; 4] /\
  snd Pair.mined = [0; 0; 5; 4] /\
  py_index (negCache Pair.after_mining) 0 = OK [5; 4].
Proof.
  assert (H : rank_candidates Pair.dataset 0 Demo.draws = OK Pair.ranking) by reflexivity.
  assert (G : getitem Pair.dataset 0 Demo.draws = (OK (Some Pair.mined), Pair.after_mining))
    by reflexivity.
  split; [exact H|]. split; [exact G|].
  pose proof (violating_negatives_selected (Img:=string) Pair.dataset 0 Demo.draws H) as W.
  cbv zeta in W.
  destruct W as (_ & _ & _ & _ & _ & _ & Hsorted & cands & negIndices
                 & HF & _ & Hexact & Hsel & _ & Hsome).
  split; [exact (Hsorted ScalarLaws_Z)|].
  assert (Hc : cands = [5; 4]).
  { inversion HF as [|row1 c1 rows1 cands1 [_ E1] HF1]; subst.
    inversion HF1 as [|row2 c2 rows2 cands2 [_ E2] HF2]; subst.
    inversion HF2; subst. inversion E1. inversion E2. reflexivity. }
  assert (Hn : negIndices = [5; 4]).
  { rewrite <- Hc. apply Hexact. rewrite Hc.
    intros c [<-|[<-|[]]]; lia. }
  rewrite Hn in Hsel, Hsome. split; [exact Hsel|].
  destruct Hsome as (k & _ & _ & Hex); [discriminate|].
  exact (Hex Pair.mined Pair.after_mining G).
Defined.

Lemma ranking_wants_ten_per_negative_witness :
  (exists dNeg negNN,
      rank_candidates Pair.dataset 0 Demo.draws
        = OK {| rk_index := 0;
                rk_dPos := 10;
                rk_posIndex := 0;
                rk_negSample := rk_negSample Pair.ranking;
                rk_dNeg := dNeg;
                rk_negNN := negNN |} /\
      Z.of_nat (length dNeg) = 20 /\
      Z.of_nat (length negNN) = 20) /\
  Z.of_nat (length (rk_dNeg Pair.ranking)) = 20 /\
  raises (fst (getitem (Img:=string) Demo.starved 0 Demo.draws)) /\
  getitem (Img:=string) Demo.starved 0 Demo.draws = (Err ValueError, Demo.starved).
Proof.
  destruct (ranking_wants_ten_per_negative (Img:=string) Pair.dataset 0 Demo.draws)
    as (Hrows & _ & Hsearch).
  destruct (ranking_wants_ten_per_negative (Img:=string) Demo.starved 0 Demo.draws)
    as (_ & Hraises & Hfew).
  split; [|split; [|split]].
  - pose proof (Hsearch 0 Pair.features 0 [0] [10] [10] 10 0 0
                  (rk_negSample Pair.ranking) (rk_negSample Pair.ranking) []
                  Pair.negFeat
                  eq_refl eq_refl eq_refl eq_refl eq_refl eq_refl eq_refl eq_refl
                  eq_refl eq_refl eq_refl eq_refl) as W.
    cbv zeta in W. destruct W as (_ & Hok & _).
    destruct (Hok Pair.negFeat eq_refl eq_refl ltac:(vm_compute; discriminate))
      as (dNeg & negNN & _ & Hd & Hnn & Hrk).
    exists dNeg, negNN. split; [exact Hrk|]. split; [exact Hd | exact Hnn].
  - exact (proj1 (Hrows Pair.ranking eq_refl)).
  - apply (Hraises 0 (rk_negSample Demo.ranking) [1; 2; 3] []); reflexivity.
  - pose proof (Hfew 0 Demo.features 0 [0] [10] [10] 10 0 0
                  (rk_negSample Demo.ranking) [1; 2; 3] [] [12; 13; 50]
                  eq_refl eq_refl eq_refl eq_refl eq_refl eq_refl eq_refl eq_refl
                  eq_refl eq_refl eq_refl eq_refl) as W.
    cbv zeta in W. destruct W as (_ & _ & Hv).
    apply Hv. reflexivity.
Defined.
